(** * Patchwork-to-pull-request bridge: a shallow embedding of [pw-to-pr.py]
      and [update-check.py], and the properties of its documentation.

    The scripts are sequential Python.  Their pure helpers (string
    handling, title parsing) are embedded as plain functions; everything
    that talks to the tracker, the forge, git, the file system or the mail
    server runs in a small state-and-exception monad over a [World] that
    records every side effect in a trace.  The answers of the outside world
    are the fields of an [Env] record, and each of them may depend on the
    whole history of the run.

    Conventions.  A Python exception is the outcome [Raise].  The one
    unbounded loop, the page loop of [pw_get_patches_by_state], takes fuel
    and ends as [Diverge] when it runs out.  JSON objects are records with
    the keys the scripts read.  A dictionary is an association list in
    insertion order.  [main] is cut into the pieces named [main_...], one
    for each loop and each stretch of a loop body that a property is
    about; a [continue] is the end of the piece for one turn.  The pull
    request list [github_pulls], a global of the script, is a parameter. *)

From Stdlib Require Import ZArith List String Ascii Bool Lia DecimalString.
Import ListNotations.

Local Open Scope string_scope.
Local Open Scope Z_scope.

Set Implicit Arguments.

(** ** Python strings

    Python [str] values are modelled by [string]: finite sequences of 8-bit
    characters.  The operations below are the ones the scripts call. *)

Module PyStr.

(** [s.startswith(p)]; also the meaning of [re.search('^' + p, s)] for a
    literal [p], with [re.search(...)] read as a truth value. *)
Fixpoint startswith (p s : string) : bool :=
  match p, s with
  | EmptyString, _ => true
  | String a p', String b s' => Ascii.eqb a b && startswith p' s'
  | String _ _, EmptyString => false
  end.

(** [s.find(sub)]: the lowest index where [sub] occurs in [s], or [-1]. *)
Fixpoint find (sub s : string) : Z :=
  if startswith sub s then 0
  else match s with
       | EmptyString => -1
       | String _ s' => let r := find sub s' in
                        if r <? 0 then -1 else r + 1
       end.

(** [s.endswith(p)] *)
Definition endswith (p s : string) : bool :=
  let n := (String.length s - String.length p)%nat in
  (Nat.leb (String.length p) (String.length s) &&
   String.eqb (String.substring n (String.length p) s) p)%bool.

(** Truth value of a Python [int] used as a condition. *)
Definition truthy (n : Z) : bool := negb (n =? 0).

(** [s[k:]] for a start index [k >= 0]. *)
Fixpoint drop (k : nat) (s : string) : string :=
  match k, s with
  | O, _ => s
  | S k', String _ s' => drop k' s'
  | S _, EmptyString => EmptyString
  end.

Definition slice_from (k : Z) (s : string) : string := drop (Z.to_nat k) s.

Definition newline : ascii := ascii_of_nat 10.

(** [s.split('\n')]: always at least one piece. *)
Fixpoint split_lines (s : string) : list string :=
  match s with
  | EmptyString => [EmptyString]
  | String c s' =>
      if Ascii.eqb c newline then EmptyString :: split_lines s'
      else match split_lines s' with
           | [] => [String c EmptyString]
           | l :: ls => String c l :: ls
           end
  end.

(** ASCII lower-casing, the case folding of [re.IGNORECASE] on the
    characters the fixed patterns of the scripts contain. *)
Definition lower_ascii (c : ascii) : ascii :=
  let n := nat_of_ascii c in
  if (Nat.leb 65 n && Nat.leb n 90)%bool then ascii_of_nat (n + 32) else c.

Fixpoint lower (s : string) : string :=
  match s with
  | EmptyString => EmptyString
  | String c s' => String (lower_ascii c) (lower s')
  end.

(** Is [sub] a substring of [s]? *)
Fixpoint contains (sub s : string) : bool :=
  startswith sub s ||
  match s with
  | EmptyString => false
  | String _ s' => contains sub s'
  end.

(** [re.search(lit, s, re.IGNORECASE)] as a truth value, for a pattern [lit]
    without regular-expression metacharacters. *)
Definition search_literal_ignorecase (lit s : string) : bool :=
  contains (lower lit) (lower s).

Definition is_digit (c : ascii) : bool :=
  let n := nat_of_ascii c in (Nat.leb 48 n && Nat.leb n 57)%bool.

Definition digit_value (c : ascii) : Z := Z.of_nat (nat_of_ascii c) - 48.

(** The longest prefix of decimal digits, and what follows it. *)
Fixpoint span_digits (s : string) : string * string :=
  match s with
  | EmptyString => (EmptyString, EmptyString)
  | String c s' =>
      if is_digit c then let (ds, rest) := span_digits s' in (String c ds, rest)
      else (EmptyString, s)
  end.

Fixpoint int_acc (acc : Z) (ds : string) : Z :=
  match ds with
  | EmptyString => acc
  | String c ds' => int_acc (10 * acc + digit_value c) ds'
  end.

(** [int(ds)] on a non-empty string of decimal digits. *)
Definition int_of_digits (ds : string) : Z := int_acc 0 ds.

(** [str(n)] for an [int]. *)
Definition str (n : Z) : string := NilZero.string_of_int (Z.to_int n).

Fixpoint all_digits (s : string) : bool :=
  match s with
  | EmptyString => true
  | String c s' => is_digit c && all_digits s'
  end.

End PyStr.

(** ** [patch_get_file_list] (pw-to-pr.py) *)

(** The loop body: what one line adds to [file_list]. *)
Definition file_list_of_line (line : string) : list string :=
  if PyStr.startswith "--- " line then
    if PyStr.truthy (PyStr.find "dev/null" line) then []
    else [PyStr.slice_from (PyStr.find "/" line + 1) line]
  else [].

(** [patch] is [None] when the tracker sends a null diff. *)
Definition patch_get_file_list (patch : option string) : list string :=
  match patch with
  | None => []
  | Some text => flat_map file_list_of_line (PyStr.split_lines text)
  end.

(** What the documentation says a line contributes: an old-file line
    gives the path after its first slash, unless its old path is
    [/dev/null]. *)
Definition documented_file_list_of_line (line : string) : list string :=
  if PyStr.startswith "--- " line then
    if (PyStr.drop 4 line =? "/dev/null")%string then []
    else [PyStr.slice_from (PyStr.find "/" line + 1) line]
  else [].

Definition documented_file_list (patch : option string) : list string :=
  match patch with
  | None => []
  | Some text => flat_map documented_file_list_of_line (PyStr.split_lines text)
  end.

(** ** Data model: the JSON objects of the tracker and the forge *)

(** A patch as the tracker serves it.  The same shape is used for the
    entries of a series' [patches] list, for the items of the patch list and
    for full patches; [patch_series] is [None] when the ['series'] key is
    absent, and holds the ids of the referenced series otherwise. *)
Record Patch := {
  patch_id : Z;
  patch_name : string;
  patch_mbox : string;
  patch_msgid : string;
  patch_check : string;
  patch_content : string;
  patch_diff : option string;
  patch_series : option (list Z)
}.

Record Series := {
  series_id : Z;
  series_name : option string;
  series_submitter_email : string;
  series_patches : list Patch
}.

(** An open pull request of the forge: [pr.number], [pr.title],
    [pr.head.ref]. *)
Record PullRequest := {
  pull_number : Z;
  pull_title : string;
  pull_head_ref : string
}.

(** The body of a check posted to the tracker. *)
Record CheckContent := {
  check_user : Z;
  check_state : Z;
  check_target_url : string;
  check_context : string;
  check_description : string
}.

(** The mail built by [email_compose]. *)
Record Email := {
  mail_subject : string;
  mail_reply_to : string;
  mail_from : string;
  mail_to : string;
  mail_in_reply_to : string;
  mail_references : string;
  mail_body : string
}.

(** The configuration file. *)
Record EmailConfig := {
  email_enable : bool;
  email_server : string;
  email_port : Z;
  email_starttls : bool;
  email_user : string;
  email_default_to : string;
  email_only_maintainers : bool;
  email_maintainers : list string
}.

Record RepoDetail := {
  repo_include : list string;
  repo_exclude : list string
}.

Record Config := {
  config_repo_details : list (string * RepoDetail);
  config_email : EmailConfig
}.

(** The command line of pw-to-pr.py. *)
Record Args := {
  args_patch_state : list string;
  args_repo : string;
  args_branch : string;
  args_key_str : string;
  args_src_dir : string;
  args_ignore_check : bool;
  args_no_update_check : bool;
  args_dry_run : bool
}.

(** An HTTP response: [resp.status_code], the decoded [resp.json()] (or
    [resp.content]) and [resp.links["next"]["url"]] when there is one. *)
Record Response (A : Type) := {
  status_code : Z;
  payload : A;
  links_next : option string
}.

(** ** Side effects *)

(** Every request that leaves the process and every change it makes.  Of
    the lines the scripts print, the trace keeps the error reports: the
    lines that start with [ERROR:]. *)
Inductive Event :=
| EvLog (line : string)
| EvGet (url : string)
| EvPost (url : string) (headers : list (string * string)) (content : CheckContent)
| EvCmd (cmd : list string) (cwd : string)
| EvMakedirs (path : string)
| EvWriteFile (path : string) (content : string)
| EvCreatePull (title body base head : string)
| EvPullEdit (number : Z) (state : string)
| EvRefDelete (ref : string)
| EvSendmail (from_addr : string) (to_addr : list string) (message : Email).

Inductive Exn :=
| HTTPError (msg : string)
| IndexError
| KeyError (key : string)
| TypeError
| UnboundLocalError
| GithubException
| SystemExit (code : Z).

(** [os.environ] and the trace of the side effects so far, oldest first. *)
Record World := {
  environ : list (string * string);
  trace : list Event
}.

Definition log_event (ev : Event) (w : World) : World :=
  {| environ := environ w; trace := (trace w ++ [ev])%list |}.

(** How an SMTP conversation of [email_sendmail] ends. *)
Inductive SmtpOutcome :=
| SmtpSent                      (* every step through [session.sendmail] succeeded *)
| SmtpFailed (e : string)       (* a step after [smtplib.SMTP(...)] raised [e]; caught *)
| SmtpNoSession (e : string).   (* [smtplib.SMTP(...)] itself raised [e]; caught *)

(** The outside world.  Each answer may depend on the history of the run. *)
Record Env := {
  tracker_patches : World -> string -> Response (list Patch);
  tracker_series : World -> string -> Response Series;
  tracker_patch : World -> string -> Response Patch;
  tracker_mbox : World -> string -> Response string;
  tracker_post : World -> string -> list (string * string) -> CheckContent -> Response string;
  popen : World -> list string -> string -> Z * string * string;
  path_exists : World -> string -> bool;
  re_search_ignorecase : string -> string -> bool;
  forge_get_pulls : World -> string -> list PullRequest;
  forge_get_pull : World -> Z -> option PullRequest;
  forge_get_git_ref : World -> string -> bool;
  forge_accepts : World -> Event -> bool;
  smtp : World -> EmailConfig -> SmtpOutcome
}.

(** ** The monad of the scripts: state, exceptions and divergence *)

Inductive Outcome (A : Type) :=
| Ok (a : A)
| Raise (e : Exn)
| Diverge.

Arguments Raise {A} e.
Arguments Diverge {A}.

Definition M (A : Type) : Type := World -> Outcome A * World.

Definition ret {A} (a : A) : M A := fun w => (Ok a, w).

Definition bind {A B} (m : M A) (k : A -> M B) : M B :=
  fun w => match m w with
           | (Ok a, w') => k a w'
           | (Raise e, w') => (Raise e, w')
           | (Diverge, w') => (Diverge, w')
           end.

Definition raise {A} (e : Exn) : M A := fun w => (Raise e, w).

Definition diverge {A} : M A := fun w => (Diverge, w).

(** Perform a side effect. *)
Definition emit (ev : Event) : M unit := fun w => (Ok tt, log_event ev w).

(** [print] of an error report. *)
Definition print_error (line : string) : M unit := emit (EvLog line).

(** Ask the outside world a question that leaves no trace. *)
Definition observe {A} (q : World -> A) : M A := fun w => (Ok (q w), w).

Declare Scope py_scope.
Delimit Scope py_scope with py.
Notation "x <- m ;; k" := (bind m (fun x => k))
  (at level 61, m at next level, right associativity) : py_scope.
Notation "m ;;; k" := (bind m (fun _ => k))
  (at level 61, right associativity) : py_scope.
Local Open Scope py_scope.

(** Python dictionaries with insertion order, as association lists. *)
Section Dict.

Variables K V : Type.
Variable eqb : K -> K -> bool.

Fixpoint dict_get (d : list (K * V)) (k : K) : option V :=
  match d with
  | [] => None
  | (k', v) :: d' => if eqb k' k then Some v else dict_get d' k
  end.

(** [k in d] *)
Definition dict_mem (d : list (K * V)) (k : K) : bool :=
  match dict_get d k with Some _ => true | None => false end.

End Dict.

(** ** Constants *)

Definition PW_BASE_URL : string := "https://patchwork.kernel.org/api".
Definition PW_PROJECT_ID : string := "395".
Definition PR_TITLE_PREFIX : string := "PW_SID".

Definition EMAIL_MESSAGE_head : string :=
"This is an automated email and please do not reply to this email.

Dear Submitter,

Thank you for submitting the patches to the linux bluetooth mailing list.
While preparing the CI tests, the patches you submitted couldn't be applied to the current HEAD of the repository.

----- Output -----
".

Definition EMAIL_MESSAGE_tail : string :=
"

Please resolve the issue and submit the patches again.


---
Regards,
Linux Bluetooth

".

(** [EMAIL_MESSAGE.format(output)] *)
Definition EMAIL_MESSAGE_format (output : string) : string :=
  EMAIL_MESSAGE_head ++ output ++ EMAIL_MESSAGE_tail.

(** [os.path.join(a, b)] on POSIX. *)
Definition os_path_join (a b : string) : string :=
  if PyStr.startswith "/" b then b
  else if (a =? "")%string then b
  else if PyStr.endswith "/" a then a ++ b
  else a ++ "/" ++ b.

(** [", ".join(l)] *)
Fixpoint join_comma (l : list string) : string :=
  match l with
  | [] => ""
  | [x] => x
  | x :: rest => x ++ ", " ++ join_comma rest
  end.

(** ** The scripts *)

Section Scripts.

Variable E : Env.

(** *** HTTP helpers *)

(** [requests.get(url)] against one endpoint of the tracker. *)
Definition requests_get {A} (endpoint : World -> string -> Response A)
    (url : string) : M (Response A) :=
  fun w => (Ok (endpoint w url), log_event (EvGet url) w).

Definition requests_url {A} (endpoint : World -> string -> Response A)
    (url : string) : M (Response A) :=
  resp <- requests_get endpoint url ;;
  if negb (status_code resp =? 200) then
    raise (HTTPError ("GET " ++ PyStr.str (status_code resp)))
  else ret resp.

Definition requests_post (url : string) (headers : list (string * string))
    (content : CheckContent) : M (Response string) :=
  resp <- (fun w => (Ok (tracker_post E w url headers content),
                     log_event (EvPost url headers content) w)) ;;
  if negb (status_code resp =? 201) then
    raise (HTTPError ("POST " ++ PyStr.str (status_code resp)))
  else ret resp.

(** *** Running git *)

Definition cmd_run (cmd : list string) (cwd : string) : M (Z * string * string) :=
  fun w =>
    let '(returncode, stdout, stderr) := popen E w cmd cwd in
    let w' := log_event (EvCmd cmd cwd) w in
    if negb (returncode =? 0) then (Ok (returncode, "", stderr), w')
    else (Ok (0, stdout, stderr), w').

Definition git_checkout (branch cwd : string) (create_branch : bool) : M bool :=
  let cmd := ["git"; "checkout"] in
  let cmd := if create_branch then (cmd ++ ["-b"; branch])%list
             else (cmd ++ [branch])%list in
  r <- cmd_run cmd cwd ;;
  let '(ret_, _, _) := r in
  if negb (ret_ =? 0) then
    print_error "ERROR: failed to checkout" ;;; ret false
  else ret true.

Definition git_push (remote branch cwd : string) (force : bool) : M bool :=
  let cmd := ["git"; "push"; remote; branch] in
  let cmd := if force then (cmd ++ ["--force"])%list else cmd in
  r <- cmd_run cmd cwd ;;
  let '(ret_, _, _) := r in
  if negb (ret_ =? 0) then
    print_error "ERROR: failed to push" ;;; ret false
  else ret true.

Definition git_am (patch cwd : string) : M (Z * string * string) :=
  cmd_run ["git"; "am"; patch] cwd.

Definition git_am_abort (cwd : string) : M (Z * string * string) :=
  cmd_run ["git"; "am"; "--abort"] cwd.

(** *** Tracker client *)

Definition pw_get_series (id : Z) : M Series :=
  let url := PW_BASE_URL ++ "/series/" ++ PyStr.str id in
  resp <- requests_url (tracker_series E) url ;;
  ret (payload resp).

Definition pw_get_patch (id : Z) : M Patch :=
  let url := PW_BASE_URL ++ "/patches/" ++ PyStr.str id in
  resp <- requests_url (tracker_patch E) url ;;
  ret (payload resp).

(** The [while True] loop of [pw_get_patches_by_state]; [fuel] bounds the
    number of pages read. *)
Fixpoint pw_get_patches_by_state_loop (fuel : nat) (url : string)
    (patches : list Patch) : M (list Patch) :=
  match fuel with
  | O => diverge
  | S fuel' =>
      resp <- requests_url (tracker_patches E) url ;;
      let patches := (patches ++ payload resp)%list in
      match links_next resp with
      | None => ret patches
      | Some next => pw_get_patches_by_state_loop fuel' next patches
      end
  end.

Definition patches_url (states : list string) : string :=
  fold_left (fun url state => url ++ "&state=" ++ state) states
    (PW_BASE_URL ++ "/patches/?project=" ++ PW_PROJECT_ID ++ "&archived=0").

Definition pw_get_patches_by_state (fuel : nat) (states : list string)
    : M (list Patch) :=
  pw_get_patches_by_state_loop fuel (patches_url states) [].

Definition check_url (patch_id : Z) : string :=
  PW_BASE_URL ++ "/patches/" ++ PyStr.str patch_id ++ "/checks/".

(** [pw_submit_check], the same text in pw-to-pr.py and update-check.py.
    The result is [None] for Python's [None], else the decoded reply. *)
Definition pw_submit_check (patch_id state : Z) (context description : string)
    (target_url : option string) : M (option string) :=
  let url := check_url patch_id in
  env <- observe environ ;;
  match dict_get String.eqb env "PATCHWORK_TOKEN" with
  | None =>
      print_error "ERROR: Unable to find PATCHWORK_TOKEN in environment" ;;;
      ret None
  | Some token =>
      let target_url :=
        match target_url with
        | None => ""
        | Some u => if (u =? "")%string then "" else u
        end in
      let headers := [("Authorization", "Token " ++ token)] in
      let content := {| check_user := 104215;
                        check_state := state;
                        check_target_url := target_url;
                        check_context := context;
                        check_description := description |} in
      req <- requests_post url headers content ;;
      ret (Some (payload req))
  end.

(** *** Forge client *)

(** A call of the forge library that changes the forge: it raises when the
    forge refuses, and is recorded when it goes through. *)
Definition forge_call (ev : Event) : M unit :=
  fun w => if forge_accepts E w ev then (Ok tt, log_event ev w)
           else (Raise GithubException, w).

Definition github_create_pr (title body base head : string) : M unit :=
  forge_call (EvCreatePull title body base head).

Definition github_close_pr (pr_id : Z) : M unit :=
  found <- observe (fun w => forge_get_pull E w pr_id) ;;
  match found with
  | None => raise GithubException
  | Some pr =>
      let pr_head_ref := pull_head_ref pr in
      forge_call (EvPullEdit (pull_number pr) "closed") ;;;
      let ref := "heads/" ++ pr_head_ref in
      present <- observe (fun w => forge_get_git_ref E w ref) ;;
      if present then forge_call (EvRefDelete ref)
      else raise GithubException
  end.

Fixpoint github_pr_exist (github_pulls : list PullRequest) (id : Z) : bool :=
  let id_str := "PW_SID:" ++ PyStr.str id in
  match github_pulls with
  | [] => false
  | pull :: rest =>
      if PyStr.search_literal_ignorecase id_str (pull_title pull) then true
      else github_pr_exist rest id
  end.

(** *** Mail *)

Definition email_sendmail (config : EmailConfig) (from_addr : string)
    (to_addr : list string) (message : Email) : M unit :=
  env <- observe environ ;;
  if negb (dict_mem String.eqb env "EMAIL_TOKEN") then
    print_error "ERROR: Missing EMAIL_TOKEN in Environment. Skip sending"
  else
    outcome <- observe (fun w => smtp E w config) ;;
    match outcome with
    | SmtpSent => emit (EvSendmail from_addr to_addr message)
    | SmtpFailed e => print_error ("ERROR: Exception: " ++ e)
    | SmtpNoSession e =>
        (* [finally: session.quit()] with [session] never bound *)
        print_error ("ERROR: Exception: " ++ e) ;;;
        raise UnboundLocalError
    end.

Definition email_compose (config : EmailConfig) (series : Series)
    (content : string) : M unit :=
  if negb (email_enable config) then ret tt
  else
    match series_name series with
    | None => raise TypeError
    | Some name =>
        let from_addr := email_user config in
        let to_addr :=
          if email_only_maintainers config then email_maintainers config
          else [email_default_to config; series_submitter_email series] in
        match series_patches series with
        | [] => raise IndexError
        | patch_1 :: _ =>
            let message := {| mail_subject := "RE: " ++ name;
                              mail_reply_to := email_default_to config;
                              mail_from := from_addr;
                              mail_to := join_comma to_addr;
                              mail_in_reply_to := patch_msgid patch_1;
                              mail_references := patch_msgid patch_1;
                              mail_body := content |} in
            email_sendmail config from_addr to_addr message
        end
    end.

(** *** Series discovery *)

(** The inner loop of [get_new_series] over [patch['series']]. *)
Fixpoint get_new_series_of_patch (refs : list Z) (series_dict : list (Z * Series))
    : M (list (Z * Series)) :=
  match refs with
  | [] => ret series_dict
  | id :: rest =>
      if negb (dict_mem Z.eqb series_dict id) then
        detail <- pw_get_series id ;;
        get_new_series_of_patch rest (series_dict ++ [(id, detail)])%list
      else get_new_series_of_patch rest series_dict
  end.

(** The outer loop of [get_new_series] over the patches. *)
Fixpoint get_new_series_loop (patches : list Patch) (series_dict : list (Z * Series))
    : M (list (Z * Series)) :=
  match patches with
  | [] => ret series_dict
  | patch :: rest =>
      match patch_series patch with
      | None => get_new_series_loop rest series_dict
      | Some refs =>
          series_dict <- get_new_series_of_patch refs series_dict ;;
          get_new_series_loop rest series_dict
      end
  end.

Definition get_new_series (fuel : nat) (states : list string)
    : M (list (Z * Series)) :=
  patches <- pw_get_patches_by_state fuel states ;;
  if (List.length patches =? 0)%nat then ret []
  else get_new_series_loop patches [].

Definition series_checked (series : Series) : M bool :=
  match series_patches series with
  | [] => raise IndexError
  | first :: _ =>
      patch_1 <- pw_get_patch (patch_id first) ;;
      if (patch_check patch_1 =? "pending")%string then ret false
      else ret true
  end.

Definition create_series_dir (id : Z) (root_dir : string) : M string :=
  let series_path := os_path_join root_dir (PyStr.str id) in
  present <- observe (fun w => path_exists E w series_path) ;;
  (if negb present then emit (EvMakedirs series_path) else ret tt) ;;;
  ret series_path.

(** [str(x)] for a value that is a string or [None]. *)
Definition str_of_name (name : option string) : string :=
  match name with
  | None => "None"
  | Some n => n
  end.

Definition create_pr (series : Series) (base head : string) : M unit :=
  let title := "[" ++ PR_TITLE_PREFIX ++ ":" ++ PyStr.str (series_id series)
               ++ "] " ++ str_of_name (series_name series) in
  match series_patches series with
  | [] => raise IndexError
  | first :: _ =>
      patch_1 <- pw_get_patch (patch_id first) ;;
      github_create_pr title (patch_content patch_1) base head
  end.

(** [re.search(r'^\[PW_SID:([0-9]+)\]', pr_title)]: the digits of group 1
    when the title matches. *)
Definition search_pw_sid (pr_title : string) : option string :=
  if PyStr.startswith "[PW_SID:" pr_title then
    let (digits, rest) := PyStr.span_digits (PyStr.drop 8 pr_title) in
    match digits with
    | EmptyString => None
    | String _ _ => if PyStr.startswith "]" rest then Some digits else None
    end
  else None.

Definition get_pw_sid (pr_title : string) : M Z :=
  match search_pw_sid pr_title with
  | None =>
      (* [.group(1)] on [None]: the AttributeError handler *)
      print_error ("ERROR: Unable to find the series_id from title " ++ pr_title) ;;;
      ret 0
  | Some sid => ret (PyStr.int_of_digits sid)
  end.

(** *** Relevance filter *)

Fixpoint series_get_file_list_loop (patches : list Patch) (file_list : list string)
    : M (list string) :=
  match patches with
  | [] => ret file_list
  | patch :: rest =>
      full_patch <- pw_get_patch (patch_id patch) ;;
      series_get_file_list_loop rest
        (file_list ++ patch_get_file_list (patch_diff full_patch))%list
  end.

Definition series_get_file_list (series : Series) : M (list string) :=
  series_get_file_list_loop (series_patches series) [].

(** The two pattern loops of [filter_repo_type]: is there a pattern that
    [re.search(pattern, name, re.IGNORECASE)] finds?  A null name is a
    [TypeError] at the first search. *)
Fixpoint search_patterns (patterns : list string) (name : option string) : M bool :=
  match patterns with
  | [] => ret false
  | pattern :: rest =>
      match name with
      | None => raise TypeError
      | Some n =>
          if re_search_ignorecase E pattern n then ret true
          else search_patterns rest name
      end
  end.

(** The last loop of [filter_repo_type]: does every file exist? *)
Fixpoint files_exist (src_dir : string) (file_list : list string) : M bool :=
  match file_list with
  | [] => ret true
  | filename :: rest =>
      let file_path := os_path_join src_dir filename in
      present <- observe (fun w => path_exists E w file_path) ;;
      if negb present then ret false else files_exist src_dir rest
  end.

(** [filter_repo_type] from the file list on. *)
Definition filter_by_files (series : Series) (src_dir : string) : M bool :=
  file_list <- series_get_file_list series ;;
  if (List.length file_list =? 0)%nat then
    print_error "ERROR: No files found in the series/patch" ;;; ret false
  else files_exist src_dir file_list.

Definition filter_repo_type (repo_detail : RepoDetail) (series : Series)
    (src_dir : string) : M bool :=
  excluded <- search_patterns (repo_exclude repo_detail) (series_name series) ;;
  if excluded then ret false
  else
    included <- search_patterns (repo_include repo_detail) (series_name series) ;;
    if included then ret true
    else filter_by_files series src_dir.

(** *** [main] of pw-to-pr.py *)

Definition init_github (repo : string) : M (list PullRequest) :=
  env <- observe environ ;;
  match dict_get String.eqb env "GITHUB_TOKEN" with
  | None => raise (KeyError "GITHUB_TOKEN")
  | Some _ => observe (fun w => forge_get_pulls E w repo)
  end.

(** The upload of one check from the patch loop, behind the two flags. *)
Definition main_submit_check (args : Args) (patch_id state : Z)
    (description : string) : M unit :=
  if args_dry_run args then ret tt
  else if args_no_update_check args then ret tt
  else pw_submit_check patch_id state "pre-ci_am" description None ;;; ret tt.

(** The loop over [series['patches']]; the result is [(verdict, content)]. *)
Fixpoint main_apply_patches (args : Args) (series_dir : string)
    (patches : list Patch) : M (bool * string) :=
  match patches with
  | [] => ret (true, "")
  | patch :: rest =>
      resp <- requests_url (tracker_mbox E) (patch_mbox patch) ;;
      let patch_name := PyStr.str (patch_id patch) ++ ".patch" in
      let patch_path := os_path_join series_dir patch_name in
      emit (EvWriteFile patch_path (payload resp)) ;;;
      r <- git_am patch_path (args_src_dir args) ;;
      let '(ret_, _, stderr) := r in
      if negb (ret_ =? 0) then
        main_submit_check args (patch_id patch) 3 stderr ;;;
        git_am_abort (args_src_dir args) ;;;
        ret (false, EMAIL_MESSAGE_format stderr)
      else
        main_submit_check args (patch_id patch) 1 "Success" ;;;
        main_apply_patches args series_dir rest
  end.

(** What follows the patch loop: the mail on failure, push and pull
    request on success. *)
Definition main_publish (args : Args) (config : Config) (id : Z)
    (series : Series) (verdict : bool) (content : string) : M unit :=
  if negb verdict then
    if args_dry_run args then ret tt
    else email_compose (config_email config) series content
  else if args_dry_run args then ret tt
  else
    pushed <- git_push "origin" (PyStr.str id) (args_src_dir args) false ;;
    if negb pushed then
      print_error "ERROR: Failed to push the source to github" ;;;
      print_error "ERROR: Skip creating Pull Request"
    else create_pr series (args_branch args) (PyStr.str id).

(** The patch loop and what follows it. *)
Definition main_apply_series (args : Args) (config : Config) (id : Z)
    (series : Series) (series_dir : string) : M unit :=
  r <- main_apply_patches args series_dir (series_patches series) ;;
  let '(verdict, content) := r in
  main_publish args config id series verdict content.

(** One series from the point where it is known to need a pull request. *)
Definition main_build_series (args : Args) (config : Config)
    (temp_root_dir : string) (id : Z) (series : Series) : M unit :=
  series_dir <- create_series_dir id temp_root_dir ;;
  ok <- git_checkout (args_branch args) (args_src_dir args) false ;;
  if negb ok then
    print_error ("ERROR: Failed: git checkout " ++ args_branch args)
  else
    ok <- git_checkout (PyStr.str id) (args_src_dir args) true ;;
    if negb ok then
      print_error ("ERROR: Failed: git checkout -b " ++ PyStr.str id)
    else main_apply_series args config id series series_dir.

(** One series past the already-checked test. *)
Definition main_series_unchecked (args : Args) (config : Config)
    (github_pulls : list PullRequest) (temp_root_dir : string) (id : Z)
    (series : Series) : M unit :=
  series <-
    match series_name series with
    | None =>
        match series_patches series with
        | [] => raise IndexError
        | patch_1 :: _ =>
            ret {| series_id := series_id series;
                   series_name := Some (patch_name patch_1);
                   series_submitter_email := series_submitter_email series;
                   series_patches := series_patches series |}
        end
    | Some _ => ret series
    end ;;
  match dict_get String.eqb (config_repo_details config) (args_key_str args) with
  | None => raise (KeyError (args_key_str args))
  | Some repo_detail =>
      relevant <- filter_repo_type repo_detail series (args_src_dir args) ;;
      if negb relevant then ret tt
      else if github_pr_exist github_pulls id then ret tt
      else main_build_series args config temp_root_dir id series
  end.

(** One turn of the loop [for id in new_series]. *)
Definition main_series (args : Args) (config : Config)
    (github_pulls : list PullRequest) (temp_root_dir : string) (id : Z)
    (series : Series) : M unit :=
  checked <- (if negb (args_ignore_check args) then series_checked series
              else ret false) ;;
  if checked then ret tt
  else main_series_unchecked args config github_pulls temp_root_dir id series.

Fixpoint main_series_loop (args : Args) (config : Config)
    (github_pulls : list PullRequest) (temp_root_dir : string)
    (new_series : list (Z * Series)) : M unit :=
  match new_series with
  | [] => ret tt
  | (id, series) :: rest =>
      main_series args config github_pulls temp_root_dir id series ;;;
      main_series_loop args config github_pulls temp_root_dir rest
  end.

(** One turn of the clean-up loop [for pr in github_pulls]. *)
Definition main_cleanup_pr (args : Args) (new_series : list (Z * Series))
    (pr : PullRequest) : M unit :=
  pw_sid <- get_pw_sid (pull_title pr) ;;
  if dict_mem Z.eqb new_series pw_sid then ret tt
  else if args_dry_run args then ret tt
  else github_close_pr (pull_number pr).

Fixpoint main_cleanup (args : Args) (new_series : list (Z * Series))
    (github_pulls : list PullRequest) : M unit :=
  match github_pulls with
  | [] => ret tt
  | pr :: rest =>
      main_cleanup_pr args new_series pr ;;;
      main_cleanup args new_series rest
  end.

(** [main], from the parsed command line and the loaded configuration
    ([None] when the file is missing). *)
Definition main (fuel : nat) (args : Args) (config : option Config)
    (temp_root_dir : string) : M unit :=
  if (negb (args_key_str args =? "kernel") && negb (args_key_str args =? "user"))%string
  then
    print_error ("ERROR: Invalid repo_type: " ++ args_key_str args) ;;;
    raise (SystemExit 1)
  else
    match config with
    | None => raise (SystemExit 2)
    | Some config =>
        github_pulls <- init_github (args_repo args) ;;
        new_series <- get_new_series fuel (args_patch_state args) ;;
        if (List.length new_series =? 0)%nat then ret tt
        else
          main_series_loop args config github_pulls temp_root_dir new_series ;;;
          main_cleanup args new_series github_pulls
    end.

End Scripts.

(** ** Vocabulary of the properties *)

(** The case-insensitive substring relation: [tag] occurs in [text] up to
    the case of ASCII letters. *)
Definition contains_ignorecase (tag text : string) : Prop :=
  exists pre occ post,
    text = pre ++ occ ++ post /\ PyStr.lower occ = PyStr.lower tag.

(** The world after the events [new] have happened. *)
Definition add_events (new : list Event) (w : World) : World :=
  {| environ := environ w; trace := (trace w ++ new)%list |}.

(** [m] started in [w] ends with outcome [o] after the events [new]. *)
Definition runs {A} (m : M A) (w : World) (o : Outcome A) (new : list Event) : Prop :=
  m w = (o, add_events new w).

(** Every computation ends in some outcome after some events; [emits P m]
    says that all these events satisfy [P], whatever the outcome. *)
Definition emits {A} (P : Event -> Prop) (m : M A) : Prop :=
  forall w, exists o new, runs m w o new /\ Forall P new.


(** A request to the tracker that reads, or an error report. *)
Definition is_read_or_log (ev : Event) : Prop :=
  match ev with
  | EvGet _ | EvLog _ => True
  | _ => False
  end.

Definition is_create_pull (ev : Event) : bool :=
  match ev with
  | EvCreatePull _ _ _ _ => true
  | _ => false
  end.

(** The pull requests created in a trace. *)
Definition pulls_created (evs : list Event) : list Event :=
  filter is_create_pull evs.

(** The events of a pull request created for [series] from branch [head]:
    none but [EvCreatePull] is constrained. *)
Definition creates_tagged (series : Series) (head : string) (ev : Event) : Prop :=
  match ev with
  | EvCreatePull title _ _ head' =>
      head' = head /\
      title = "[PW_SID:" ++ PyStr.str (series_id series) ++ "] "
              ++ str_of_name (series_name series)
  | _ => True
  end.

(** An open pull request carries the tag of series [id] in its title. *)
Definition tagged_pull_exists (github_pulls : list PullRequest) (id : Z) : Prop :=
  exists pull,
    In pull github_pulls /\
    contains_ignorecase ("PW_SID:" ++ PyStr.str id) (pull_title pull).

(** [title] starts with the tag [[PW_SID:<digits>]]. *)
Definition series_tag (title digits : string) : Prop :=
  digits <> "" /\ PyStr.all_digits digits = true /\
  exists rest, title = "[PW_SID:" ++ digits ++ "]" ++ rest.

Definition has_series_tag (title : string) : Prop :=
  exists digits, series_tag title digits.

(** What closing a pull request does to the forge. *)
Definition close_events (pr : PullRequest) : list Event :=
  [EvPullEdit (pull_number pr) "closed";
   EvRefDelete ("heads/" ++ pull_head_ref pr)].

(** A pull request is untouched in a trace: it is not edited and its head
    branch is not deleted. *)
Definition untouched (pr : PullRequest) (new : list Event) : Prop :=
  (forall state, ~ In (EvPullEdit (pull_number pr) state) new) /\
  ~ In (EvRefDelete ("heads/" ++ pull_head_ref pr)) new.

(** A pull request is closed in a trace, and its head branch deleted. *)
Definition closed_and_deleted (pr : PullRequest) (new : list Event) : Prop :=
  In (EvPullEdit (pull_number pr) "closed") new /\
  In (EvRefDelete ("heads/" ++ pull_head_ref pr)) new.

(** The forge answers for the pull requests [github_pulls]: it finds each
    by its number, finds every git ref and accepts every change. *)
Definition forge_serves (E : Env) (github_pulls : list PullRequest) : Prop :=
  (forall w pr, In pr github_pulls ->
                forge_get_pull E w (pull_number pr) = Some pr) /\
  (forall w ref, forge_get_git_ref E w ref = true) /\
  (forall w ev, forge_accepts E w ev = true).

(** What one turn of the clean-up loop does when the forge answers and
    [--dry-run] is off. *)
Definition cleanup_events (new_series : list (Z * Series)) (pr : PullRequest)
    : list Event :=
  match search_pw_sid (pull_title pr) with
  | None =>
      EvLog ("ERROR: Unable to find the series_id from title " ++ pull_title pr)
      :: (if dict_mem Z.eqb new_series 0 then [] else close_events pr)
  | Some digits =>
      if dict_mem Z.eqb new_series (PyStr.int_of_digits digits) then []
      else close_events pr
  end.

(** [m] started in [w] ends with an outcome and after events that satisfy
    [Q]. *)
Definition post {A} (m : M A) (w : World)
    (Q : Outcome A -> list Event -> Prop) : Prop :=
  exists o new, runs m w o new /\ Q o new.

(** The commands run and the checks posted: the part of a trace that the
    properties of the patch loop are about. *)
Inductive Step :=
| StepCmd (cmd : list string)
| StepCheck (url : string) (state : Z).

Definition step_of (ev : Event) : list Step :=
  match ev with
  | EvCmd cmd _ => [StepCmd cmd]
  | EvPost url _ content => [StepCheck url (check_state content)]
  | _ => []
  end.

Definition steps (evs : list Event) : list Step := flat_map step_of evs.

Definition is_forge_change (ev : Event) : bool :=
  match ev with
  | EvCreatePull _ _ _ _ | EvPullEdit _ _ | EvRefDelete _ => true
  | _ => false
  end.

Definition forge_changes (evs : list Event) : list Event :=
  filter is_forge_change evs.

Definition is_sendmail (ev : Event) : bool :=
  match ev with
  | EvSendmail _ _ _ => true
  | _ => false
  end.

(** The mails sent in a trace. *)
Definition mails (evs : list Event) : list Event := filter is_sendmail evs.

(** A trace shows the steps [ss], changes nothing on the forge and sends
    no mail. *)
Definition shows (new : list Event) (ss : list Step) : Prop :=
  steps new = ss /\ forge_changes new = [] /\ mails new = [].

Definition is_fail_check (s : Step) : bool :=
  match s with
  | StepCheck _ state => state =? 3
  | _ => false
  end.

Definition is_abort (s : Step) : bool :=
  match s with
  | StepCmd cmd =>
      if list_eq_dec string_dec cmd ["git"; "am"; "--abort"] then true else false
  | _ => false
  end.

Definition is_push (s : Step) : bool :=
  match s with
  | StepCmd (a :: b :: _) => ((a =? "git") && (b =? "push"))%string
  | _ => false
  end.

Definition is_check (s : Step) : bool :=
  match s with
  | StepCheck _ _ => true
  | _ => false
  end.

(** Where the patch loop saves a patch. *)
Definition patch_path (series_dir : string) (patch : Patch) : string :=
  os_path_join series_dir (PyStr.str (patch_id patch) ++ ".patch").

Definition git_am_cmd (series_dir : string) (patch : Patch) : list string :=
  ["git"; "am"; patch_path series_dir patch].

(** The mailbox of [patch] can be fetched and [git am] applies it. *)
Definition applies (E : Env) (args : Args) (series_dir : string)
    (patch : Patch) : Prop :=
  (forall w, status_code (tracker_mbox E w (patch_mbox patch)) = 200) /\
  (forall w, fst (fst (popen E w (git_am_cmd series_dir patch)
                         (args_src_dir args))) = 0).

(** The mailbox of [patch] can be fetched and [git am] fails on it. *)
Definition fails_to_apply (E : Env) (args : Args) (series_dir : string)
    (patch : Patch) : Prop :=
  (forall w, status_code (tracker_mbox E w (patch_mbox patch)) = 200) /\
  (forall w, fst (fst (popen E w (git_am_cmd series_dir patch)
                         (args_src_dir args))) <> 0).

(** The tracker accepts every check. *)
Definition accepts_checks (E : Env) : Prop :=
  forall w url headers content,
    status_code (tracker_post E w url headers content) = 201.

(** Checks are uploaded: neither flag suppresses them and the token is
    there. *)
Definition uploads (args : Args) (env : list (string * string)) : bool :=
  negb (args_dry_run args) && negb (args_no_update_check args) &&
  dict_mem String.eqb env "PATCHWORK_TOKEN".

Definition check_steps (args : Args) (env : list (string * string))
    (patch : Patch) (state : Z) : list Step :=
  if uploads args env then [StepCheck (check_url (patch_id patch)) state]
  else [].

(** The failure mail goes out: mail is enabled, the series has a name, the
    mail token is there and the mail server takes the mail. *)
Definition notifies (E : Env) (args : Args) (config : Config) (series : Series)
    (env : list (string * string)) : Prop :=
  args_dry_run args = false /\
  email_enable (config_email config) = true /\
  series_name series <> None /\
  dict_mem String.eqb env "EMAIL_TOKEN" = true /\
  (forall w, smtp E w (config_email config) = SmtpSent).

(** Does one of [patterns] match [name], case-insensitively? *)
Definition matches_any (E : Env) (patterns : list string) (name : string) : bool :=
  existsb (fun pattern => re_search_ignorecase E pattern name) patterns.

(** The tracker serves the pages of [chain], each under its URL and each
    linking to the next, whatever happened before. *)
Fixpoint serves (E : Env) (chain : list (string * list Patch)) : Prop :=
  match chain with
  | [] => False
  | (url, page) :: rest =>
      match rest with
      | [] =>
          forall w, tracker_patches E w url =
                    {| status_code := 200; payload := page; links_next := None |}
      | (next, _) :: _ =>
          (forall w, tracker_patches E w url =
                     {| status_code := 200; payload := page;
                        links_next := Some next |}) /\
          serves E rest
      end
  end.

(** The patches of all pages, page after page. *)
Definition all_pages (chain : list (string * list Patch)) : list Patch :=
  List.concat (map snd chain).

(** ** Fixtures: concrete trackers, forges and runs *)

Module Fixture.

Definition response {A} (status : Z) (a : A) (next : option string) : Response A :=
  {| status_code := status; payload := a; links_next := next |}.

Definition patch (id : Z) (check : string) (series : list Z) : Patch :=
  {| patch_id := id;
     patch_name := "patch " ++ PyStr.str id;
     patch_mbox := "mbox/" ++ PyStr.str id;
     patch_msgid := "msgid-" ++ PyStr.str id;
     patch_check := check;
     patch_content := "content of " ++ PyStr.str id;
     patch_diff := Some "--- a/foo/bar.c";
     patch_series := Some series |}.

Definition series (id : Z) (name : option string) (patches : list Patch) : Series :=
  {| series_id := id;
     series_name := name;
     series_submitter_email := "submitter@example.org";
     series_patches := patches |}.

(** A world whose answers do not depend on the history: [patches] and
    [full_patch] answer the GETs for the patch list and for one patch,
    every mailbox GET gives 200, every POST gives [post_status], [run]
    gives the exit of a command, [search] is the pattern search, [pulls]
    are the open pull requests.  No path exists, every git ref does, the
    forge accepts every change and the mail server every mail. *)
Definition build (patches : string -> Response (list Patch))
    (full_patch : string -> Response Patch) (post_status : Z)
    (run : list string -> Z * string * string)
    (search : string -> string -> bool) (pulls : list PullRequest) : Env :=
  {| tracker_patches := fun _ url => patches url;
     tracker_series := fun _ _ => response 200 (series 0 None []) None;
     tracker_patch := fun _ url => full_patch url;
     tracker_mbox := fun _ url => response 200 ("From: " ++ url) None;
     tracker_post := fun _ _ _ _ => response post_status "{}" None;
     popen := fun _ cmd _ => run cmd;
     path_exists := fun _ _ => false;
     re_search_ignorecase := search;
     forge_get_pulls := fun _ _ => pulls;
     forge_get_pull :=
       fun _ number =>
         List.find (fun pr => pull_number pr =? number) pulls;
     forge_get_git_ref := fun _ _ => true;
     forge_accepts := fun _ _ => true;
     smtp := fun _ _ => SmtpSent |}.

(** Every request succeeds and answers with empty data. *)
Definition quiet : Env :=
  build (fun _ => response 200 [] None)
        (fun _ => response 200 (patch 0 "pending" []) None)
        201 (fun _ => (0, "", "")) (fun _ _ => false) [].

(** [quiet], with a tracker that answers every POST with [status]. *)
Definition posting (status : Z) : Env :=
  build (fun _ => response 200 [] None)
        (fun _ => response 200 (patch 0 "pending" []) None)
        status (fun _ => (0, "", "")) (fun _ _ => false) [].

(** [quiet], with a patch list of two pages. *)
Definition page_1 : list Patch := [patch 11 "pending" [1]; patch 12 "pending" [1]].
Definition page_2 : list Patch := [patch 21 "success" [2]].

Definition paged : Env :=
  build (fun url => if (url =? patches_url ["1"; "2"])%string
                    then response 200 page_1 (Some "https://tracker/page/2")
                    else response 200 page_2 None)
        (fun _ => response 200 (patch 0 "pending" []) None)
        201 (fun _ => (0, "", "")) (fun _ _ => false) [].

(** [quiet], with a tracker where patch 11 has check state [first] and
    every other patch has check state [later]. *)
Definition checks (first later : string) : Env :=
  build (fun _ => response 200 [] None)
        (fun url => if (url =? PW_BASE_URL ++ "/patches/11")%string
                    then response 200 (patch 11 first [1]) None
                    else response 200 (patch 12 later [1]) None)
        201 (fun _ => (0, "", "")) (fun _ _ => false) [].

(** [quiet], with patterns that are searched as literal text. *)
Definition literal : Env :=
  build (fun _ => response 200 [] None)
        (fun _ => response 200 (patch 0 "pending" []) None)
        201 (fun _ => (0, "", "")) PyStr.search_literal_ignorecase [].

Definition user_profile : RepoDetail :=
  {| repo_include := ["bluez"]; repo_exclude := ["kernel"] |}.

Definition open_pull (number : Z) (title : string) : PullRequest :=
  {| pull_number := number; pull_title := title;
     pull_head_ref := PyStr.str (number + 1000) |}.

(** [quiet], with a forge that has the open pull requests [pulls]. *)
Definition forge (pulls : list PullRequest) : Env :=
  build (fun _ => response 200 [] None)
        (fun _ => response 200 (patch 0 "pending" []) None)
        201 (fun _ => (0, "", "")) (fun _ _ => false) pulls.

(** Three open pull requests tagged for the series 1, 2 and 3, and an
    index with the series 1 and 3. *)
Definition three_pulls : list PullRequest :=
  [open_pull 101 "[PW_SID:1] first"; open_pull 102 "[PW_SID:2] second";
   open_pull 103 "[PW_SID:3] third"].

Definition index_1_3 : list (Z * Series) :=
  [(1, series 1 (Some "first") []); (3, series 3 (Some "third") [])].

(** A pull request that the scripts did not open. *)
Definition foreign_pull : PullRequest := open_pull 7 "Fix a typo in the README".

(** [quiet], with a tree on which [git am] of the file [path] fails. *)
Definition am_fails_on (path : string) : Env :=
  build (fun _ => response 200 [] None)
        (fun _ => response 200 (patch 0 "pending" []) None)
        201
        (fun cmd => if list_eq_dec string_dec cmd ["git"; "am"; path]
                    then (128, "", "error: patch failed")
                    else (0, "Applying", ""))
        (fun _ _ => false) [].

Definition four_patches : Series :=
  series 1 (Some "a series of four")
    [patch 11 "" [1]; patch 12 "" [1]; patch 13 "" [1]; patch 14 "" [1]].

Definition two_patches : Series :=
  series 1 (Some "a series of two") [patch 11 "" [1]; patch 12 "" [1]].

Definition args (dry_run : bool) : Args :=
  {| args_patch_state := ["1"; "2"];
     args_repo := "owner/repo";
     args_branch := "workflow";
     args_key_str := "user";
     args_src_dir := "/src";
     args_ignore_check := false;
     args_no_update_check := false;
     args_dry_run := dry_run |}.

Definition config : Config :=
  {| config_repo_details :=
       [("kernel", {| repo_include := ["kernel"]; repo_exclude := ["bluez"] |});
        ("user", {| repo_include := ["bluez"]; repo_exclude := ["kernel"] |})];
     config_email :=
       {| email_enable := true;
          email_server := "smtp.example.org";
          email_port := 587;
          email_starttls := true;
          email_user := "ci@example.org";
          email_default_to := "list@example.org";
          email_only_maintainers := false;
          email_maintainers := ["maintainer@example.org"] |} |}.

(** A forge with a memory: its open pull requests are the ones created
    and not closed in the trace so far, numbered in the order of
    creation. *)
Fixpoint pulls_of_trace (evs : list Event) (next : Z) (pulls : list PullRequest)
    : list PullRequest :=
  match evs with
  | [] => pulls
  | EvCreatePull title _ _ head :: evs' =>
      pulls_of_trace evs' (next + 1)
        (pulls ++ [{| pull_number := next; pull_title := title;
                      pull_head_ref := head |}])%list
  | EvPullEdit number _ :: evs' =>
      pulls_of_trace evs' next
        (filter (fun pr => negb (pull_number pr =? number)) pulls)
  | _ :: evs' => pulls_of_trace evs' next pulls
  end.

(** A tracker with one series of two pending patches that apply, and the
    forge with a memory. *)
Definition bluez_fix : Series :=
  series 1 (Some "[BlueZ] fix a typo") [patch 11 "pending" [1]; patch 12 "pending" [1]].

Definition stateful : Env :=
  {| tracker_patches := fun _ _ => response 200 (series_patches bluez_fix) None;
     tracker_series := fun _ _ => response 200 bluez_fix None;
     tracker_patch :=
       fun _ url => if (url =? PW_BASE_URL ++ "/patches/11")%string
                    then response 200 (patch 11 "pending" [1]) None
                    else response 200 (patch 12 "pending" [1]) None;
     tracker_mbox := fun _ url => response 200 ("From: " ++ url) None;
     tracker_post := fun _ _ _ _ => response 201 "{}" None;
     popen := fun _ _ _ => (0, "ok", "");
     path_exists := fun _ _ => false;
     re_search_ignorecase := PyStr.search_literal_ignorecase;
     forge_get_pulls := fun w _ => pulls_of_trace (trace w) 1 [];
     forge_get_pull :=
       fun w number =>
         List.find (fun pr => pull_number pr =? number)
           (pulls_of_trace (trace w) 1 []);
     forge_get_git_ref := fun _ _ => true;
     forge_accepts := fun _ _ => true;
     smtp := fun _ _ => SmtpSent |}.

Definition world (env : list (string * string)) : World :=
  {| environ := env; trace := [] |}.

Definition tokens : list (string * string) :=
  [("PATCHWORK_TOKEN", "s3cr3t"); ("EMAIL_TOKEN", "m41l"); ("GITHUB_TOKEN", "gh")].

End Fixture.

(** * More of the scripts *)

From Stdlib Require DecimalPos DecimalZ.

Local Open Scope py_scope.

(** ** Vocabulary of the further properties *)

(** [/series/<id>] and [/patches/<id>] of the tracker. *)
Definition series_url (id : Z) : string :=
  PW_BASE_URL ++ "/series/" ++ PyStr.str id.

Definition patch_url (id : Z) : string :=
  PW_BASE_URL ++ "/patches/" ++ PyStr.str id.

(** The title [create_pr] gives the pull request of [series]. *)
Definition created_title (series : Series) : string :=
  "[" ++ PR_TITLE_PREFIX ++ ":" ++ PyStr.str (series_id series) ++ "] "
  ++ str_of_name (series_name series).

(** The series ids that the patches of a list refer to, in order. *)
Definition referenced (patches : list Patch) : list Z :=
  flat_map (fun patch => match patch_series patch with
                         | None => []
                         | Some refs => refs
                         end) patches.

(** The tracker answers every request for a series. *)
Definition series_served (E : Env) : Prop :=
  forall w id, status_code (tracker_series E w (series_url id)) = 200.

(** An entry of the index holds what the tracker answered for its key. *)
Definition fetched_series (E : Env) (entry : Z * Series) : Prop :=
  exists w, snd entry = payload (tracker_series E w (series_url (fst entry))).

(** The requests for the series of an index, one for each key. *)
Definition series_gets (index : list (Z * Series)) : list Event :=
  map (fun entry => EvGet (series_url (fst entry))) index.

Definition is_get (ev : Event) : bool :=
  match ev with
  | EvGet _ => true
  | _ => false
  end.

(** The requests that read from the tracker in a trace. *)
Definition gets (evs : list Event) : list Event := filter is_get evs.

Definition push_cmd (id : Z) : list string :=
  ["git"; "push"; "origin"; PyStr.str id].

(** A command exits with 0, whatever happened before. *)
Definition succeeds (E : Env) (cmd : list string) (cwd : string) : Prop :=
  forall w, fst (fst (popen E w cmd cwd)) = 0.

(** A command exits with another status, whatever happened before. *)
Definition fails (E : Env) (cmd : list string) (cwd : string) : Prop :=
  forall w, fst (fst (popen E w cmd cwd)) <> 0.

(** The tracker answers the request for the full patch [id], and the forge
    accepts every change. *)
Definition patch_served (E : Env) (id : Z) : Prop :=
  forall w, status_code (tracker_patch E w (patch_url id)) = 200.

Definition forge_willing (E : Env) : Prop :=
  forall w ev, forge_accepts E w ev = true.

(** The steps of a series whose patches all apply, with checks uploaded. *)
Definition pass_steps (series_dir : string) (patches : list Patch) : list Step :=
  flat_map (fun p => [StepCmd (git_am_cmd series_dir p);
                      StepCheck (check_url (patch_id p)) 1]) patches.

(** [m], started in an environment [env], only causes events that satisfy
    [Q], whatever its outcome. *)
Definition keeps {A} (env : list (string * string)) (Q : Event -> Prop)
    (m : M A) : Prop :=
  forall w, environ w = env ->
            exists o new, runs m w o new /\ Forall Q new.

(** What the flags, the configuration and the environment permit:
    a check is posted only without [--dry-run] and [--no-update-check] and
    with the tracker token, and is a pass or a fail of [pre-ci_am]; a push,
    a change of the forge and a mail need the absence of [--dry-run]; a
    mail also needs mail to be enabled and the mail token. *)
Definition permitted (args : Args) (config : Config)
    (env : list (string * string)) (ev : Event) : Prop :=
  match ev with
  | EvPost _ _ content =>
      args_dry_run args = false /\ args_no_update_check args = false /\
      dict_mem String.eqb env "PATCHWORK_TOKEN" = true /\
      (check_state content = 1 \/ check_state content = 3) /\
      check_context content = "pre-ci_am"
  | EvCmd cmd _ => is_push (StepCmd cmd) = true -> args_dry_run args = false
  | EvCreatePull _ _ _ _ | EvPullEdit _ _ | EvRefDelete _ =>
      args_dry_run args = false
  | EvSendmail _ _ _ =>
      args_dry_run args = false /\
      email_enable (config_email config) = true /\
      dict_mem String.eqb env "EMAIL_TOKEN" = true
  | _ => True
  end.

(** Everything but an error report needs the forge token. *)
Definition allowed (args : Args) (config : Config)
    (env : list (string * string)) (ev : Event) : Prop :=
  match ev with
  | EvLog _ => True
  | _ => dict_mem String.eqb env "GITHUB_TOKEN" = true /\
         permitted args config env ev
  end.

(** The URL a chain of pages starts at; [onward] when the chain is empty. *)
Definition first_url (chain : list (string * list Patch)) (onward : string)
    : string :=
  match chain with
  | [] => onward
  | (url, _) :: _ => url
  end.

(** The tracker serves the pages of [chain], each linking to the next and
    the last one linking to [onward]. *)
Fixpoint links_to (E : Env) (chain : list (string * list Patch))
    (onward : string) : Prop :=
  match chain with
  | [] => True
  | (url, page) :: rest =>
      (forall w, tracker_patches E w url =
                 {| status_code := 200; payload := page;
                    links_next := Some (first_url rest onward) |}) /\
      links_to E rest onward
  end.

(** The requests for the pages of a chain. *)
Definition page_gets (chain : list (string * list Patch)) : list Event :=
  map (fun c => EvGet (fst c)) chain.

(** The two repository keys [main] accepts. *)
Definition valid_key (args : Args) : Prop :=
  args_key_str args = "kernel" \/ args_key_str args = "user".

(** The error texts of the fail checks posted in a trace. *)
Definition fail_reports (evs : list Event) : list string :=
  flat_map (fun ev => match ev with
                      | EvPost _ _ content =>
                          if check_state content =? 3
                          then [check_description content] else []
                      | _ => []
                      end) evs.

(** The bodies of the mails sent in a trace. *)
Definition mail_bodies (evs : list Event) : list string :=
  flat_map (fun ev => match ev with
                      | EvSendmail _ _ message => [mail_body message]
                      | _ => []
                      end) evs.

(** *** Saving a series (pw-to-pr.py, not called by [main]) *)

(** The loop of [save_series_patches] over [series['patches']]. *)
Fixpoint save_series_patches_loop (E : Env) (root_dir : string)
    (patches : list Patch) : M unit :=
  match patches with
  | [] => ret tt
  | patch :: rest =>
      resp <- requests_url (tracker_mbox E) (patch_mbox patch) ;;
      let patch_file_name := PyStr.str (patch_id patch) ++ ".patch" in
      let patch_file_path := os_path_join root_dir patch_file_name in
      emit (EvWriteFile patch_file_path (payload resp)) ;;;
      save_series_patches_loop E root_dir rest
  end.

(** [save_series_patches(id, series, root_dir)]; [patches] is
    [series['patches']], or [None] when the series has no such key. *)
Definition save_series_patches (E : Env) (id : Z) (patches : option (list Patch))
    (root_dir : string) : M string :=
  let series_path := os_path_join root_dir (PyStr.str id) in
  present <- observe (fun w => path_exists E w series_path) ;;
  (if negb present then emit (EvMakedirs series_path) else ret tt) ;;;
  match patches with
  | None =>
      print_error ("ERROR: No patches found in Series " ++ PyStr.str id) ;;;
      ret series_path
  | Some patches =>
      save_series_patches_loop E root_dir patches ;;;
      ret series_path
  end.

(** The files written in a trace. *)
Definition files_written (evs : list Event) : list string :=
  flat_map (fun ev => match ev with
                      | EvWriteFile path _ => [path]
                      | _ => []
                      end) evs.

(** What [os.path.join] puts between a directory and a relative name. *)
Definition separator (a : string) : string :=
  if (a =? "")%string then ""
  else if PyStr.endswith "/" a then "" else "/".

(** [path] lies below the directory [dir]. *)
Definition below (dir path : string) : bool :=
  PyStr.startswith (dir ++ "/") path.

(** ** update-check.py *)

Module UpdateCheck.

(** The parsed command line of update-check.py. *)
Record Args := {
  args_patch_id : Z;
  args_state : Z;
  args_target_url : string;
  args_context : string;
  args_description : string
}.

(** [try: body] with [except Exception as e: handler(e)]; [SystemExit] is
    not an [Exception] and passes through. *)
Definition try_except {A} (body : M A) (handler : Exn -> M A) : M A :=
  fun w => match body w with
           | (Raise (SystemExit code), w') => (Raise (SystemExit code), w')
           | (Raise e, w') => handler e w'
           | (o, w') => (o, w')
           end.

(** [main] after [parse_args]; [describe e] is the text of ['%s' % e]. *)
Definition main (E : Env) (describe : Exn -> string) (args : Args) : M unit :=
  try_except (pw_get_patch E (args_patch_id args) ;;; ret tt)
    (fun e =>
       print_error ("ERROR: Unable to get patch: " ++ describe e) ;;;
       raise (SystemExit 1)) ;;;
  if negb (args_state args =? 1) && negb (args_state args =? 2)
     && negb (args_state args =? 3) then
    print_error ("ERROR: Invalid State: " ++ PyStr.str (args_state args)) ;;;
    raise (SystemExit 1)
  else if 0 <=? PyStr.find " " (args_context args) then
    print_error "ERROR: Context No Space Allowed" ;;;
    raise (SystemExit 1)
  else
    pw_submit_check E (args_patch_id args) (args_state args)
      (args_context args) (args_description args)
      (Some (args_target_url args)) ;;;
    ret tt.

(** The command line passes the checks of [main] in the world [w]: the
    tracker knows the patch, the state is one of 1, 2 and 3, and the context
    has no space. *)
Definition valid (E : Env) (args : Args) (w : World) : bool :=
  (status_code (tracker_patch E w (patch_url (args_patch_id args))) =? 200)
  && ((args_state args =? 1) || (args_state args =? 2) || (args_state args =? 3))
  && (PyStr.find " " (args_context args) <? 0).

(** The check that the command line asks for. *)
Definition requested (args : Args) : CheckContent :=
  {| check_user := 104215;
     check_state := args_state args;
     check_target_url := args_target_url args;
     check_context := args_context args;
     check_description := args_description args |}.

End UpdateCheck.

(** The checks posted in a trace, each with its endpoint and headers. *)
Definition checks_posted (evs : list Event)
    : list (string * list (string * string) * CheckContent) :=
  flat_map (fun ev => match ev with
                      | EvPost url headers content => [(url, headers, content)]
                      | _ => []
                      end) evs.

(** ** Further fixtures *)

Module Scenario.

(** The pull request that [create_pr] opens for [series] from its branch. *)
Definition created_pull (number : Z) (series : Series) : PullRequest :=
  {| pull_number := number;
     pull_title := created_title series;
     pull_head_ref := PyStr.str (series_id series) |}.

Definition series_12 : Series :=
  Fixture.series 12 (Some "a short id") [Fixture.patch 31 "pending" [12]].

Definition series_123 : Series :=
  Fixture.series 123 (Some "a longer id") [Fixture.patch 32 "pending" [123]].

(** [Fixture.quiet], with commands that fail when [broken] says so. *)
Definition commands (broken : list string -> bool) : Env :=
  Fixture.build (fun _ => Fixture.response 200 [] None)
    (fun url => Fixture.response 200 (Fixture.patch 11 "pending" [1]) None)
    201
    (fun cmd => if broken cmd then (1, "", "fatal: it failed") else (0, "done", ""))
    (fun _ _ => false) [].

(** A tracker whose first page is fine and whose second page is refused. *)
Definition second_page_refused : Env :=
  Fixture.build
    (fun url => if (url =? patches_url ["1"; "2"])%string
                then Fixture.response 200 Fixture.page_1 (Some "https://tracker/page/2")
                else Fixture.response 503 [] None)
    (fun _ => Fixture.response 200 (Fixture.patch 0 "pending" []) None)
    201 (fun _ => (0, "", "")) (fun _ _ => false) [].

(** A tracker whose one page names itself as the next page. *)
Definition looping : Env :=
  Fixture.build
    (fun url => Fixture.response 200 Fixture.page_1 (Some (patches_url ["1"; "2"])))
    (fun _ => Fixture.response 200 (Fixture.patch 0 "pending" []) None)
    201 (fun _ => (0, "", "")) (fun _ _ => false) [].

(** A forge that has lost the branches of its pull requests. *)
Definition branches_gone (pulls : list PullRequest) : Env :=
  {| tracker_patches := tracker_patches Fixture.quiet;
     tracker_series := tracker_series Fixture.quiet;
     tracker_patch := tracker_patch Fixture.quiet;
     tracker_mbox := tracker_mbox Fixture.quiet;
     tracker_post := tracker_post Fixture.quiet;
     popen := popen Fixture.quiet;
     path_exists := path_exists Fixture.quiet;
     re_search_ignorecase := re_search_ignorecase Fixture.quiet;
     forge_get_pulls := fun _ _ => pulls;
     forge_get_pull :=
       fun _ number => List.find (fun pr => pull_number pr =? number) pulls;
     forge_get_git_ref := fun _ _ => false;
     forge_accepts := fun _ _ => true;
     smtp := smtp Fixture.quiet |}.

(** A tracker that does not know the patches of a series any more. *)
Definition patches_gone : Env :=
  Fixture.build (fun _ => Fixture.response 200 [] None)
    (fun _ => Fixture.response 404 (Fixture.patch 0 "" []) None)
    201 (fun _ => (0, "", "")) (fun _ _ => false) [].


(** [Fixture.quiet], with a mail server that cannot be reached. *)
Definition no_mail_server : Env :=
  {| tracker_patches := tracker_patches Fixture.quiet;
     tracker_series := tracker_series Fixture.quiet;
     tracker_patch := tracker_patch Fixture.quiet;
     tracker_mbox := tracker_mbox Fixture.quiet;
     tracker_post := tracker_post Fixture.quiet;
     popen := popen Fixture.quiet;
     path_exists := path_exists Fixture.quiet;
     re_search_ignorecase := re_search_ignorecase Fixture.quiet;
     forge_get_pulls := forge_get_pulls Fixture.quiet;
     forge_get_pull := forge_get_pull Fixture.quiet;
     forge_get_git_ref := forge_get_git_ref Fixture.quiet;
     forge_accepts := forge_accepts Fixture.quiet;
     smtp := fun _ _ => SmtpNoSession "[Errno 111] Connection refused" |}.

Definition is_cmd (expected cmd : list string) : bool :=
  if list_eq_dec string_dec cmd expected then true else false.

End Scenario.
(** * Properties *)

Unset Implicit Arguments.

(** ** Strings *)

Module PyStrFacts.
Import PyStr.

Lemma startswith_app (p r : string) : startswith p (p ++ r) = true.
Proof.
  induction p as [|a p IH]; simpl; [reflexivity|].
  now rewrite Ascii.eqb_refl, IH.
Qed.

Lemma startswith_inv (p s : string) :
  startswith p s = true -> exists r, s = p ++ r.
Proof.
  revert s; induction p as [|a p IH]; intros s H; simpl in *.
  - now exists s.
  - destruct s as [|b s]; [discriminate|].
    apply andb_true_iff in H as [Hab Hps].
    apply Ascii.eqb_eq in Hab; subst b.
    destruct (IH _ Hps) as [r ->]. now exists r.
Qed.

Lemma find_range (sub s : string) : find sub s = -1 \/ 0 <= find sub s.
Proof.
  induction s as [|c s IH]; simpl.
  - destruct (startswith sub ""); [right; lia | now left].
  - destruct (startswith sub (String c s)); [right; lia|].
    destruct (find sub s <? 0) eqn:Hneg; [now left|].
    apply Z.ltb_ge in Hneg. right; lia.
Qed.

(** [find] answers 0 only when the string starts with the pattern. *)
Lemma find_zero (sub s : string) : find sub s = 0 -> startswith sub s = true.
Proof.
  destruct s as [|c s]; simpl.
  - destruct (startswith sub ""); [reflexivity | discriminate].
  - destruct (startswith sub (String c s)); [reflexivity|].
    destruct (find_range sub s) as [Hm | Hp].
    + rewrite Hm; simpl; discriminate.
    + destruct (find sub s <? 0) eqn:Hneg; [discriminate|]. lia.
Qed.

Lemma drop_app (p r : string) : drop (String.length p) (p ++ r) = r.
Proof. induction p as [|a p IH]; simpl; [now destruct r | exact IH]. Qed.

Lemma span_digits_sound (s ds rest : string) :
  span_digits s = (ds, rest) -> s = ds ++ rest /\ all_digits ds = true.
Proof.
  revert ds rest; induction s as [|c s IH]; intros ds rest H;
    cbn [span_digits] in H.
  - inversion H; subst; now split.
  - destruct (is_digit c) eqn:Hc.
    + destruct (span_digits s) as [ds' rest'] eqn:Hs.
      inversion H; subst; clear H.
      destruct (IH _ _ eq_refl) as [-> Hall].
      split; [reflexivity|]. cbn [all_digits]. now rewrite Hc, Hall.
    + inversion H; subst; now split.
Qed.

Lemma span_digits_complete (ds rest : string) :
  all_digits ds = true ->
  match rest with EmptyString => True | String c _ => is_digit c = false end ->
  span_digits (ds ++ rest) = (ds, rest).
Proof.
  intros Hall Hrest; induction ds as [|c ds IH];
    cbn [span_digits append all_digits] in *.
  - destruct rest as [|c r]; [reflexivity|].
    cbn [span_digits]. now rewrite Hrest.
  - apply andb_true_iff in Hall as [Hc Hall].
    now rewrite Hc, (IH Hall).
Qed.

Lemma app_assoc (a b c : string) : (a ++ b) ++ c = a ++ (b ++ c).
Proof. induction a as [|x a IH]; simpl; [reflexivity | now rewrite IH]. Qed.

Lemma contains_startswith (sub s : string) :
  startswith sub s = true -> contains sub s = true.
Proof. intros H. destruct s; cbn [contains]; now rewrite H. Qed.

Lemma contains_app (sub pre post : string) :
  contains sub (pre ++ sub ++ post) = true.
Proof.
  induction pre as [|c pre IH]; cbn [append contains].
  - apply contains_startswith, startswith_app.
  - rewrite IH. apply orb_true_r.
Qed.

Lemma contains_inv (sub s : string) :
  contains sub s = true -> exists pre post, s = pre ++ sub ++ post.
Proof.
  induction s as [|c s IH]; simpl; intros H.
  - rewrite orb_false_r in H. apply startswith_inv in H as [r Hr].
    exists "", r. exact Hr.
  - apply orb_true_iff in H as [H | H].
    + apply startswith_inv in H as [r Hr]. exists "", r. exact Hr.
    + destruct (IH H) as (pre & post & ->). now exists (String c pre), post.
Qed.

Lemma lower_app (a b : string) : lower (a ++ b) = lower a ++ lower b.
Proof. induction a as [|x a IH]; simpl; [reflexivity | now rewrite IH]. Qed.

Lemma lower_split (s a b : string) :
  lower s = a ++ b -> exists s1 s2, s = s1 ++ s2 /\ lower s1 = a /\ lower s2 = b.
Proof.
  revert a; induction s as [|c s IH]; intros a H; simpl in H.
  - destruct a; [|discriminate]. simpl in H. exists "", "". now subst.
  - destruct a as [|x a]; simpl in H.
    + exists "", (String c s). now subst.
    + inversion H as [[Hx Hrest]].
      destruct (IH _ Hrest) as (s1 & s2 & -> & H1 & H2).
      exists (String c s1), s2. simpl. now rewrite H1, H2.
Qed.

End PyStrFacts.


Lemma search_literal_ignorecase_spec (tag text : string) :
  PyStr.search_literal_ignorecase tag text = true <->
  contains_ignorecase tag text.
Proof.
  unfold PyStr.search_literal_ignorecase, contains_ignorecase. split.
  - intros H. apply PyStrFacts.contains_inv in H as (a & b & H).
    apply PyStrFacts.lower_split in H as (pre & s2 & -> & _ & H2).
    apply PyStrFacts.lower_split in H2 as (occ & post & -> & Hocc & _).
    now exists pre, occ, post.
  - intros (pre & occ & post & -> & Hocc).
    rewrite !PyStrFacts.lower_app, Hocc. apply PyStrFacts.contains_app.
Qed.

(** ** The file list of a patch *)

(** An old-file line never has [dev/null] at index 0, so the test
    [if line.find('dev/null')] holds for every such line. *)
Lemma file_list_of_line_nil (line : string) : file_list_of_line line = [].
Proof.
  unfold file_list_of_line.
  destruct (PyStr.startswith "--- " line) eqn:Hold; [|reflexivity].
  destruct (PyStr.truthy (PyStr.find "dev/null" line)) eqn:Ht; [reflexivity|].
  unfold PyStr.truthy in Ht. apply negb_false_iff, Z.eqb_eq in Ht.
  apply PyStrFacts.find_zero in Ht.
  destruct line as [|c line]; [discriminate|].
  cbn [PyStr.startswith] in Hold, Ht.
  apply andb_true_iff in Hold as [Hc _]. apply andb_true_iff in Ht as [Hd _].
  apply Ascii.eqb_eq in Hc, Hd. congruence.
Qed.

(** [patch_get_file_list] returns the empty list on every patch. *)
Lemma patch_get_file_list_nil (patch : option string) :
  patch_get_file_list patch = [].
Proof.
  destruct patch as [text|]; [|reflexivity]. simpl.
  induction (PyStr.split_lines text) as [|l ls IH]; simpl; [reflexivity|].
  now rewrite file_list_of_line_nil, IH.
Qed.

(** C1. The documentation derives the path [foo/bar.c] from the old-file
    line [--- a/foo/bar.c]; the code derives no path from it, because
    [line.find('dev/null')] is [-1] there and [-1] is true in Python.  The
    documented rule, which skips a line only when its old path is
    [/dev/null], yields [foo/bar.c]. *)
Theorem patch_get_file_list_old_file_line :
  patch_get_file_list (Some "--- a/foo/bar.c") = [] /\
  PyStr.find "dev/null" "--- a/foo/bar.c" = -1 /\
  PyStr.truthy (-1) = true /\
  documented_file_list (Some "--- a/foo/bar.c") = ["foo/bar.c"].
Proof. repeat split; vm_compute; reflexivity. Qed.

(** On a diff whose old-file lines all name [/dev/null] the code and the
    documented rule agree: no path. *)
Example patch_get_file_list_new_files :
  let diff := "--- /dev/null" ++ String PyStr.newline "+++ b/new.c"
              ++ String PyStr.newline "--- /dev/null" in
  patch_get_file_list (Some diff) = [] /\ documented_file_list (Some diff) = [].
Proof. split; vm_compute; reflexivity. Qed.

(** ** Reasoning about runs *)

Lemma add_events_nil (w : World) : add_events [] w = w.
Proof. destruct w; unfold add_events; simpl. now rewrite app_nil_r. Qed.

Lemma add_events_app (a b : list Event) (w : World) :
  add_events b (add_events a w) = add_events (a ++ b)%list w.
Proof. unfold add_events; simpl. now rewrite app_assoc. Qed.

Lemma runs_ret {A} (a : A) (w : World) : runs (ret a) w (Ok a) [].
Proof. unfold runs, ret. now rewrite add_events_nil. Qed.

Lemma runs_raise {A} (e : Exn) (w : World) : runs (@raise A e) w (Raise e) [].
Proof. unfold runs, raise. now rewrite add_events_nil. Qed.

Lemma runs_emit (ev : Event) (w : World) : runs (emit ev) w (Ok tt) [ev].
Proof. reflexivity. Qed.

Lemma runs_observe {A} (q : World -> A) (w : World) :
  runs (observe q) w (Ok (q w)) [].
Proof. unfold runs, observe. now rewrite add_events_nil. Qed.

Lemma runs_bind {A B} (m : M A) (k : A -> M B) (w : World) (a : A)
    (o : Outcome B) (n1 n2 : list Event) :
  runs m w (Ok a) n1 ->
  runs (k a) (add_events n1 w) o n2 ->
  runs (bind m k) w o (n1 ++ n2)%list.
Proof.
  unfold runs, bind. intros -> ->. now rewrite add_events_app.
Qed.

Lemma runs_bind_raise {A B} (m : M A) (k : A -> M B) (w : World) (e : Exn)
    (n1 : list Event) :
  runs m w (Raise e) n1 -> runs (bind m k) w (Raise e) n1.
Proof. unfold runs, bind. now intros ->. Qed.

Lemma runs_bind_diverge {A B} (m : M A) (k : A -> M B) (w : World)
    (n1 : list Event) :
  runs m w Diverge n1 -> runs (bind m k) w Diverge n1.
Proof. unfold runs, bind. now intros ->. Qed.

(** The rules of [emits], one for each way to build a computation. *)

Lemma emits_ret {A} P (a : A) : emits P (ret a).
Proof. intros w. exists (Ok a), []. split; [apply runs_ret | constructor]. Qed.

Lemma emits_raise {A} P (e : Exn) : emits P (@raise A e).
Proof. intros w. exists (Raise e), []. split; [apply runs_raise | constructor]. Qed.

Lemma emits_diverge {A} P : emits P (@diverge A).
Proof.
  intros w. exists Diverge, []. split; [|constructor].
  unfold runs, diverge. now rewrite add_events_nil.
Qed.

Lemma emits_observe {A} P (q : World -> A) : emits P (observe q).
Proof. intros w. exists (Ok (q w)), []. split; [apply runs_observe | constructor]. Qed.

Lemma emits_emit (P : Event -> Prop) (ev : Event) : P ev -> emits P (emit ev).
Proof.
  intros H w. exists (Ok tt), [ev]. split; [apply runs_emit | now repeat constructor].
Qed.

Lemma emits_bind {A B} P (m : M A) (k : A -> M B) :
  emits P m -> (forall a, emits P (k a)) -> emits P (bind m k).
Proof.
  intros Hm Hk w. destruct (Hm w) as (o & n1 & Hrun & Hall).
  destruct o as [a | e |].
  - destruct (Hk a (add_events n1 w)) as (o' & n2 & Hrun' & Hall').
    exists o', (n1 ++ n2)%list. split; [eapply runs_bind; eassumption|].
    apply Forall_app; now split.
  - exists (Raise e), n1. split; [now apply runs_bind_raise | assumption].
  - exists Diverge, n1. split; [now apply runs_bind_diverge | assumption].
Qed.

Lemma emits_weaken {A} (P Q : Event -> Prop) (m : M A) :
  (forall ev, P ev -> Q ev) -> emits P m -> emits Q m.
Proof.
  intros HPQ Hm w. destruct (Hm w) as (o & new & Hrun & Hall).
  exists o, new. split; [assumption|]. eapply Forall_impl; eassumption.
Qed.

(** ** Posting a check *)

(** C8. Without [PATCHWORK_TOKEN] in the environment [pw_submit_check]
    sends nothing: it prints the error report and returns [None].  With the
    token, a reply whose status is not 201 makes the call raise the
    [HTTPError] of [requests_post], after the one POST. *)
Theorem pw_submit_check_token (E : Env) (patch_id state : Z)
    (context description : string) (target_url : option string) (w : World) :
  (dict_get String.eqb (environ w) "PATCHWORK_TOKEN" = None ->
   runs (pw_submit_check E patch_id state context description target_url) w
     (Ok None)
     [EvLog "ERROR: Unable to find PATCHWORK_TOKEN in environment"]) /\
  (forall token,
   dict_get String.eqb (environ w) "PATCHWORK_TOKEN" = Some token ->
   let headers := [("Authorization", "Token " ++ token)] in
   let content :=
     {| check_user := 104215;
        check_state := state;
        check_target_url :=
          match target_url with
          | None => ""
          | Some u => if (u =? "")%string then "" else u
          end;
        check_context := context;
        check_description := description |} in
   let status :=
     status_code (tracker_post E w (check_url patch_id) headers content) in
   status <> 201 ->
   runs (pw_submit_check E patch_id state context description target_url) w
     (Raise (HTTPError ("POST " ++ PyStr.str status)))
     [EvPost (check_url patch_id) headers content]).
Proof.
  split.
  - intros Habsent.
    unfold runs, pw_submit_check, bind, observe. rewrite Habsent. reflexivity.
  - intros token Htoken headers content status Hstatus.
    unfold runs, pw_submit_check, bind, observe. rewrite Htoken.
    unfold requests_post, bind. fold headers content status.
    apply Z.eqb_neq in Hstatus. rewrite Hstatus. reflexivity.
Qed.

Lemma pw_submit_check_token_witness :
  runs (pw_submit_check (Fixture.posting 403) 7 1 "pre-ci_am" "Success" None)
    (Fixture.world []) (Ok None)
    [EvLog "ERROR: Unable to find PATCHWORK_TOKEN in environment"] /\
  runs (pw_submit_check (Fixture.posting 403) 7 1 "pre-ci_am" "Success" None)
    (Fixture.world Fixture.tokens) (Raise (HTTPError "POST 403"))
    [EvPost (check_url 7) [("Authorization", "Token s3cr3t")]
       {| check_user := 104215; check_state := 1; check_target_url := "";
          check_context := "pre-ci_am"; check_description := "Success" |}].
Proof.
  split.
  - apply (proj1 (pw_submit_check_token (Fixture.posting 403) 7 1 "pre-ci_am"
                    "Success" None (Fixture.world []))).
    reflexivity.
  - apply (proj2 (pw_submit_check_token (Fixture.posting 403) 7 1 "pre-ci_am"
                    "Success" None (Fixture.world Fixture.tokens)) "s3cr3t").
    + reflexivity.
    + vm_compute. discriminate.
Defined.

(** ** Reading the patch list *)

Lemma requests_url_ok {A} (endpoint : World -> string -> Response A)
    (url : string) (w : World) :
  status_code (endpoint w url) = 200 ->
  runs (requests_url endpoint url) w (Ok (endpoint w url)) [EvGet url].
Proof.
  intros Hstatus. unfold runs, requests_url, requests_get, bind.
  rewrite Hstatus. reflexivity.
Qed.

Lemma requests_url_fail {A} (endpoint : World -> string -> Response A)
    (url : string) (w : World) :
  status_code (endpoint w url) <> 200 ->
  runs (requests_url endpoint url) w
    (Raise (HTTPError ("GET " ++ PyStr.str (status_code (endpoint w url)))))
    [EvGet url].
Proof.
  intros Hstatus. unfold runs, requests_url, requests_get, bind.
  apply Z.eqb_neq in Hstatus. rewrite Hstatus. reflexivity.
Qed.

(** The loop reads the pages of a chain in order and appends them. *)
Lemma pw_get_patches_by_state_loop_chain (E : Env)
    (chain : list (string * list Patch)) :
  serves E chain ->
  forall (fuel : nat) (url : string) (acc : list Patch) (w : World),
    (List.length chain <= fuel)%nat ->
    option_map fst (hd_error chain) = Some url ->
    runs (pw_get_patches_by_state_loop E fuel url acc) w
      (Ok (acc ++ all_pages chain)%list)
      (map (fun c => EvGet (fst c)) chain).
Proof.
  induction chain as [|[u page] rest IH]; intros Hserves fuel url acc w Hfuel Hhd.
  - contradiction.
  - simpl in Hhd. inversion Hhd; subst u.
    destruct fuel as [|fuel]; [simpl in Hfuel; lia|].
    cbn [pw_get_patches_by_state_loop].
    change (map (fun c => EvGet (fst c)) ((url, page) :: rest))
      with ([EvGet url] ++ map (fun c => EvGet (fst c)) rest)%list.
    unfold all_pages. cbn [map List.concat snd]. fold (all_pages rest).
    destruct rest as [|[next page'] rest'].
    + cbn [serves] in Hserves.
      eapply runs_bind.
      * apply requests_url_ok. now rewrite Hserves.
      * rewrite Hserves. cbn [payload links_next].
        unfold all_pages; cbn [map List.concat]. rewrite app_nil_r.
        apply runs_ret.
    + cbn [serves] in Hserves. destruct Hserves as [Hpage Hrest].
      eapply runs_bind.
      * apply requests_url_ok. now rewrite Hpage.
      * rewrite Hpage. cbn [payload links_next].
        rewrite app_assoc.
        apply IH; [exact Hrest | simpl in Hfuel |- *; lia | reflexivity].
Qed.

(** C7. When the tracker serves the patch list as a chain of pages linked
    by [next], [pw_get_patches_by_state] (with fuel for as many pages)
    requests exactly these pages in order and returns their patches, page
    after page: a patch is in the result exactly when it is on a page,
    and the result has no duplicate when no patch is served twice. *)
Theorem pw_get_patches_by_state_all_pages (E : Env) (states : list string)
    (chain : list (string * list Patch)) (fuel : nat) (w : World) :
  serves E chain ->
  option_map fst (hd_error chain) = Some (patches_url states) ->
  (List.length chain <= fuel)%nat ->
  exists result,
    runs (pw_get_patches_by_state E fuel states) w (Ok result)
      (map (fun c => EvGet (fst c)) chain) /\
    result = all_pages chain /\
    (forall p, In p result <-> exists url page, In (url, page) chain /\ In p page) /\
    (NoDup (all_pages chain) -> NoDup result).
Proof.
  intros Hserves Hhd Hfuel. exists (all_pages chain).
  split; [|split; [reflexivity | split; [|trivial]]].
  - unfold pw_get_patches_by_state.
    apply (pw_get_patches_by_state_loop_chain E chain Hserves fuel
             (patches_url states) [] w Hfuel Hhd).
  - intros p. unfold all_pages. rewrite in_concat. split.
    + intros (page & Hpage & Hp). apply in_map_iff in Hpage as ([url pg] & <- & Hin).
      now exists url, pg.
    + intros (url & page & Hin & Hp). exists page. split; [|assumption].
      apply in_map_iff. now exists (url, page).
Qed.

Lemma pw_get_patches_by_state_all_pages_witness :
  exists result,
    runs (pw_get_patches_by_state Fixture.paged 2 ["1"; "2"]) (Fixture.world [])
      (Ok result)
      [EvGet (patches_url ["1"; "2"]); EvGet "https://tracker/page/2"] /\
    result = (Fixture.page_1 ++ Fixture.page_2)%list /\
    (forall p, In p result <->
               exists url page,
                 In (url, page) [(patches_url ["1"; "2"], Fixture.page_1);
                                 ("https://tracker/page/2", Fixture.page_2)] /\
                 In p page) /\
    (NoDup (Fixture.page_1 ++ Fixture.page_2) -> NoDup result).
Proof.
  apply (pw_get_patches_by_state_all_pages Fixture.paged ["1"; "2"]
           [(patches_url ["1"; "2"], Fixture.page_1);
            ("https://tracker/page/2", Fixture.page_2)] 2 (Fixture.world [])).
  - split; intros w; reflexivity.
  - reflexivity.
  - simpl; lia.
Defined.

(** ** The already-checked test *)

Lemma pw_get_patch_ok (E : Env) (id : Z) (w : World) :
  status_code (tracker_patch E w (PW_BASE_URL ++ "/patches/" ++ PyStr.str id)) = 200 ->
  runs (pw_get_patch E id) w
    (Ok (payload (tracker_patch E w (PW_BASE_URL ++ "/patches/" ++ PyStr.str id))))
    [EvGet (PW_BASE_URL ++ "/patches/" ++ PyStr.str id)].
Proof.
  intros Hstatus. unfold pw_get_patch.
  rewrite <- (app_nil_r [EvGet _]).
  eapply runs_bind; [now apply requests_url_ok | apply runs_ret].
Qed.

(** C9. [series_checked] asks the tracker for the first patch of the series
    and for nothing else.  When that patch is [pending] the series is not
    checked and [main] goes on with it; when it is not, the series is
    checked and, without [--ignore-check], the turn ends there.  The other
    patches of the series and their check states play no part. *)
Theorem series_checked_first_patch (E : Env) (args : Args) (config : Config)
    (github_pulls : list PullRequest) (temp_root_dir : string) (id : Z)
    (series : Series) (first : Patch) (later : list Patch) (w : World) :
  series_patches series = first :: later ->
  status_code (tracker_patch E w
     (PW_BASE_URL ++ "/patches/" ++ PyStr.str (patch_id first))) = 200 ->
  let url := PW_BASE_URL ++ "/patches/" ++ PyStr.str (patch_id first) in
  let state := patch_check (payload (tracker_patch E w url)) in
  (state = "pending" ->
     runs (series_checked E series) w (Ok false) [EvGet url] /\
     (args_ignore_check args = false ->
      main_series E args config github_pulls temp_root_dir id series w =
      main_series_unchecked E args config github_pulls temp_root_dir id series
        (add_events [EvGet url] w))) /\
  (state <> "pending" ->
     runs (series_checked E series) w (Ok true) [EvGet url] /\
     (args_ignore_check args = false ->
      runs (main_series E args config github_pulls temp_root_dir id series) w
        (Ok tt) [EvGet url])).
Proof.
  intros Hpatches Hstatus url state.
  assert (Hget := pw_get_patch_ok E (patch_id first) w Hstatus).
  fold url in Hget. fold state in Hget.
  split; intros Hstate.
  - assert (Hchecked : runs (series_checked E series) w (Ok false) [EvGet url]).
    { unfold series_checked. rewrite Hpatches.
      rewrite <- (app_nil_r [EvGet url]).
      eapply runs_bind; [exact Hget|].
      cbn beta. fold state. rewrite Hstate. apply runs_ret. }
    split; [exact Hchecked|].
    intros Hflag. unfold main_series. rewrite Hflag. cbn [negb].
    unfold bind at 1. rewrite Hchecked. reflexivity.
  - assert (Hchecked : runs (series_checked E series) w (Ok true) [EvGet url]).
    { unfold series_checked. rewrite Hpatches.
      rewrite <- (app_nil_r [EvGet url]).
      eapply runs_bind; [exact Hget|].
      cbn beta. fold state.
      apply String.eqb_neq in Hstate. rewrite Hstate. apply runs_ret. }
    split; [exact Hchecked|].
    intros Hflag. unfold main_series. rewrite Hflag. cbn [negb].
    rewrite <- (app_nil_r [EvGet url]).
    eapply runs_bind; [exact Hchecked | apply runs_ret].
Qed.

Lemma series_checked_first_patch_witness :
  (runs (series_checked (Fixture.checks "pending" "success") Fixture.two_patches)
     (Fixture.world []) (Ok false) [EvGet (PW_BASE_URL ++ "/patches/11")] /\
   main_series (Fixture.checks "pending" "success") (Fixture.args false)
     Fixture.config [] "/tmp/root" 1 Fixture.two_patches (Fixture.world []) =
   main_series_unchecked (Fixture.checks "pending" "success") (Fixture.args false)
     Fixture.config [] "/tmp/root" 1 Fixture.two_patches
     (add_events [EvGet (PW_BASE_URL ++ "/patches/11")] (Fixture.world []))) /\
  (runs (series_checked (Fixture.checks "success" "pending") Fixture.two_patches)
     (Fixture.world []) (Ok true) [EvGet (PW_BASE_URL ++ "/patches/11")] /\
   runs (main_series (Fixture.checks "success" "pending") (Fixture.args false)
           Fixture.config [] "/tmp/root" 1 Fixture.two_patches)
     (Fixture.world []) (Ok tt) [EvGet (PW_BASE_URL ++ "/patches/11")]).
Proof.
  split.
  - destruct (series_checked_first_patch (Fixture.checks "pending" "success")
                (Fixture.args false) Fixture.config [] "/tmp/root" 1
                Fixture.two_patches (Fixture.patch 11 "" [1])
                [Fixture.patch 12 "" [1]] (Fixture.world [])
                eq_refl eq_refl) as [Hpending _].
    destruct (Hpending eq_refl) as [Hchecked Hgoes].
    split; [exact Hchecked | exact (Hgoes eq_refl)].
  - destruct (series_checked_first_patch (Fixture.checks "success" "pending")
                (Fixture.args false) Fixture.config [] "/tmp/root" 1
                Fixture.two_patches (Fixture.patch 11 "" [1])
                [Fixture.patch 12 "" [1]] (Fixture.world [])
                eq_refl eq_refl) as [_ Hdone].
    assert (Hstate : patch_check (payload (tracker_patch
              (Fixture.checks "success" "pending") (Fixture.world [])
              (PW_BASE_URL ++ "/patches/" ++
               PyStr.str (patch_id (Fixture.patch 11 "" [1]))))) <> "pending")
      by (vm_compute; discriminate).
    destruct (Hdone Hstate) as [Hchecked Hskip].
    split; [exact Hchecked | exact (Hskip eq_refl)].
Defined.

(** ** The relevance filter *)

Lemma search_patterns_run (E : Env) (patterns : list string) (name : string)
    (w : World) :
  runs (search_patterns E patterns (Some name)) w
    (Ok (matches_any E patterns name)) [].
Proof.
  induction patterns as [|pattern rest IH]; cbn [search_patterns matches_any existsb].
  - apply runs_ret.
  - destruct (re_search_ignorecase E pattern name); [apply runs_ret | exact IH].
Qed.

(** C6. In [filter_repo_type] an exclude pattern that matches the series
    name gives [False] whatever the include patterns say; otherwise an
    include pattern that matches gives [True]; otherwise the answer is the
    one of the file check, which is [False] (with an error report) when the
    file list of the series is empty. *)
Theorem filter_repo_type_precedence (E : Env) (repo_detail : RepoDetail)
    (series : Series) (src_dir name : string) (w : World) :
  series_name series = Some name ->
  (matches_any E (repo_exclude repo_detail) name = true ->
   runs (filter_repo_type E repo_detail series src_dir) w (Ok false) []) /\
  (matches_any E (repo_exclude repo_detail) name = false ->
   matches_any E (repo_include repo_detail) name = true ->
   runs (filter_repo_type E repo_detail series src_dir) w (Ok true) []) /\
  (matches_any E (repo_exclude repo_detail) name = false ->
   matches_any E (repo_include repo_detail) name = false ->
   filter_repo_type E repo_detail series src_dir w =
   filter_by_files E series src_dir w /\
   forall new,
     runs (series_get_file_list E series) w (Ok []) new ->
     runs (filter_repo_type E repo_detail series src_dir) w (Ok false)
       (new ++ [EvLog "ERROR: No files found in the series/patch"])%list).
Proof.
  intros Hname.
  assert (Hex := search_patterns_run E (repo_exclude repo_detail) name w).
  assert (Hin := search_patterns_run E (repo_include repo_detail) name w).
  split; [|split].
  - intros Hexcluded. unfold filter_repo_type. rewrite Hname.
    change (@nil Event) with (@nil Event ++ [])%list.
    eapply runs_bind; [exact Hex|]. rewrite Hexcluded. apply runs_ret.
  - intros Hexcluded Hincluded. unfold filter_repo_type. rewrite Hname.
    change (@nil Event) with (@nil Event ++ ([] ++ []))%list.
    eapply runs_bind; [exact Hex|]. rewrite Hexcluded.
    eapply runs_bind; [rewrite add_events_nil; exact Hin|].
    rewrite Hincluded. apply runs_ret.
  - intros Hexcluded Hincluded.
    assert (Hfall : filter_repo_type E repo_detail series src_dir w =
                    filter_by_files E series src_dir w).
    { unfold filter_repo_type. rewrite Hname.
      unfold bind at 1. rewrite Hex, Hexcluded, add_events_nil.
      unfold bind at 1. rewrite Hin, Hincluded, add_events_nil. reflexivity. }
    split; [exact Hfall|].
    intros new Hlist. unfold runs. rewrite Hfall.
    change (runs (filter_by_files E series src_dir) w (Ok false)
              (new ++ [EvLog "ERROR: No files found in the series/patch"])%list).
    unfold filter_by_files.
    eapply runs_bind; [exact Hlist|]. cbn [List.length Nat.eqb].
    rewrite <- (app_nil_r [EvLog _]).
    eapply runs_bind; [apply runs_emit | apply runs_ret].
Qed.

Lemma filter_repo_type_precedence_witness :
  runs (filter_repo_type Fixture.literal Fixture.user_profile
          (Fixture.series 1 (Some "[BlueZ] fix the Kernel socket") [])
          "/src") (Fixture.world []) (Ok false) [] /\
  runs (filter_repo_type Fixture.literal Fixture.user_profile
          (Fixture.series 1 (Some "[BlueZ] fix a typo") []) "/src")
    (Fixture.world []) (Ok true) [] /\
  runs (filter_repo_type Fixture.literal Fixture.user_profile
          (Fixture.series 1 (Some "fix a typo") [Fixture.patch 11 "" [1]])
          "/src") (Fixture.world []) (Ok false)
    [EvGet (PW_BASE_URL ++ "/patches/11");
     EvLog "ERROR: No files found in the series/patch"].
Proof.
  split; [|split].
  - apply (proj1 (filter_repo_type_precedence Fixture.literal Fixture.user_profile
             (Fixture.series 1 (Some "[BlueZ] fix the Kernel socket") [])
             "/src" "[BlueZ] fix the Kernel socket" (Fixture.world []) eq_refl)).
    reflexivity.
  - apply (proj1 (proj2 (filter_repo_type_precedence Fixture.literal
             Fixture.user_profile (Fixture.series 1 (Some "[BlueZ] fix a typo") [])
             "/src" "[BlueZ] fix a typo" (Fixture.world []) eq_refl)));
      reflexivity.
  - apply (proj2 (proj2 (proj2 (filter_repo_type_precedence Fixture.literal
             Fixture.user_profile
             (Fixture.series 1 (Some "fix a typo") [Fixture.patch 11 "" [1]])
             "/src" "fix a typo" (Fixture.world []) eq_refl)) eq_refl eq_refl)
             [EvGet (PW_BASE_URL ++ "/patches/11")]).
    reflexivity.
Defined.

(** ** The guard against a second pull request *)

Lemma github_pr_exist_spec (github_pulls : list PullRequest) (id : Z) :
  github_pr_exist github_pulls id = true <-> tagged_pull_exists github_pulls id.
Proof.
  unfold tagged_pull_exists.
  induction github_pulls as [|pull rest IH]; cbn [github_pr_exist].
  - split; [discriminate | intros (pull & [] & _)].
  - destruct (PyStr.search_literal_ignorecase ("PW_SID:" ++ PyStr.str id)
                (pull_title pull)) eqn:Hsearch.
    + split; [intros _ | reflexivity].
      exists pull. split; [now left|].
      now apply search_literal_ignorecase_spec.
    + rewrite IH. split.
      * intros (p & Hin & Htag). exists p. split; [now right | assumption].
      * intros (p & [<- | Hin] & Htag).
        -- apply search_literal_ignorecase_spec in Htag. congruence.
        -- now exists p.
Qed.

Lemma emits_requests_url {A} (endpoint : World -> string -> Response A)
    (url : string) :
  emits is_read_or_log (requests_url endpoint url).
Proof.
  unfold requests_url. apply emits_bind.
  - intros w. exists (Ok (endpoint w url)), [EvGet url].
    split; [reflexivity | now repeat constructor].
  - intros resp. destruct (negb (status_code resp =? 200));
      [apply emits_raise | apply emits_ret].
Qed.

Lemma emits_pw_get_patch (E : Env) (id : Z) :
  emits is_read_or_log (pw_get_patch E id).
Proof.
  unfold pw_get_patch. apply emits_bind; [apply emits_requests_url|].
  intros resp. apply emits_ret.
Qed.

Lemma emits_print_error (line : string) : emits is_read_or_log (print_error line).
Proof. apply emits_emit. exact I. Qed.

Lemma emits_series_checked (E : Env) (series : Series) :
  emits is_read_or_log (series_checked E series).
Proof.
  unfold series_checked. destruct (series_patches series) as [|first later].
  - apply emits_raise.
  - apply emits_bind; [apply emits_pw_get_patch|].
    intros patch_1. destruct (patch_check patch_1 =? "pending")%string;
      apply emits_ret.
Qed.

Lemma emits_search_patterns (E : Env) (patterns : list string)
    (name : option string) :
  emits is_read_or_log (search_patterns E patterns name).
Proof.
  induction patterns as [|pattern rest IH]; cbn [search_patterns].
  - apply emits_ret.
  - destruct name as [n|]; [|apply emits_raise].
    destruct (re_search_ignorecase E pattern n); [apply emits_ret | exact IH].
Qed.

Lemma emits_series_get_file_list_loop (E : Env) (patches : list Patch) :
  forall file_list,
    emits is_read_or_log (series_get_file_list_loop E patches file_list).
Proof.
  induction patches as [|patch rest IH]; intros file_list;
    cbn [series_get_file_list_loop].
  - apply emits_ret.
  - apply emits_bind; [apply emits_pw_get_patch|]. intros full_patch. apply IH.
Qed.

Lemma emits_files_exist (E : Env) (src_dir : string) (file_list : list string) :
  emits is_read_or_log (files_exist E src_dir file_list).
Proof.
  induction file_list as [|filename rest IH]; cbn [files_exist].
  - apply emits_ret.
  - apply emits_bind; [apply emits_observe|].
    intros present. destruct (negb present); [apply emits_ret | exact IH].
Qed.

Lemma emits_filter_repo_type (E : Env) (repo_detail : RepoDetail)
    (series : Series) (src_dir : string) :
  emits is_read_or_log (filter_repo_type E repo_detail series src_dir).
Proof.
  unfold filter_repo_type.
  apply emits_bind; [apply emits_search_patterns|].
  intros excluded. destruct excluded; [apply emits_ret|].
  apply emits_bind; [apply emits_search_patterns|].
  intros included. destruct included; [apply emits_ret|].
  unfold filter_by_files.
  apply emits_bind; [apply emits_series_get_file_list_loop|].
  intros file_list. destruct (List.length file_list =? 0)%nat.
  - apply emits_bind; [apply emits_print_error | intros _; apply emits_ret].
  - apply emits_files_exist.
Qed.

(** A turn of the series loop for a series that has its pull request only
    reads from the tracker. *)
Lemma emits_main_series_existing (E : Env) (args : Args) (config : Config)
    (github_pulls : list PullRequest) (temp_root_dir : string) (id : Z)
    (series : Series) :
  github_pr_exist github_pulls id = true ->
  emits is_read_or_log
    (main_series E args config github_pulls temp_root_dir id series).
Proof.
  intros Hexist. unfold main_series.
  apply emits_bind.
  { destruct (negb (args_ignore_check args));
      [apply emits_series_checked | apply emits_ret]. }
  intros checked. destruct checked; [apply emits_ret|].
  unfold main_series_unchecked.
  apply emits_bind.
  { destruct (series_name series); [apply emits_ret|].
    destruct (series_patches series); [apply emits_raise | apply emits_ret]. }
  intros series'.
  destruct (dict_get String.eqb (config_repo_details config) (args_key_str args))
    as [repo_detail|]; [|apply emits_raise].
  apply emits_bind; [apply emits_filter_repo_type|].
  intros relevant. destruct (negb relevant); [apply emits_ret|].
  rewrite Hexist. apply emits_ret.
Qed.

Lemma pulls_created_reads (new : list Event) :
  Forall is_read_or_log new -> pulls_created new = [].
Proof.
  induction 1 as [|ev new Hev _ IH]; [reflexivity|].
  unfold pulls_created in *. cbn [filter].
  destruct ev; try contradiction; exact IH.
Qed.

(** A whole series loop in which every series has its pull request only
    reads from the tracker: it creates no pull request. *)
Lemma main_series_loop_existing (E : Env) (args : Args) (config : Config)
    (github_pulls : list PullRequest) (temp_root_dir : string)
    (new_series : list (Z * Series)) :
  (forall id series, In (id, series) new_series ->
                     tagged_pull_exists github_pulls id) ->
  emits is_read_or_log
    (main_series_loop E args config github_pulls temp_root_dir new_series).
Proof.
  induction new_series as [|[id series] rest IH]; intros Hall;
    cbn [main_series_loop].
  - apply emits_ret.
  - apply emits_bind.
    + apply emits_main_series_existing, github_pr_exist_spec.
      apply (Hall id series). now left.
    + intros _. apply IH. intros id' series' Hin. apply (Hall id' series').
      now right.
Qed.

(** The title that [create_pr] gives a pull request carries the tag the
    guard looks for, so the guard finds the pull requests the script
    created itself. *)
Lemma emits_create_pr (E : Env) (series : Series) (base head : string) :
  emits (creates_tagged series head) (create_pr E series base head).
Proof.
  unfold create_pr. destruct (series_patches series) as [|first later].
  - apply emits_raise.
  - apply emits_bind.
    + eapply emits_weaken; [|apply emits_pw_get_patch].
      intros [] Hev; try contradiction; exact I.
    + intros patch_1. unfold github_create_pr. intros w.
      set (ev := EvCreatePull
                   ("[" ++ PR_TITLE_PREFIX ++ ":" ++ PyStr.str (series_id series)
                    ++ "] " ++ str_of_name (series_name series))
                   (patch_content patch_1) base head).
      destruct (forge_accepts E w ev) eqn:Hacc.
      * exists (Ok tt), [ev]. split.
        -- unfold runs, forge_call. now rewrite Hacc.
        -- repeat constructor.
      * exists (Raise GithubException), []. split; [|constructor].
        unfold runs, forge_call. now rewrite Hacc, add_events_nil.
Qed.

Lemma created_title_tagged (series : Series) :
  contains_ignorecase ("PW_SID:" ++ PyStr.str (series_id series))
    ("[PW_SID:" ++ PyStr.str (series_id series) ++ "] "
     ++ str_of_name (series_name series)).
Proof.
  exists "[", ("PW_SID:" ++ PyStr.str (series_id series)),
         ("] " ++ str_of_name (series_name series)).
  split; reflexivity.
Qed.

(** C4. When an open pull request carries the tag [PW_SID:<id>] in its
    title (in any case), the turn of the series loop for series [id] ends
    without creating a pull request: all it does is read from the tracker
    and print error reports, whatever the tracker answers. *)
Theorem main_series_skips_existing_pull (E : Env) (args : Args) (config : Config)
    (github_pulls : list PullRequest) (temp_root_dir : string) (id : Z)
    (series : Series) (w : World) :
  tagged_pull_exists github_pulls id ->
  exists o new,
    runs (main_series E args config github_pulls temp_root_dir id series) w o new /\
    pulls_created new = [] /\
    Forall is_read_or_log new.
Proof.
  intros Htagged. apply github_pr_exist_spec in Htagged.
  destruct (emits_main_series_existing E args config github_pulls temp_root_dir
              id series Htagged w) as (o & new & Hrun & Hreads).
  exists o, new. split; [exact Hrun|].
  split; [now apply pulls_created_reads | exact Hreads].
Qed.

Lemma main_series_skips_existing_pull_witness :
  exists o new,
    runs (main_series Fixture.literal (Fixture.args false) Fixture.config
            [Fixture.open_pull 5 "[pw_sid:42] [BlueZ] an older title"]
            "/tmp/root" 42
            (Fixture.series 42 (Some "[BlueZ] fix a typo")
               [Fixture.patch 11 "" [42]]))
      (Fixture.world Fixture.tokens) o new /\
    pulls_created new = [] /\
    Forall is_read_or_log new.
Proof.
  apply (main_series_skips_existing_pull Fixture.literal (Fixture.args false)
           Fixture.config
           [Fixture.open_pull 5 "[pw_sid:42] [BlueZ] an older title"]
           "/tmp/root" 42).
  exists (Fixture.open_pull 5 "[pw_sid:42] [BlueZ] an older title").
  split; [now left|].
  exists "[", "pw_sid:42", "] [BlueZ] an older title". split; reflexivity.
Defined.

(** The run of the fixture: the series passes the already-checked test
    and the relevance filter, and stops at the guard. *)
Example main_series_existing_pull_trace :
  runs (main_series Fixture.literal (Fixture.args false) Fixture.config
          [Fixture.open_pull 5 "[pw_sid:42] [BlueZ] an older title"]
          "/tmp/root" 42
          (Fixture.series 42 (Some "[BlueZ] fix a typo")
             [Fixture.patch 11 "" [42]]))
    (Fixture.world Fixture.tokens) (Ok tt)
    [EvGet (PW_BASE_URL ++ "/patches/11")].
Proof. vm_compute. reflexivity. Qed.

(** ** The series tag of a title *)

Lemma search_pw_sid_tagged (title digits : string) :
  series_tag title digits -> search_pw_sid title = Some digits.
Proof.
  intros (Hne & Hdigits & rest & ->). unfold search_pw_sid.
  rewrite PyStrFacts.startswith_app.
  change 8%nat with (String.length "[PW_SID:").
  rewrite PyStrFacts.drop_app.
  rewrite PyStrFacts.span_digits_complete; [|assumption | reflexivity].
  destruct digits as [|c ds]; [congruence|].
  now rewrite PyStrFacts.startswith_app.
Qed.

Lemma search_pw_sid_sound (title digits : string) :
  search_pw_sid title = Some digits -> series_tag title digits.
Proof.
  unfold search_pw_sid. intros H.
  destruct (PyStr.startswith "[PW_SID:" title) eqn:Hstart; [|discriminate].
  apply PyStrFacts.startswith_inv in Hstart as [r ->].
  change 8%nat with (String.length "[PW_SID:") in H.
  rewrite PyStrFacts.drop_app in H.
  destruct (PyStr.span_digits r) as [ds rest] eqn:Hspan.
  apply PyStrFacts.span_digits_sound in Hspan as [-> Hall].
  destruct ds as [|c ds]; [discriminate|].
  destruct (PyStr.startswith "]" rest) eqn:Hclose; [|discriminate].
  apply PyStrFacts.startswith_inv in Hclose as [rest' ->].
  inversion H; subst digits. repeat split; [discriminate | assumption|].
  now exists rest'.
Qed.

Lemma search_pw_sid_untagged (title : string) :
  ~ has_series_tag title -> search_pw_sid title = None.
Proof.
  intros Hno. destruct (search_pw_sid title) as [digits|] eqn:H; [|reflexivity].
  exfalso. apply Hno. exists digits. now apply search_pw_sid_sound.
Qed.

Lemma get_pw_sid_tagged (title digits : string) (w : World) :
  series_tag title digits ->
  runs (get_pw_sid title) w (Ok (PyStr.int_of_digits digits)) [].
Proof.
  intros Htag. unfold get_pw_sid. rewrite (search_pw_sid_tagged _ _ Htag).
  apply runs_ret.
Qed.

Lemma get_pw_sid_untagged (title : string) (w : World) :
  ~ has_series_tag title ->
  runs (get_pw_sid title) w (Ok 0)
    [EvLog ("ERROR: Unable to find the series_id from title " ++ title)].
Proof.
  intros Hno. unfold get_pw_sid. rewrite (search_pw_sid_untagged _ Hno).
  rewrite <- (app_nil_r [EvLog _]).
  eapply runs_bind; [apply runs_emit | apply runs_ret].
Qed.

(** ** Closing pull requests *)

Lemma forge_call_ok (E : Env) (ev : Event) (w : World) :
  forge_accepts E w ev = true -> runs (forge_call E ev) w (Ok tt) [ev].
Proof. intros H. unfold runs, forge_call. now rewrite H. Qed.

Lemma github_close_pr_run (E : Env) (pr : PullRequest) (w : World) :
  forge_get_pull E w (pull_number pr) = Some pr ->
  (forall w ref, forge_get_git_ref E w ref = true) ->
  (forall w ev, forge_accepts E w ev = true) ->
  runs (github_close_pr E (pull_number pr)) w (Ok tt) (close_events pr).
Proof.
  intros Hpull Href Hacc. unfold github_close_pr, close_events.
  change [EvPullEdit (pull_number pr) "closed";
          EvRefDelete ("heads/" ++ pull_head_ref pr)]
    with ([] ++ [EvPullEdit (pull_number pr) "closed"] ++ [] ++
          [EvRefDelete ("heads/" ++ pull_head_ref pr)])%list.
  eapply runs_bind; [apply runs_observe|]. cbn beta. rewrite Hpull.
  eapply runs_bind; [apply forge_call_ok, Hacc|].
  eapply runs_bind; [apply runs_observe|]. cbn beta. rewrite Href.
  apply forge_call_ok, Hacc.
Qed.

Lemma main_cleanup_pr_run (E : Env) (args : Args) (new_series : list (Z * Series))
    (github_pulls : list PullRequest) (pr : PullRequest) (w : World) :
  forge_serves E github_pulls ->
  In pr github_pulls ->
  args_dry_run args = false ->
  runs (main_cleanup_pr E args new_series pr) w (Ok tt)
    (cleanup_events new_series pr).
Proof.
  intros (Hpull & Href & Hacc) Hin Hdry.
  assert (Hclose := fun w => github_close_pr_run E pr w (Hpull w pr Hin) Href Hacc).
  unfold main_cleanup_pr, cleanup_events, get_pw_sid.
  destruct (search_pw_sid (pull_title pr)) as [digits|].
  - change (if dict_mem Z.eqb new_series (PyStr.int_of_digits digits)
            then [] else close_events pr)
      with ([] ++ (if dict_mem Z.eqb new_series (PyStr.int_of_digits digits)
                   then [] else close_events pr))%list.
    eapply runs_bind; [apply runs_ret|].
    destruct (dict_mem Z.eqb new_series (PyStr.int_of_digits digits));
      [apply runs_ret|].
    rewrite Hdry. apply Hclose.
  - change (EvLog ("ERROR: Unable to find the series_id from title " ++ pull_title pr)
            :: (if dict_mem Z.eqb new_series 0 then [] else close_events pr))
      with (([EvLog ("ERROR: Unable to find the series_id from title "
                     ++ pull_title pr)] ++ []) ++
            (if dict_mem Z.eqb new_series 0 then [] else close_events pr))%list.
    eapply runs_bind.
    + eapply runs_bind; [apply runs_emit | apply runs_ret].
    + destruct (dict_mem Z.eqb new_series 0); [apply runs_ret|].
      rewrite Hdry. apply Hclose.
Qed.

Lemma main_cleanup_run (E : Env) (args : Args) (new_series : list (Z * Series))
    (github_pulls : list PullRequest) :
  forge_serves E github_pulls ->
  args_dry_run args = false ->
  forall (prs : list PullRequest) (w : World),
    incl prs github_pulls ->
    runs (main_cleanup E args new_series prs) w (Ok tt)
      (flat_map (cleanup_events new_series) prs).
Proof.
  intros Hforge Hdry. induction prs as [|pr rest IH]; intros w Hincl;
    cbn [main_cleanup flat_map].
  - apply runs_ret.
  - eapply runs_bind.
    + apply (main_cleanup_pr_run E args new_series github_pulls pr w Hforge);
        [apply Hincl; now left | exact Hdry].
    + apply IH. intros x Hx. apply Hincl. now right.
Qed.

Lemma NoDup_map_inj {A B} (f : A -> B) (l : list A) (a b : A) :
  NoDup (map f l) -> In a l -> In b l -> f a = f b -> a = b.
Proof.
  induction l as [|x l IH]; intros Hnd Ha Hb Heq; [contradiction|].
  cbn [map] in Hnd. inversion Hnd as [|? ? Hnotin Hnd']; subst.
  destruct Ha as [-> | Ha], Hb as [-> | Hb].
  - reflexivity.
  - exfalso. apply Hnotin. rewrite Heq. now apply in_map.
  - exfalso. apply Hnotin. rewrite <- Heq. now apply in_map.
  - now apply IH.
Qed.

Lemma string_app_inv_head (p a b : string) : p ++ a = p ++ b -> a = b.
Proof.
  induction p as [|c p IH]; cbn [append]; intros H; [exact H|].
  inversion H. now apply IH.
Qed.

(** The changes of a clean-up turn are the two of closing its own pull
    request. *)
Lemma cleanup_events_edit (new_series : list (Z * Series)) (pr : PullRequest)
    (number : Z) (state : string) :
  In (EvPullEdit number state) (cleanup_events new_series pr) ->
  number = pull_number pr /\ cleanup_events new_series pr <> [] /\
  In (EvPullEdit number state) (close_events pr).
Proof.
  unfold cleanup_events.
  destruct (search_pw_sid (pull_title pr)) as [digits|].
  - destruct (dict_mem Z.eqb new_series (PyStr.int_of_digits digits));
      [contradiction|].
    intros Hin. split; [|split; [discriminate | exact Hin]].
    destruct Hin as [H | [H | []]]; now inversion H.
  - intros [H | Hin]; [discriminate|].
    destruct (dict_mem Z.eqb new_series 0); [contradiction|].
    split; [|split; [discriminate | exact Hin]].
    destruct Hin as [H | [H | []]]; now inversion H.
Qed.

Lemma cleanup_events_delete (new_series : list (Z * Series)) (pr : PullRequest)
    (ref : string) :
  In (EvRefDelete ref) (cleanup_events new_series pr) ->
  ref = "heads/" ++ pull_head_ref pr /\ In (EvRefDelete ref) (close_events pr).
Proof.
  unfold cleanup_events.
  destruct (search_pw_sid (pull_title pr)) as [digits|].
  - destruct (dict_mem Z.eqb new_series (PyStr.int_of_digits digits));
      [contradiction|].
    intros Hin. split; [|exact Hin].
    destruct Hin as [H | [H | []]]; now inversion H.
  - intros [H | Hin]; [discriminate|].
    destruct (dict_mem Z.eqb new_series 0); [contradiction|].
    split; [|exact Hin].
    destruct Hin as [H | [H | []]]; now inversion H.
Qed.

Lemma cleanup_events_tagged (new_series : list (Z * Series)) (pr : PullRequest)
    (digits : string) :
  series_tag (pull_title pr) digits ->
  cleanup_events new_series pr =
  if dict_mem Z.eqb new_series (PyStr.int_of_digits digits) then []
  else close_events pr.
Proof.
  intros Htag. unfold cleanup_events.
  now rewrite (search_pw_sid_tagged _ _ Htag).
Qed.

(** A pull request whose clean-up turn does nothing is untouched by the
    whole pass, when numbers and head branches identify pull requests. *)
Lemma flat_map_cleanup_untouched (new_series : list (Z * Series))
    (github_pulls : list PullRequest) (pr : PullRequest) :
  NoDup (map pull_number github_pulls) ->
  NoDup (map pull_head_ref github_pulls) ->
  In pr github_pulls ->
  (forall ev, In ev (cleanup_events new_series pr) ->
              match ev with EvLog _ => True | _ => False end) ->
  untouched pr (flat_map (cleanup_events new_series) github_pulls).
Proof.
  intros Hnum Href Hin Hquiet. split.
  - intros state Hev. apply in_flat_map in Hev as (pr' & Hin' & Hev).
    destruct (cleanup_events_edit _ _ _ _ Hev) as (Heq & _ & _).
    assert (pr = pr')
      by exact (NoDup_map_inj pull_number github_pulls pr pr' Hnum Hin Hin' Heq).
    subst pr'.
    exact (Hquiet _ Hev).
  - intros Hev. apply in_flat_map in Hev as (pr' & Hin' & Hev).
    destruct (cleanup_events_delete _ _ _ Hev) as (Heq & _).
    apply string_app_inv_head in Heq.
    assert (pr = pr')
      by exact (NoDup_map_inj pull_head_ref github_pulls pr pr' Href Hin Hin' Heq).
    subst pr'.
    exact (Hquiet _ Hev).
Qed.

(** C5. With a forge that answers and without [--dry-run], the clean-up
    loop runs to its end, and for every open pull request whose title
    starts with a series tag: the pull request is closed and its head
    branch deleted exactly when the tagged id is not a key of
    [new_series], and it is untouched exactly when the id is a key. *)
Theorem main_cleanup_closes_orphans (E : Env) (args : Args)
    (new_series : list (Z * Series)) (github_pulls : list PullRequest)
    (w : World) :
  forge_serves E github_pulls ->
  NoDup (map pull_number github_pulls) ->
  NoDup (map pull_head_ref github_pulls) ->
  args_dry_run args = false ->
  exists new,
    runs (main_cleanup E args new_series github_pulls) w (Ok tt) new /\
    forall pr digits,
      In pr github_pulls ->
      series_tag (pull_title pr) digits ->
      (closed_and_deleted pr new <->
       dict_mem Z.eqb new_series (PyStr.int_of_digits digits) = false) /\
      (untouched pr new <->
       dict_mem Z.eqb new_series (PyStr.int_of_digits digits) = true).
Proof.
  intros Hforge Hnum Href Hdry.
  exists (flat_map (cleanup_events new_series) github_pulls).
  split.
  { apply (main_cleanup_run E args new_series github_pulls Hforge Hdry).
    apply incl_refl. }
  intros pr digits Hin Htag.
  assert (Hmine := cleanup_events_tagged new_series pr digits Htag).
  assert (Hclosed :
    dict_mem Z.eqb new_series (PyStr.int_of_digits digits) = false ->
    closed_and_deleted pr (flat_map (cleanup_events new_series) github_pulls)).
  { intros Hmem. rewrite Hmem in Hmine.
    split; apply in_flat_map; exists pr; (split; [exact Hin|]);
      rewrite Hmine; unfold close_events; cbn [In]; auto. }
  assert (Hkept :
    dict_mem Z.eqb new_series (PyStr.int_of_digits digits) = true ->
    untouched pr (flat_map (cleanup_events new_series) github_pulls)).
  { intros Hmem. rewrite Hmem in Hmine.
    apply flat_map_cleanup_untouched; try assumption.
    rewrite Hmine. intros ev []. }
  assert (Hexcl : forall new, closed_and_deleted pr new -> untouched pr new -> False).
  { intros new [Hedit _] [Hno _]. exact (Hno _ Hedit). }
  destruct (dict_mem Z.eqb new_series (PyStr.int_of_digits digits)) eqn:Hmem.
  - split; split; intros H; try reflexivity; try discriminate.
    + exfalso. exact (Hexcl _ H (Hkept eq_refl)).
    + exact (Hkept eq_refl).
  - split; split; intros H; try reflexivity; try discriminate.
    + exact (Hclosed eq_refl).
    + exfalso. exact (Hexcl _ (Hclosed eq_refl) H).
Qed.

(** The example of the documentation: pull requests tagged 1, 2 and 3,
    series 1 and 3 in the index; the pass closes the second one only. *)
Example main_cleanup_three_pulls :
  runs (main_cleanup (Fixture.forge Fixture.three_pulls) (Fixture.args false)
          Fixture.index_1_3 Fixture.three_pulls)
    (Fixture.world Fixture.tokens) (Ok tt)
    [EvPullEdit 102 "closed"; EvRefDelete "heads/1102"].
Proof. reflexivity. Qed.

Lemma forge_serves_fixture_three : 
  forge_serves (Fixture.forge Fixture.three_pulls) Fixture.three_pulls.
Proof.
  repeat split. intros w pr [<- | [<- | [<- | []]]]; reflexivity.
Defined.

Lemma main_cleanup_closes_orphans_witness :
  exists new,
    runs (main_cleanup (Fixture.forge Fixture.three_pulls) (Fixture.args false)
            Fixture.index_1_3 Fixture.three_pulls)
      (Fixture.world Fixture.tokens) (Ok tt) new /\
    forall pr digits,
      In pr Fixture.three_pulls ->
      series_tag (pull_title pr) digits ->
      (closed_and_deleted pr new <->
       dict_mem Z.eqb Fixture.index_1_3 (PyStr.int_of_digits digits) = false) /\
      (untouched pr new <->
       dict_mem Z.eqb Fixture.index_1_3 (PyStr.int_of_digits digits) = true).
Proof.
  apply (main_cleanup_closes_orphans (Fixture.forge Fixture.three_pulls)
           (Fixture.args false) Fixture.index_1_3 Fixture.three_pulls
           (Fixture.world Fixture.tokens)).
  - exact forge_serves_fixture_three.
  - cbn. repeat constructor; cbn; intuition discriminate.
  - cbn. repeat constructor; cbn; intuition discriminate.
  - reflexivity.
Defined.

(** ** Pull requests without a series tag *)

(** C2, as the code has it. For a pull request whose title does not start
    with a series tag, [get_pw_sid] prints an error report and returns the
    id 0; it does not raise.  The clean-up turn then treats the pull request
    as one of series 0: it leaves it alone when 0 is a key of [new_series]
    or with [--dry-run], and closes it and deletes its head branch
    otherwise. *)
Theorem main_cleanup_pr_untagged (E : Env) (args : Args)
    (new_series : list (Z * Series)) (github_pulls : list PullRequest)
    (pr : PullRequest) (w : World) :
  ~ has_series_tag (pull_title pr) ->
  forge_serves E github_pulls ->
  In pr github_pulls ->
  let report :=
    EvLog ("ERROR: Unable to find the series_id from title " ++ pull_title pr) in
  runs (get_pw_sid (pull_title pr)) w (Ok 0) [report] /\
  (dict_mem Z.eqb new_series 0 = true \/ args_dry_run args = true ->
   runs (main_cleanup_pr E args new_series pr) w (Ok tt) [report]) /\
  (dict_mem Z.eqb new_series 0 = false -> args_dry_run args = false ->
   runs (main_cleanup_pr E args new_series pr) w (Ok tt)
     (report :: close_events pr)).
Proof.
  intros Hno Hforge Hin report.
  assert (Hsid := get_pw_sid_untagged (pull_title pr) w Hno). fold report in Hsid.
  split; [exact Hsid|]. split.
  - intros Hkeep. unfold main_cleanup_pr.
    rewrite <- (app_nil_r [report]).
    eapply runs_bind; [exact Hsid|].
    destruct (dict_mem Z.eqb new_series 0); [apply runs_ret|].
    destruct Hkeep as [Hkeep | Hkeep]; [discriminate|].
    rewrite Hkeep. apply runs_ret.
  - intros Hmem Hdry.
    assert (Hrun := main_cleanup_pr_run E args new_series github_pulls pr w
                      Hforge Hin Hdry).
    unfold cleanup_events in Hrun.
    rewrite (search_pw_sid_untagged _ Hno), Hmem in Hrun. exact Hrun.
Qed.

Lemma forge_serves_fixture_foreign :
  forge_serves (Fixture.forge [Fixture.foreign_pull]) [Fixture.foreign_pull].
Proof.
  repeat split. intros w pr [<- | []]; reflexivity.
Defined.

Lemma foreign_pull_untagged : ~ has_series_tag (pull_title Fixture.foreign_pull).
Proof.
  intros [digits Htag]. apply search_pw_sid_tagged in Htag. discriminate Htag.
Defined.

Lemma main_cleanup_pr_untagged_witness :
  runs (get_pw_sid (pull_title Fixture.foreign_pull)) (Fixture.world Fixture.tokens)
    (Ok 0)
    [EvLog "ERROR: Unable to find the series_id from title Fix a typo in the README"] /\
  runs (main_cleanup_pr (Fixture.forge [Fixture.foreign_pull]) (Fixture.args true)
          Fixture.index_1_3 Fixture.foreign_pull)
    (Fixture.world Fixture.tokens) (Ok tt)
    [EvLog "ERROR: Unable to find the series_id from title Fix a typo in the README"] /\
  runs (main_cleanup_pr (Fixture.forge [Fixture.foreign_pull]) (Fixture.args false)
          Fixture.index_1_3 Fixture.foreign_pull)
    (Fixture.world Fixture.tokens) (Ok tt)
    [EvLog "ERROR: Unable to find the series_id from title Fix a typo in the README";
     EvPullEdit 7 "closed"; EvRefDelete "heads/1007"].
Proof.
  split; [|split].
  - apply (main_cleanup_pr_untagged (Fixture.forge [Fixture.foreign_pull])
             (Fixture.args false) Fixture.index_1_3 [Fixture.foreign_pull]
             Fixture.foreign_pull (Fixture.world Fixture.tokens)
             foreign_pull_untagged forge_serves_fixture_foreign
             (or_introl eq_refl)).
  - apply (main_cleanup_pr_untagged (Fixture.forge [Fixture.foreign_pull])
             (Fixture.args true) Fixture.index_1_3 [Fixture.foreign_pull]
             Fixture.foreign_pull (Fixture.world Fixture.tokens)
             foreign_pull_untagged forge_serves_fixture_foreign
             (or_introl eq_refl)).
    right. reflexivity.
  - apply (main_cleanup_pr_untagged (Fixture.forge [Fixture.foreign_pull])
             (Fixture.args false) Fixture.index_1_3 [Fixture.foreign_pull]
             Fixture.foreign_pull (Fixture.world Fixture.tokens)
             foreign_pull_untagged forge_serves_fixture_foreign
             (or_introl eq_refl)); reflexivity.
Defined.

(** The documented behaviour fails on a pull request that the scripts did
    not open: its title has no series tag, and the clean-up loop closes it
    and deletes its head branch, although series 1 and 3 are the only ones
    in the index. *)
Lemma main_cleanup_closes_untagged_pull :
  ~ has_series_tag (pull_title Fixture.foreign_pull) /\
  exists new,
    runs (main_cleanup (Fixture.forge [Fixture.foreign_pull]) (Fixture.args false)
            Fixture.index_1_3 [Fixture.foreign_pull])
      (Fixture.world Fixture.tokens) (Ok tt) new /\
    closed_and_deleted Fixture.foreign_pull new /\
    ~ untouched Fixture.foreign_pull new.
Proof.
  split; [exact foreign_pull_untagged|].
  exists [EvLog "ERROR: Unable to find the series_id from title Fix a typo in the README";
          EvPullEdit 7 "closed"; EvRefDelete "heads/1007"].
  split; [reflexivity|]. split.
  - split; cbn; auto.
  - intros [Hedit _]. apply (Hedit "closed"). cbn. auto.
Qed.

(** ** The patch loop *)

Lemma post_runs {A} (m : M A) (w : World) (o : Outcome A) (new : list Event)
    (Q : Outcome A -> list Event -> Prop) :
  runs m w o new -> Q o new -> post m w Q.
Proof. intros Hrun HQ. now exists o, new. Qed.

Lemma post_conseq {A} (m : M A) (w : World)
    (Q Q' : Outcome A -> list Event -> Prop) :
  post m w Q -> (forall o new, Q o new -> Q' o new) -> post m w Q'.
Proof.
  intros (o & new & Hrun & HQ) Himp. exists o, new. split; [assumption|].
  now apply Himp.
Qed.

Lemma post_bind {A B} (m : M A) (k : A -> M B) (w : World)
    (Q : Outcome B -> list Event -> Prop) :
  post m w (fun o n1 =>
              match o with
              | Ok a => post (k a) (add_events n1 w)
                          (fun o' n2 => Q o' (n1 ++ n2)%list)
              | Raise e => Q (Raise e) n1
              | Diverge => Q Diverge n1
              end) ->
  post (bind m k) w Q.
Proof.
  intros (o & n1 & Hrun & HQ). destruct o as [a | e |].
  - destruct HQ as (o' & n2 & Hrun' & HQ).
    exists o', (n1 ++ n2)%list. split; [|assumption].
    eapply runs_bind; eassumption.
  - exists (Raise e), n1. split; [now apply runs_bind_raise | assumption].
  - exists Diverge, n1. split; [now apply runs_bind_diverge | assumption].
Qed.

Lemma steps_app (a b : list Event) : steps (a ++ b) = (steps a ++ steps b)%list.
Proof. apply flat_map_app. Qed.

Lemma shows_app (a b : list Event) (sa sb : list Step) :
  shows a sa -> shows b sb -> shows (a ++ b) (sa ++ sb).
Proof.
  intros (Ha1 & Ha2 & Ha3) (Hb1 & Hb2 & Hb3). unfold shows, forge_changes, mails.
  rewrite steps_app, !filter_app.
  unfold forge_changes, mails in *. now rewrite Ha1, Ha2, Ha3, Hb1, Hb2, Hb3.
Qed.

Lemma cmd_run_zero (E : Env) (cmd : list string) (cwd : string) (w : World) :
  fst (fst (popen E w cmd cwd)) = 0 ->
  runs (cmd_run E cmd cwd) w
    (Ok (0, snd (fst (popen E w cmd cwd)), snd (popen E w cmd cwd)))
    [EvCmd cmd cwd].
Proof.
  unfold runs, cmd_run. destruct (popen E w cmd cwd) as [[rc out] err].
  cbn [fst snd]. intros ->. reflexivity.
Qed.

Lemma cmd_run_nonzero (E : Env) (cmd : list string) (cwd : string) (w : World) :
  fst (fst (popen E w cmd cwd)) <> 0 ->
  runs (cmd_run E cmd cwd) w
    (Ok (fst (fst (popen E w cmd cwd)), "", snd (popen E w cmd cwd)))
    [EvCmd cmd cwd].
Proof.
  unfold runs, cmd_run. destruct (popen E w cmd cwd) as [[rc out] err].
  cbn [fst snd]. intros Hrc. apply Z.eqb_neq in Hrc. now rewrite Hrc.
Qed.

(** One step of a run whose outcome is known. *)
Ltac known H := eapply post_runs; [H | cbn beta iota].
Ltac step H := apply post_bind; known H.

(** The upload of a check ends well and shows the check when checks are
    uploaded, and nothing otherwise. *)
Lemma main_submit_check_post (E : Env) (args : Args) (patch : Patch)
    (state : Z) (description : string) (w : World) :
  accepts_checks E ->
  post (main_submit_check E args (patch_id patch) state description) w
    (fun o new => o = Ok tt /\
                  shows new (check_steps args (environ w) patch state)).
Proof.
  intros Haccept. unfold main_submit_check, check_steps, uploads.
  destruct (args_dry_run args).
  { known ltac:(apply runs_ret). now repeat split. }
  destruct (args_no_update_check args).
  { known ltac:(apply runs_ret). now repeat split. }
  cbn [negb andb]. unfold dict_mem.
  apply post_bind. unfold pw_submit_check.
  step ltac:(apply runs_observe).
  cbn [environ add_events].
  destruct (dict_get String.eqb (environ w) "PATCHWORK_TOKEN") as [token|].
  - apply post_bind. unfold requests_post.
    step ltac:(reflexivity).
    rewrite Haccept. cbn [Z.eqb negb Pos.eqb].
    known ltac:(apply runs_ret).
    known ltac:(apply runs_ret).
    known ltac:(apply runs_ret).
    now repeat split.
  - step ltac:(apply runs_emit).
    known ltac:(apply runs_ret).
    known ltac:(apply runs_ret).
    now repeat split.
Qed.

Lemma cmd_run_post (E : Env) (cmd : list string) (cwd : string) (w : World) :
  post (cmd_run E cmd cwd) w
    (fun o new => (exists r, o = Ok r) /\ new = [EvCmd cmd cwd]).
Proof.
  destruct (Z.eq_dec (fst (fst (popen E w cmd cwd))) 0) as [Hz | Hnz].
  - eapply post_runs; [now apply cmd_run_zero|]. split; [eauto | reflexivity].
  - eapply post_runs; [now apply cmd_run_nonzero|]. split; [eauto | reflexivity].
Qed.

Lemma shows_nil : shows [] [].
Proof. now repeat split. Qed.

Lemma shows_quiet (ev : Event) (new : list Event) (ss : list Step) :
  step_of ev = [] -> is_forge_change ev = false -> is_sendmail ev = false ->
  shows new ss -> shows (ev :: new) ss.
Proof.
  intros H1 H2 H3 (Hs & Hf & Hm). unfold shows, steps, forge_changes, mails in *.
  cbn [flat_map filter]. now rewrite H1, H2, H3, Hs, Hf, Hm.
Qed.

Lemma shows_step (ev : Event) (s : Step) (new : list Event) (ss : list Step) :
  step_of ev = [s] -> is_forge_change ev = false -> is_sendmail ev = false ->
  shows new ss -> shows (ev :: new) (s :: ss).
Proof.
  intros H1 H2 H3 (Hs & Hf & Hm). unfold shows, steps, forge_changes, mails in *.
  cbn [flat_map filter]. now rewrite H1, H2, H3, Hs, Hf, Hm.
Qed.

(** The patch loop on a series whose patches apply up to one that does
    not: each patch of [good] is applied and, when checks are uploaded, gets
    its pass check at once; then [bad] is tried, gets the fail check, and
    [git am] is aborted.  The loop ends with a false verdict. *)
Lemma main_apply_patches_fail (E : Env) (args : Args) (series_dir : string)
    (good : list Patch) (bad : Patch) (rest : list Patch) :
  accepts_checks E ->
  Forall (applies E args series_dir) good ->
  fails_to_apply E args series_dir bad ->
  forall w,
    post (main_apply_patches E args series_dir (good ++ bad :: rest)) w
      (fun o new =>
         (exists stderr, o = Ok (false, EMAIL_MESSAGE_format stderr)) /\
         shows new
           (flat_map (fun p => StepCmd (git_am_cmd series_dir p)
                               :: check_steps args (environ w) p 1) good
            ++ StepCmd (git_am_cmd series_dir bad)
               :: check_steps args (environ w) bad 3
            ++ [StepCmd ["git"; "am"; "--abort"]])%list).
Proof.
  intros Haccept Hgood [Hmbox Ham].
  induction Hgood as [|p good [Hpmbox Hpam] _ IH]; intros w.
  - cbn [app flat_map main_apply_patches].
    step ltac:(apply requests_url_ok, Hmbox).
    step ltac:(apply runs_emit).
    unfold git_am. fold (patch_path series_dir bad).
    fold (git_am_cmd series_dir bad).
    step ltac:(apply cmd_run_nonzero, Ham).
    match goal with
    | |- context [fst (fst (popen E ?w' _ _)) =? 0] =>
        let H := fresh "Hexit" in
        assert (H := Ham w'); apply Z.eqb_neq in H; rewrite H
    end.
    cbn [negb].
    apply post_bind. eapply post_conseq; [now apply main_submit_check_post|].
    intros o n [-> Hchecks]. cbn beta iota.
    apply post_bind. eapply post_conseq; [apply cmd_run_post|].
    intros o' n' [[r ->] ->].
    known ltac:(apply runs_ret).
    split; [eauto|].
    cbn [app environ add_events].
    do 2 (apply shows_quiet; [reflexivity..|]).
    apply shows_step; [reflexivity..|].
    apply shows_app; [exact Hchecks|].
    apply shows_step; [reflexivity..|]. apply shows_nil.
  - cbn [app flat_map main_apply_patches].
    step ltac:(apply requests_url_ok, Hpmbox).
    step ltac:(apply runs_emit).
    unfold git_am at 1. fold (patch_path series_dir p).
    fold (git_am_cmd series_dir p).
    step ltac:(apply cmd_run_zero, Hpam).
    cbn [Z.eqb negb].
    apply post_bind. eapply post_conseq; [now apply main_submit_check_post|].
    intros o n [-> Hchecks]. cbn beta iota.
    eapply post_conseq; [apply IH|].
    intros o' n' [Hverdict Hrest]. split; [exact Hverdict|].
    cbn [app environ add_events] in *.
    do 2 (apply shows_quiet; [reflexivity..|]).
    apply shows_step; [reflexivity..|].
    rewrite <- List.app_assoc.
    apply shows_app; [exact Hchecks | exact Hrest].
Qed.

Lemma string_length_app (a b : string) :
  String.length (a ++ b) = (String.length a + String.length b)%nat.
Proof. induction a as [|c a IH]; cbn [append String.length]; [reflexivity | now rewrite IH]. Qed.

(** A saved patch is a file whose name ends in [.patch]. *)
Lemma patch_path_suffix (series_dir : string) (patch : Patch) :
  exists stem, patch_path series_dir patch = stem ++ ".patch".
Proof.
  unfold patch_path, os_path_join.
  destruct (PyStr.startswith "/" (PyStr.str (patch_id patch) ++ ".patch")).
  { now exists (PyStr.str (patch_id patch)). }
  destruct (series_dir =? "")%string.
  { now exists (PyStr.str (patch_id patch)). }
  destruct (PyStr.endswith "/" series_dir).
  - exists (series_dir ++ PyStr.str (patch_id patch)).
    now rewrite PyStrFacts.app_assoc.
  - exists (series_dir ++ "/" ++ PyStr.str (patch_id patch)).
    now rewrite !PyStrFacts.app_assoc.
Qed.

(** So [git am <patch>] is never [git am --abort]. *)
Lemma git_am_cmd_not_abort (series_dir : string) (patch : Patch) :
  is_abort (StepCmd (git_am_cmd series_dir patch)) = false.
Proof.
  unfold is_abort, git_am_cmd.
  destruct (list_eq_dec string_dec _ _) as [Heq|]; [|reflexivity].
  exfalso. inversion Heq as [Hpath]. clear Heq.
  destruct (patch_path_suffix series_dir patch) as [stem Hstem].
  rewrite Hstem in Hpath.
  assert (Hlen := f_equal String.length Hpath).
  rewrite string_length_app in Hlen. cbn [String.length] in Hlen.
  destruct stem as [|c [|d stem]]; cbn [String.length] in Hlen; try lia.
  cbn [append] in Hpath. discriminate Hpath.
Qed.

Lemma pulls_created_forge (new : list Event) :
  forge_changes new = [] -> pulls_created new = [].
Proof.
  unfold forge_changes, pulls_created.
  induction new as [|ev new IH]; cbn [filter]; [reflexivity|].
  destruct ev; cbn [is_forge_change is_create_pull]; try discriminate; exact IH.
Qed.

Lemma mails_app (a b : list Event) : mails (a ++ b) = (mails a ++ mails b)%list.
Proof. apply filter_app. Qed.

Lemma forge_changes_app (a b : list Event) :
  forge_changes (a ++ b) = (forge_changes a ++ forge_changes b)%list.
Proof. apply filter_app. Qed.

(** The failure mail: it changes nothing on the forge, runs no command,
    sends at most one mail, and exactly one when everything it needs is
    there. *)
Lemma email_compose_post (E : Env) (config : EmailConfig) (series : Series)
    (content : string) (w : World) :
  post (email_compose E config series content) w
    (fun o new =>
       steps new = [] /\ forge_changes new = [] /\
       (List.length (mails new) <= 1)%nat /\
       (email_enable config = true ->
        series_name series <> None ->
        series_patches series <> [] ->
        dict_mem String.eqb (environ w) "EMAIL_TOKEN" = true ->
        (forall w', smtp E w' config = SmtpSent) ->
        o = Ok tt /\ List.length (mails new) = 1%nat)).
Proof.
  unfold email_compose.
  destruct (email_enable config).
  2:{ known ltac:(apply runs_ret).
      split; [|split; [|split]]; cbn; try reflexivity; try lia.
      all: try (intros; discriminate). }
  cbn [negb].
  destruct (series_name series) as [name|].
  2:{ known ltac:(apply runs_raise).
      split; [|split; [|split]]; cbn; try reflexivity; try lia.
      all: try (intros; congruence). }
  destruct (series_patches series) as [|patch_1 others].
  { known ltac:(apply runs_raise).
    split; [|split; [|split]]; cbn; try reflexivity; try lia.
    all: try (intros; congruence). }
  unfold email_sendmail.
  step ltac:(apply runs_observe). cbn [environ add_events].
  destruct (dict_mem String.eqb (environ w) "EMAIL_TOKEN").
  2:{ cbn [negb]. known ltac:(apply runs_emit).
      split; [|split; [|split]]; cbn; try reflexivity; try lia.
      all: try (intros; discriminate). }
  cbn [negb].
  step ltac:(apply runs_observe).
  match goal with
  | |- context [smtp E ?w' config] => destruct (smtp E w' config) eqn:Hsmtp
  end.
  - known ltac:(apply runs_emit).
    split; [|split; [|split]]; cbn; try reflexivity; try lia.
    all: try (intros; now split).
  - known ltac:(apply runs_emit).
    split; [|split; [|split]]; cbn; try reflexivity; try lia.
    all: try (intros _ _ _ _ Hsent; rewrite Hsent in Hsmtp; discriminate).
  - step ltac:(apply runs_emit). known ltac:(apply runs_raise).
    split; [|split; [|split]]; cbn; try reflexivity; try lia.
    all: try (intros _ _ _ _ Hsent; rewrite Hsent in Hsmtp; discriminate).
Qed.

Lemma filter_is_check_good (series_dir : string) (good : list Patch) :
  filter is_check
    (flat_map (fun p => [StepCmd (git_am_cmd series_dir p);
                         StepCheck (check_url (patch_id p)) 1]) good) =
  map (fun p => StepCheck (check_url (patch_id p)) 1) good.
Proof.
  induction good as [|p good IH]; [reflexivity|].
  cbn [flat_map map app filter is_check]. now rewrite IH.
Qed.

(** C10. With checks uploaded, on a series whose patches [good] apply and
    whose next patch [bad] does not, the patch loop runs, in this order:
    for each patch of [good], [git am] and then at once the pass check
    (state 1) of that patch; then [git am] of [bad], its fail check
    (state 3) and [git am --abort].  The checks posted are the pass checks
    of [good] in series order followed by the one fail check, and the loop
    ends with a false verdict. *)
Theorem main_apply_patches_pass_then_fail (E : Env) (args : Args)
    (series_dir : string) (good : list Patch) (bad : Patch)
    (rest : list Patch) (w : World) :
  accepts_checks E ->
  Forall (applies E args series_dir) good ->
  fails_to_apply E args series_dir bad ->
  uploads args (environ w) = true ->
  exists stderr new,
    runs (main_apply_patches E args series_dir (good ++ bad :: rest)) w
      (Ok (false, EMAIL_MESSAGE_format stderr)) new /\
    steps new =
      (flat_map (fun p => [StepCmd (git_am_cmd series_dir p);
                           StepCheck (check_url (patch_id p)) 1]) good
       ++ [StepCmd (git_am_cmd series_dir bad);
           StepCheck (check_url (patch_id bad)) 3;
           StepCmd ["git"; "am"; "--abort"]])%list /\
    filter is_check (steps new) =
      (map (fun p => StepCheck (check_url (patch_id p)) 1) good
       ++ [StepCheck (check_url (patch_id bad)) 3])%list.
Proof.
  intros Haccept Hgood Hbad Huploads.
  destruct (main_apply_patches_fail E args series_dir good bad rest
              Haccept Hgood Hbad w) as (o & new & Hrun & [stderr ->] & Hsteps & _).
  exists stderr, new. split; [exact Hrun|].
  unfold check_steps in Hsteps. rewrite Huploads in Hsteps.
  cbn [app] in Hsteps.
  split; [exact Hsteps|].
  rewrite Hsteps, filter_app, filter_is_check_good. reflexivity.
Qed.

Lemma applies_fixture (path : string) (patch : Patch) :
  patch_path "/tmp/root/1" patch <> path ->
  applies (Fixture.am_fails_on path) (Fixture.args false) "/tmp/root/1" patch.
Proof.
  intros Hpath. split; intros w; [reflexivity|].
  cbn [Fixture.am_fails_on Fixture.build popen].
  destruct (list_eq_dec string_dec _ _) as [Heq|]; [|reflexivity].
  inversion Heq. contradiction.
Defined.

Lemma fails_to_apply_fixture (patch : Patch) :
  fails_to_apply (Fixture.am_fails_on (patch_path "/tmp/root/1" patch))
    (Fixture.args false) "/tmp/root/1" patch.
Proof.
  split; intros w; [reflexivity|].
  cbn [Fixture.am_fails_on Fixture.build popen].
  destruct (list_eq_dec string_dec _ _) as [|Hne]; [discriminate|].
  exfalso. now apply Hne.
Defined.

Lemma main_apply_patches_pass_then_fail_witness :
  exists stderr new,
    runs (main_apply_patches (Fixture.am_fails_on "/tmp/root/1/13.patch")
            (Fixture.args false) "/tmp/root/1"
            (series_patches Fixture.four_patches))
      (Fixture.world Fixture.tokens)
      (Ok (false, EMAIL_MESSAGE_format stderr)) new /\
    steps new =
      [StepCmd ["git"; "am"; "/tmp/root/1/11.patch"];
       StepCheck (check_url 11) 1;
       StepCmd ["git"; "am"; "/tmp/root/1/12.patch"];
       StepCheck (check_url 12) 1;
       StepCmd ["git"; "am"; "/tmp/root/1/13.patch"];
       StepCheck (check_url 13) 3;
       StepCmd ["git"; "am"; "--abort"]] /\
    filter is_check (steps new) =
      [StepCheck (check_url 11) 1; StepCheck (check_url 12) 1;
       StepCheck (check_url 13) 3].
Proof.
  apply (main_apply_patches_pass_then_fail
           (Fixture.am_fails_on "/tmp/root/1/13.patch") (Fixture.args false)
           "/tmp/root/1"
           [Fixture.patch 11 "" [1]; Fixture.patch 12 "" [1]]
           (Fixture.patch 13 "" [1]) [Fixture.patch 14 "" [1]]
           (Fixture.world Fixture.tokens)).
  - intros w url headers content. reflexivity.
  - repeat constructor; apply applies_fixture; vm_compute; discriminate.
  - apply (fails_to_apply_fixture (Fixture.patch 13 "" [1])).
  - reflexivity.
Defined.

(** C3. A series whose first patch applies and whose second does not, with
    checks uploaded: the turn posts exactly one fail check, the one of the
    second patch; it runs [git am --abort] exactly once; it pushes nothing
    and creates no pull request; it sends at most one mail, and exactly one
    when the failure mail goes out (mail enabled, mail token present, the
    mail server takes it). *)
Theorem main_apply_series_second_patch_fails (E : Env) (args : Args)
    (config : Config) (id : Z) (series : Series) (series_dir : string)
    (first second : Patch) (rest : list Patch) (w : World) :
  series_patches series = first :: second :: rest ->
  accepts_checks E ->
  applies E args series_dir first ->
  fails_to_apply E args series_dir second ->
  uploads args (environ w) = true ->
  exists o new,
    runs (main_apply_series E args config id series series_dir) w o new /\
    filter is_fail_check (steps new) =
      [StepCheck (check_url (patch_id second)) 3] /\
    List.length (filter is_abort (steps new)) = 1%nat /\
    filter is_push (steps new) = [] /\
    pulls_created new = [] /\
    (List.length (mails new) <= 1)%nat /\
    (notifies E args config series (environ w) ->
     o = Ok tt /\ List.length (mails new) = 1%nat).
Proof.
  intros Hpatches Haccept Hfirst Hsecond Huploads.
  assert (Hdry : args_dry_run args = false).
  { unfold uploads in Huploads. destruct (args_dry_run args); [discriminate|].
    reflexivity. }
  assert (Hloop := main_apply_patches_fail E args series_dir [first] second rest
                     Haccept (Forall_cons _ Hfirst (Forall_nil _)) Hsecond w).
  unfold check_steps in Hloop. rewrite Huploads in Hloop.
  cbn [app flat_map] in Hloop.
  assert (Hpost : post (main_apply_series E args config id series series_dir) w
            (fun o new =>
               steps new =
                 [StepCmd (git_am_cmd series_dir first);
                  StepCheck (check_url (patch_id first)) 1;
                  StepCmd (git_am_cmd series_dir second);
                  StepCheck (check_url (patch_id second)) 3;
                  StepCmd ["git"; "am"; "--abort"]] /\
               forge_changes new = [] /\
               (List.length (mails new) <= 1)%nat /\
               (notifies E args config series (environ w) ->
                o = Ok tt /\ List.length (mails new) = 1%nat))).
  { unfold main_apply_series. rewrite Hpatches.
    apply post_bind. eapply post_conseq; [exact Hloop|].
    intros o n [[stderr ->] (Hsteps & Hforge & Hmails)]. cbn beta iota.
    unfold main_publish. cbn [negb]. rewrite Hdry.
    eapply post_conseq; [apply email_compose_post|].
    intros o' n' (Hsteps' & Hforge' & Hmax & Hsent).
    rewrite steps_app, forge_changes_app, mails_app.
    rewrite Hsteps, Hsteps', Hforge, Hforge', Hmails, app_nil_r.
    split; [reflexivity|]. split; [reflexivity|]. split; [exact Hmax|].
    intros (_ & Henable & Hname & Htoken & Hsmtp).
    apply Hsent; try assumption. rewrite Hpatches. discriminate. }
  destruct Hpost as (o & new & Hrun & Hsteps & Hforge & Hmax & Hsent).
  exists o, new. split; [exact Hrun|].
  rewrite Hsteps. cbn [filter is_fail_check is_push].
  rewrite !git_am_cmd_not_abort.
  repeat split; try reflexivity; try assumption.
  - now apply pulls_created_forge.
  - now apply Hsent.
  - now apply Hsent.
Qed.

Lemma notifies_fixture (path : string) :
  notifies (Fixture.am_fails_on path) (Fixture.args false) Fixture.config
    Fixture.two_patches Fixture.tokens.
Proof.
  repeat split; try reflexivity. discriminate.
Defined.

Lemma main_apply_series_second_patch_fails_witness :
  exists new,
    runs (main_apply_series (Fixture.am_fails_on "/tmp/root/1/12.patch")
            (Fixture.args false) Fixture.config 1 Fixture.two_patches
            "/tmp/root/1")
      (Fixture.world Fixture.tokens) (Ok tt) new /\
    filter is_fail_check (steps new) = [StepCheck (check_url 12) 3] /\
    List.length (filter is_abort (steps new)) = 1%nat /\
    filter is_push (steps new) = [] /\
    pulls_created new = [] /\
    List.length (mails new) = 1%nat.
Proof.
  destruct (main_apply_series_second_patch_fails
              (Fixture.am_fails_on "/tmp/root/1/12.patch") (Fixture.args false)
              Fixture.config 1 Fixture.two_patches "/tmp/root/1"
              (Fixture.patch 11 "" [1]) (Fixture.patch 12 "" [1]) []
              (Fixture.world Fixture.tokens))
    as (o & new & Hrun & Hfail & Habort & Hpush & Hpulls & _ & Hsent).
  - reflexivity.
  - intros w url headers content. reflexivity.
  - apply applies_fixture. vm_compute. discriminate.
  - apply (fails_to_apply_fixture (Fixture.patch 12 "" [1])).
  - reflexivity.
  - destruct (Hsent (notifies_fixture "/tmp/root/1/12.patch")) as [-> Hone].
    exists new. repeat split; assumption.
Defined.

(** The run of the fixture, event by event. *)
Example main_apply_series_second_patch_fails_trace :
  runs (main_apply_series (Fixture.am_fails_on "/tmp/root/1/12.patch")
          (Fixture.args false) Fixture.config 1 Fixture.two_patches
          "/tmp/root/1")
    (Fixture.world Fixture.tokens) (Ok tt)
    [EvGet "mbox/11";
     EvWriteFile "/tmp/root/1/11.patch" "From: mbox/11";
     EvCmd ["git"; "am"; "/tmp/root/1/11.patch"] "/src";
     EvPost (check_url 11) [("Authorization", "Token s3cr3t")]
       {| check_user := 104215; check_state := 1; check_target_url := "";
          check_context := "pre-ci_am"; check_description := "Success" |};
     EvGet "mbox/12";
     EvWriteFile "/tmp/root/1/12.patch" "From: mbox/12";
     EvCmd ["git"; "am"; "/tmp/root/1/12.patch"] "/src";
     EvPost (check_url 12) [("Authorization", "Token s3cr3t")]
       {| check_user := 104215; check_state := 3; check_target_url := "";
          check_context := "pre-ci_am";
          check_description := "error: patch failed" |};
     EvCmd ["git"; "am"; "--abort"] "/src";
     EvSendmail "ci@example.org"
       ["list@example.org"; "submitter@example.org"]
       {| mail_subject := "RE: a series of two";
          mail_reply_to := "list@example.org";
          mail_from := "ci@example.org";
          mail_to := "list@example.org, submitter@example.org";
          mail_in_reply_to := "msgid-11";
          mail_references := "msgid-11";
          mail_body := EMAIL_MESSAGE_format "error: patch failed" |}].
Proof. vm_compute. reflexivity. Qed.

(** ** What the empty file list does to the relevance filter *)

Lemma requests_url_post {A} (endpoint : World -> string -> Response A)
    (url : string) (w : World) :
  post (requests_url endpoint url) w
    (fun o new => new = [EvGet url] /\
                  (o = Ok (endpoint w url) \/ exists e, o = Raise e)).
Proof.
  destruct (Z.eq_dec (status_code (endpoint w url)) 200) as [Hok | Hko].
  - eapply post_runs; [now apply requests_url_ok|]. split; [reflexivity | now left].
  - eapply post_runs; [now apply requests_url_fail|]. split; [reflexivity|].
    right. eauto.
Qed.

(** Since [patch_get_file_list] returns no path, the file list of a series
    is the list the loop started with. *)
Lemma series_get_file_list_loop_post (E : Env) (patches : list Patch) :
  forall (file_list : list string) (w : World),
    post (series_get_file_list_loop E patches file_list) w
      (fun o _ => o = Ok file_list \/ exists e, o = Raise e).
Proof.
  induction patches as [|patch rest IH]; intros file_list w;
    cbn [series_get_file_list_loop].
  - known ltac:(apply runs_ret). now left.
  - apply post_bind. unfold pw_get_patch.
    apply post_bind. eapply post_conseq; [apply requests_url_post|].
    intros o new [-> [-> | [e ->]]]; cbn beta iota; [|right; eauto].
    known ltac:(apply runs_ret).
    rewrite patch_get_file_list_nil, app_nil_r.
    eapply post_conseq; [apply IH|]. intros o' new' H. exact H.
Qed.

(** So the file check of [filter_repo_type] never answers [True]: a series
    that no include pattern matches is never found relevant. *)
Lemma filter_by_files_never_true (E : Env) (series : Series) (src_dir : string)
    (w : World) :
  post (filter_by_files E series src_dir) w
    (fun o _ => o = Ok false \/ exists e, o = Raise e).
Proof.
  unfold filter_by_files, series_get_file_list.
  apply post_bind. eapply post_conseq; [apply series_get_file_list_loop_post|].
  intros o new [-> | [e ->]]; cbn beta iota; [|right; eauto].
  step ltac:(apply runs_emit). known ltac:(apply runs_ret). now left.
Qed.

(** ** Two runs in a row *)

(** A first run on the fixture with a memory creates the pull request of
    the one series of the tracker. *)
Example main_first_run :
  exists w1,
    main Fixture.stateful 3 (Fixture.args false) (Some Fixture.config)
      "/tmp/root" (Fixture.world Fixture.tokens) = (Ok tt, w1) /\
    pulls_created (trace w1) =
      [EvCreatePull "[PW_SID:1] [BlueZ] fix a typo" "content of 11"
         "workflow" "1"].
Proof. eexists. split; vm_compute; reflexivity. Qed.

(** A second run, started where the first one ended, on the same tracker:
    it reads from the tracker and creates nothing. *)
Example main_second_run :
  let first :=
    main Fixture.stateful 3 (Fixture.args false) (Some Fixture.config)
      "/tmp/root" (Fixture.world Fixture.tokens) in
  fst first = Ok tt /\
  runs (main Fixture.stateful 3 (Fixture.args false) (Some Fixture.config)
          "/tmp/root") (snd first) (Ok tt)
    [EvGet (patches_url ["1"; "2"]);
     EvGet (PW_BASE_URL ++ "/series/1");
     EvGet (PW_BASE_URL ++ "/patches/11")].
Proof. split; vm_compute; reflexivity. Qed.

(** ** The clean-up loop is skipped without series *)

Lemma init_github_run (E : Env) (repo : string) (w : World) :
  dict_mem String.eqb (environ w) "GITHUB_TOKEN" = true ->
  runs (init_github E repo) w (Ok (forge_get_pulls E w repo)) [].
Proof.
  intros Htoken. unfold init_github, dict_mem in *.
  change (@nil Event) with (@nil Event ++ [])%list.
  eapply runs_bind; [apply runs_observe|]. cbn [environ add_events].
  destruct (dict_get String.eqb (environ w) "GITHUB_TOKEN"); [|discriminate].
  rewrite add_events_nil.
  apply (runs_observe (fun w' => forge_get_pulls E w' repo) w).
Qed.

(** When the tracker has no patch in the queried states, [main] returns
    before the clean-up loop: no pull request is closed, whatever is
    open. *)
Lemma main_without_series (E : Env) (args : Args) (config : Config)
    (temp_root_dir : string) (fuel : nat) (w : World) :
  args_key_str args = "user" ->
  dict_mem String.eqb (environ w) "GITHUB_TOKEN" = true ->
  (forall w', tracker_patches E w' (patches_url (args_patch_state args)) =
              {| status_code := 200; payload := []; links_next := None |}) ->
  runs (main E (S fuel) args (Some config) temp_root_dir) w (Ok tt)
    [EvGet (patches_url (args_patch_state args))].
Proof.
  intros Hkey Htoken Hempty. unfold main. rewrite Hkey.
  change (("user" =? "kernel")%string) with false.
  change (("user" =? "user")%string) with true.
  cbn [negb andb].
  change [EvGet (patches_url (args_patch_state args))]
    with ([] ++ [EvGet (patches_url (args_patch_state args))] ++ [])%list.
  eapply runs_bind; [now apply init_github_run|].
  eapply runs_bind.
  - unfold get_new_series.
    rewrite <- (app_nil_r [EvGet _]).
    eapply runs_bind.
    + apply (pw_get_patches_by_state_loop_chain E
               [(patches_url (args_patch_state args), [])]).
      * exact Hempty.
      * cbn; lia.
      * reflexivity.
    + cbn. apply runs_ret.
  - cbn. apply runs_ret.
Qed.

(** * Further properties of the scripts *)

(** ** Numbers in text: [str] and [int] *)

Module StrFacts.
Import PyStr.

Lemma int_acc_pos (d : Decimal.uint) :
  forall p : positive,
    int_acc (Z.pos p) (NilEmpty.string_of_uint d) = Z.pos (Pos.of_uint_acc d p).
Proof.
  induction d; intros p; cbn [NilEmpty.string_of_uint int_acc Pos.of_uint_acc];
    try reflexivity;
    match goal with
    | |- int_acc (10 * Z.pos p + digit_value ?c) _ = _ =>
        let v := eval vm_compute in (digit_value c) in
        change (digit_value c) with v
    end;
    rewrite <- IHd; f_equal; lia.
Qed.

Lemma int_acc_zero (d : Decimal.uint) :
  int_acc 0 (NilEmpty.string_of_uint d) = Z.of_N (Pos.of_uint d).
Proof.
  induction d; cbn [NilEmpty.string_of_uint int_acc Pos.of_uint];
    try reflexivity;
    match goal with
    | |- int_acc (10 * 0 + digit_value ?c) _ = _ =>
        let v := eval vm_compute in (digit_value c) in
        change (10 * 0 + digit_value c) with v
    end;
    [exact IHd | apply int_acc_pos ..].
Qed.

Lemma all_digits_uint (d : Decimal.uint) :
  all_digits (NilEmpty.string_of_uint d) = true.
Proof.
  induction d; cbn [NilEmpty.string_of_uint all_digits]; try reflexivity;
    rewrite IHd; reflexivity.
Qed.

Lemma string_of_uint_nonnil (d : Decimal.uint) :
  d <> Decimal.Nil -> NilZero.string_of_uint d = NilEmpty.string_of_uint d.
Proof. destruct d; [congruence | reflexivity ..]. Qed.

Lemma str_pos (p : positive) :
  str (Z.pos p) = NilEmpty.string_of_uint (Pos.to_uint p).
Proof.
  unfold str. cbn [Z.to_int NilZero.string_of_int].
  apply string_of_uint_nonnil, DecimalPos.Unsigned.to_uint_nonnil.
Qed.

Lemma str_neg (p : positive) : str (Z.neg p) = String "-" (str (Z.pos p)).
Proof.
  rewrite str_pos. unfold str. cbn [Z.to_int NilZero.string_of_int].
  f_equal. apply string_of_uint_nonnil, DecimalPos.Unsigned.to_uint_nonnil.
Qed.

Lemma uint_nonempty (d : Decimal.uint) :
  d <> Decimal.Nil -> NilEmpty.string_of_uint d <> "".
Proof. destruct d; [congruence | discriminate ..]. Qed.

(** The text of a natural number is a non-empty string of digits, and
    [int] reads the number back. *)
Lemma str_nonneg (n : Z) :
  0 <= n ->
  str n <> "" /\ all_digits (str n) = true /\ int_of_digits (str n) = n.
Proof.
  intros Hn. destruct n as [|p|p]; [now repeat split | | lia].
  rewrite str_pos. split; [|split].
  - apply uint_nonempty, DecimalPos.Unsigned.to_uint_nonnil.
  - apply all_digits_uint.
  - unfold int_of_digits. rewrite int_acc_zero, DecimalPos.Unsigned.of_to.
    reflexivity.
Qed.

(** The first character of the text of a number is a digit or the sign. *)
Lemma str_head (n : Z) :
  exists c rest, str n = String c rest /\ (is_digit c = true \/ c = "-"%char).
Proof.
  destruct n as [|p|p].
  - exists "0"%char, "". now split; [|left].
  - destruct (str_nonneg (Z.pos p)) as (Hne & Hall & _); [lia|].
    destruct (str (Z.pos p)) as [|c rest]; [congruence|].
    exists c, rest. split; [reflexivity|]. left.
    cbn [all_digits] in Hall. now apply andb_true_iff in Hall.
  - rewrite str_neg. eexists _, _. split; [reflexivity | now right].
Qed.

(** Different numbers have different texts. *)
Lemma str_inj (a b : Z) : str a = str b -> a = b.
Proof.
  assert (Hdigit : forall p q, str (Z.pos p) <> str (Z.neg q)).
  { intros p q H. rewrite str_neg in H.
    destruct (str_nonneg (Z.pos p)) as (_ & Hall & _); [lia|].
    rewrite H in Hall. discriminate Hall. }
  assert (Hnn : forall x y, 0 <= x -> 0 <= y -> str x = str y -> x = y).
  { intros x y Hx Hy H.
    destruct (str_nonneg x Hx) as (_ & _ & <-).
    destruct (str_nonneg y Hy) as (_ & _ & <-). now rewrite H. }
  intros H. destruct a as [|p|p], b as [|q|q];
    try (apply Hnn; [lia | lia | exact H]).
  - exfalso. change 0 with (Z.of_nat 0) in H.
    rewrite str_neg in H. discriminate H.
  - exfalso. exact (Hdigit _ _ H).
  - exfalso. rewrite str_neg in H. discriminate H.
  - exfalso. symmetry in H. exact (Hdigit _ _ H).
  - rewrite !str_neg in H. inversion H as [H'].
    assert (Z.pos p = Z.pos q) by (apply Hnn; [lia | lia | exact H']).
    congruence.
Qed.

End StrFacts.

(** ** The series tag, written and read back *)

(** A run has one outcome and one list of events. *)
Lemma runs_det {A} (m : M A) (w : World) (o1 o2 : Outcome A)
    (n1 n2 : list Event) :
  runs m w o1 n1 -> runs m w o2 n2 -> o1 = o2 /\ n1 = n2.
Proof.
  unfold runs. intros H1 H2. rewrite H1 in H2. inversion H2 as [[Ho Ht]].
  split; [reflexivity|]. now apply app_inv_head in Ht.
Qed.

Lemma created_title_series_tag (series : Series) :
  0 <= series_id series ->
  series_tag (created_title series) (PyStr.str (series_id series)).
Proof.
  intros Hid. destruct (StrFacts.str_nonneg _ Hid) as (Hne & Hall & _).
  split; [exact Hne|]. split; [exact Hall|].
  exists (" " ++ str_of_name (series_name series)). reflexivity.
Qed.

(** X1. The id of a series with a natural id survives the title: [get_pw_sid]
    on the title of a pull request that [create_pr] has created returns the
    id of the series, and prints no error. *)
Theorem get_pw_sid_of_created_pull (E : Env) (series : Series)
    (base head : string) (w w' : World) (o : Outcome unit) (new : list Event)
    (title body base' head' : string) :
  0 <= series_id series ->
  runs (create_pr E series base head) w o new ->
  In (EvCreatePull title body base' head') new ->
  runs (get_pw_sid title) w' (Ok (series_id series)) [].
Proof.
  intros Hid Hrun Hin.
  destruct (emits_create_pr E series base head w) as (o' & new' & Hrun' & Hall).
  destruct (runs_det _ _ _ _ _ _ Hrun Hrun') as [_ ->].
  rewrite Forall_forall in Hall. specialize (Hall _ Hin).
  destruct Hall as [_ ->].
  destruct (StrFacts.str_nonneg _ Hid) as (_ & _ & Hint).
  rewrite <- Hint at 2.
  apply get_pw_sid_tagged. now apply created_title_series_tag.
Qed.

Lemma get_pw_sid_of_created_pull_witness :
  runs (get_pw_sid "[PW_SID:1] [BlueZ] fix a typo")
    (Fixture.world []) (Ok 1) [].
Proof.
  apply (get_pw_sid_of_created_pull Fixture.stateful Fixture.bluez_fix
           "workflow" "1" (Fixture.world Fixture.tokens) (Fixture.world [])
           (Ok tt)
           [EvGet (patch_url 11);
            EvCreatePull "[PW_SID:1] [BlueZ] fix a typo" "content of 11"
              "workflow" "1"]
           "[PW_SID:1] [BlueZ] fix a typo" "content of 11" "workflow" "1").
  - vm_compute. discriminate.
  - reflexivity.
  - right. left. reflexivity.
Defined.

(** X2. The clean-up loop and the pull requests the script has opened: such a
    pull request is left alone while its series is in [new_series], and is
    closed, its branch deleted, once the series is gone (without
    [--dry-run], the forge answering). *)
Theorem main_cleanup_pr_created (E : Env) (args : Args)
    (new_series : list (Z * Series)) (github_pulls : list PullRequest)
    (pr : PullRequest) (series : Series) (w : World) :
  pull_title pr = created_title series ->
  0 <= series_id series ->
  (dict_mem Z.eqb new_series (series_id series) = true ->
   runs (main_cleanup_pr E args new_series pr) w (Ok tt) []) /\
  (dict_mem Z.eqb new_series (series_id series) = false ->
   args_dry_run args = false ->
   forge_serves E github_pulls ->
   In pr github_pulls ->
   runs (main_cleanup_pr E args new_series pr) w (Ok tt) (close_events pr)).
Proof.
  intros Htitle Hid.
  assert (Htag := created_title_series_tag series Hid).
  rewrite <- Htitle in Htag.
  destruct (StrFacts.str_nonneg _ Hid) as (_ & _ & Hint).
  split.
  - intros Hmem. unfold main_cleanup_pr.
    change (@nil Event) with (@nil Event ++ [])%list.
    eapply runs_bind; [exact (get_pw_sid_tagged _ _ w Htag)|].
    rewrite Hint, Hmem. apply runs_ret.
  - intros Hmem Hdry Hforge Hin.
    assert (Hrun := main_cleanup_pr_run E args new_series github_pulls pr w
                      Hforge Hin Hdry).
    rewrite (cleanup_events_tagged new_series pr _ Htag), Hint, Hmem in Hrun.
    exact Hrun.
Qed.

Lemma forge_serves_created :
  forge_serves (Fixture.forge [Scenario.created_pull 9 Fixture.bluez_fix])
    [Scenario.created_pull 9 Fixture.bluez_fix].
Proof. repeat split. intros w pr [<- | []]; reflexivity. Defined.

Lemma main_cleanup_pr_created_witness :
  runs (main_cleanup_pr (Fixture.forge [Scenario.created_pull 9 Fixture.bluez_fix])
          (Fixture.args false) Fixture.index_1_3
          (Scenario.created_pull 9 Fixture.bluez_fix))
    (Fixture.world Fixture.tokens) (Ok tt) [] /\
  runs (main_cleanup_pr (Fixture.forge [Scenario.created_pull 9 Fixture.bluez_fix])
          (Fixture.args false) [(2, Fixture.two_patches)]
          (Scenario.created_pull 9 Fixture.bluez_fix))
    (Fixture.world Fixture.tokens) (Ok tt)
    [EvPullEdit 9 "closed"; EvRefDelete "heads/1"].
Proof.
  split.
  - apply (proj1 (main_cleanup_pr_created
             (Fixture.forge [Scenario.created_pull 9 Fixture.bluez_fix])
             (Fixture.args false) Fixture.index_1_3
             [Scenario.created_pull 9 Fixture.bluez_fix]
             (Scenario.created_pull 9 Fixture.bluez_fix) Fixture.bluez_fix
             (Fixture.world Fixture.tokens) eq_refl
             ltac:(vm_compute; discriminate))).
    reflexivity.
  - apply (proj2 (main_cleanup_pr_created
             (Fixture.forge [Scenario.created_pull 9 Fixture.bluez_fix])
             (Fixture.args false) [(2, Fixture.two_patches)]
             [Scenario.created_pull 9 Fixture.bluez_fix]
             (Scenario.created_pull 9 Fixture.bluez_fix) Fixture.bluez_fix
             (Fixture.world Fixture.tokens) eq_refl
             ltac:(vm_compute; discriminate))).
    + reflexivity.
    + reflexivity.
    + exact forge_serves_created.
    + now left.
Defined.

(** X3. The guard [github_pr_exist] looks for the tag as a piece of text: the
    pull request of a series whose id begins with the digits of [id] makes
    the guard answer [True] for [id] as well. *)
Theorem github_pr_exist_longer_id (github_pulls : list PullRequest) (id : Z)
    (pull : PullRequest) (other : Series) :
  In pull github_pulls ->
  pull_title pull = created_title other ->
  PyStr.startswith (PyStr.str id) (PyStr.str (series_id other)) = true ->
  github_pr_exist github_pulls id = true.
Proof.
  intros Hin Htitle Hprefix.
  apply PyStrFacts.startswith_inv in Hprefix as [more Hmore].
  apply github_pr_exist_spec. exists pull. split; [exact Hin|].
  exists "[", ("PW_SID:" ++ PyStr.str id),
         (more ++ "] " ++ str_of_name (series_name other)).
  split; [|reflexivity].
  rewrite Htitle. unfold created_title. rewrite Hmore.
  cbn [append PR_TITLE_PREFIX]. now rewrite !PyStrFacts.app_assoc.
Qed.

Lemma github_pr_exist_longer_id_witness :
  github_pr_exist [Scenario.created_pull 4 Scenario.series_123] 12 = true.
Proof.
  apply (github_pr_exist_longer_id [Scenario.created_pull 4 Scenario.series_123]
           12 (Scenario.created_pull 4 Scenario.series_123) Scenario.series_123).
  - now left.
  - reflexivity.
  - reflexivity.
Defined.

(** ** Building the index of series *)

Lemma dict_mem_keys (d : list (Z * Series)) (id : Z) :
  dict_mem Z.eqb d id = true <-> In id (map fst d).
Proof.
  unfold dict_mem. induction d as [|[k v] d IH]; cbn [dict_get map fst In].
  - split; [discriminate | contradiction].
  - destruct (Z.eqb_spec k id) as [-> | Hne].
    + split; [now left | reflexivity].
    + rewrite IH. split; [now right | intros [H | H]; [congruence | exact H]].
Qed.

Lemma pw_get_series_ok (E : Env) (id : Z) (w : World) :
  series_served E ->
  runs (pw_get_series E id) w
    (Ok (payload (tracker_series E w (series_url id)))) [EvGet (series_url id)].
Proof.
  intros Hserved. unfold pw_get_series. fold (series_url id).
  rewrite <- (app_nil_r [EvGet _]).
  eapply runs_bind; [apply requests_url_ok, Hserved | apply runs_ret].
Qed.

(** The inner loop adds the series it has not seen, each after one
    request, and keeps the keys distinct. *)
Lemma get_new_series_of_patch_run (E : Env) (refs : list Z) :
  series_served E ->
  forall (d : list (Z * Series)) (w : World),
    NoDup (map fst d) ->
    exists added,
      runs (get_new_series_of_patch E refs d) w (Ok (d ++ added)%list)
        (series_gets added) /\
      NoDup (map fst (d ++ added)) /\
      (forall id, In id (map fst added) -> In id refs) /\
      (forall id, In id refs -> In id (map fst (d ++ added))) /\
      Forall (fetched_series E) added.
Proof.
  intros Hserved. induction refs as [|id rest IH]; intros d w Hnodup;
    cbn [get_new_series_of_patch].
  - exists []. rewrite app_nil_r. repeat split; try assumption;
      try contradiction; try constructor. apply runs_ret.
  - destruct (dict_mem Z.eqb d id) eqn:Hmem; cbn [negb].
    + destruct (IH d w Hnodup) as (added & Hrun & Hnd & Hsub & Hall & Hfetched).
      exists added. repeat split; try assumption.
      * intros x Hx. right. now apply Hsub.
      * intros x [<- | Hx]; [|now apply Hall].
        rewrite map_app. apply in_or_app. left. now apply dict_mem_keys.
    + assert (Hfresh : ~ In id (map fst d)).
      { intros Hin. apply dict_mem_keys in Hin. congruence. }
      set (detail := payload (tracker_series E w (series_url id))).
      assert (Hnodup' : NoDup (map fst (d ++ [(id, detail)]))).
      { rewrite map_app. cbn [map fst].
        apply NoDup_app; [exact Hnodup | repeat constructor; intros [] |].
        intros x Hx [<- | []]. contradiction. }
      destruct (IH (d ++ [(id, detail)])%list (add_events [EvGet (series_url id)] w)
                  Hnodup')
        as (added & Hrun & Hnd & Hsub & Hall & Hfetched).
      exists ((id, detail) :: added).
      replace (d ++ (id, detail) :: added)%list
        with ((d ++ [(id, detail)]) ++ added)%list
        by (now rewrite <- List.app_assoc).
      repeat split; try assumption.
      * change (series_gets ((id, detail) :: added))
          with ([EvGet (series_url id)] ++ series_gets added)%list.
        eapply runs_bind; [now apply pw_get_series_ok | exact Hrun].
      * intros x [<- | Hx]; [now left | right; now apply Hsub].
      * intros x [<- | Hx]; [|now apply Hall].
        rewrite !map_app. apply in_or_app. left. apply in_or_app. right.
        now left.
      * constructor; [now exists w | exact Hfetched].
Qed.

Lemma get_new_series_loop_run (E : Env) (patches : list Patch) :
  series_served E ->
  forall (d : list (Z * Series)) (w : World),
    NoDup (map fst d) ->
    exists added,
      runs (get_new_series_loop E patches d) w (Ok (d ++ added)%list)
        (series_gets added) /\
      NoDup (map fst (d ++ added)) /\
      (forall id, In id (map fst added) -> In id (referenced patches)) /\
      (forall id, In id (referenced patches) -> In id (map fst (d ++ added))) /\
      Forall (fetched_series E) added.
Proof.
  intros Hserved. induction patches as [|patch rest IH]; intros d w Hnodup;
    cbn [get_new_series_loop referenced flat_map].
  - exists []. rewrite app_nil_r. repeat split; try assumption;
      try contradiction; try constructor. apply runs_ret.
  - fold (referenced rest). destruct (patch_series patch) as [refs|].
    + destruct (get_new_series_of_patch_run E refs Hserved d w Hnodup)
        as (a1 & Hrun1 & Hnd1 & Hsub1 & Hall1 & Hf1).
      destruct (IH (d ++ a1)%list (add_events (series_gets a1) w) Hnd1)
        as (a2 & Hrun2 & Hnd2 & Hsub2 & Hall2 & Hf2).
      exists (a1 ++ a2)%list. rewrite List.app_assoc.
      repeat split; try assumption.
      * unfold series_gets. rewrite map_app.
        eapply runs_bind; [exact Hrun1 | exact Hrun2].
      * intros x Hx. rewrite map_app in Hx. apply in_app_or in Hx.
        apply in_or_app. destruct Hx as [Hx | Hx]; [left | right]; auto.
      * intros x Hx. apply in_app_or in Hx as [Hx | Hx]; [|now apply Hall2].
        rewrite map_app. apply in_or_app. left. now apply Hall1.
      * apply Forall_app. now split.
    + cbn [app]. now apply IH.
Qed.

(** X4. Discovery. When the tracker serves the patch list as a chain of pages
    and answers for every series, [get_new_series] returns an index whose
    keys are distinct and are exactly the series ids that the patches refer
    to; it asks for each series once, after the pages, in the order of the
    keys, and stores what the tracker answered. *)
Theorem get_new_series_index (E : Env) (states : list string)
    (chain : list (string * list Patch)) (fuel : nat) (w : World) :
  serves E chain ->
  option_map fst (hd_error chain) = Some (patches_url states) ->
  (List.length chain <= fuel)%nat ->
  series_served E ->
  exists index,
    runs (get_new_series E fuel states) w (Ok index)
      (map (fun c => EvGet (fst c)) chain ++ series_gets index) /\
    NoDup (map fst index) /\
    (forall id, In id (map fst index) <-> In id (referenced (all_pages chain))) /\
    Forall (fetched_series E) index.
Proof.
  intros Hserves Hhd Hfuel Hserved.
  assert (Hpages := pw_get_patches_by_state_loop_chain E chain Hserves fuel
                      (patches_url states) [] w Hfuel Hhd).
  cbn [app] in Hpages.
  destruct (get_new_series_loop_run E (all_pages chain) Hserved []
              (add_events (map (fun c => EvGet (fst c)) chain) w)
              (NoDup_nil _))
    as (index & Hrun & Hnd & Hsub & Hall & Hfetched).
  cbn [app] in *.
  destruct (all_pages chain) as [|p ps] eqn:Hpatches.
  - exists []. split; [|split; [|split]].
    + unfold get_new_series, pw_get_patches_by_state.
      eapply runs_bind; [exact Hpages|]. cbn. apply runs_ret.
    + constructor.
    + intros id. split; intros Hin; exact Hin.
    + constructor.
  - exists index. split; [|split; [|split]].
    + unfold get_new_series, pw_get_patches_by_state.
      eapply runs_bind; [exact Hpages|]. cbn [List.length Nat.eqb]. exact Hrun.
    + exact Hnd.
    + intros id. split; [apply Hsub | apply Hall].
    + exact Hfetched.
Qed.

Lemma get_new_series_index_witness :
  exists index,
    runs (get_new_series Fixture.paged 2 ["1"; "2"]) (Fixture.world []) (Ok index)
      ([EvGet (patches_url ["1"; "2"]); EvGet "https://tracker/page/2"]
       ++ series_gets index) /\
    NoDup (map fst index) /\
    (forall id, In id (map fst index) <->
                In id (referenced (Fixture.page_1 ++ Fixture.page_2))) /\
    Forall (fetched_series Fixture.paged) index.
Proof.
  apply (get_new_series_index Fixture.paged ["1"; "2"]
           [(patches_url ["1"; "2"], Fixture.page_1);
            ("https://tracker/page/2", Fixture.page_2)] 2 (Fixture.world [])).
  - split; intros w; reflexivity.
  - reflexivity.
  - simpl; lia.
  - intros w id. reflexivity.
Defined.

(** The run of the fixture: two pages, three patches, two series. *)
Example get_new_series_paged :
  exists index,
    runs (get_new_series Fixture.paged 2 ["1"; "2"]) (Fixture.world []) (Ok index)
      [EvGet (patches_url ["1"; "2"]); EvGet "https://tracker/page/2";
       EvGet (series_url 1); EvGet (series_url 2)] /\
    map fst index = [1; 2].
Proof. eexists. split; vm_compute; reflexivity. Qed.

(** ** What makes a series relevant *)

Lemma search_patterns_unnamed (E : Env) (patterns : list string) (w : World) :
  post (search_patterns E patterns None) w
    (fun o new => new = [] /\ (o = Ok false \/ exists e, o = Raise e)).
Proof.
  destruct patterns as [|pattern rest]; cbn [search_patterns].
  - known ltac:(apply runs_ret). split; [reflexivity | now left].
  - known ltac:(apply runs_raise). split; [reflexivity | right; eauto].
Qed.

Lemma filter_repo_type_post (E : Env) (repo_detail : RepoDetail)
    (series : Series) (src_dir : string) (w : World) :
  post (filter_repo_type E repo_detail series src_dir) w
    (fun o new =>
       o = Ok true ->
       exists name,
         series_name series = Some name /\
         matches_any E (repo_exclude repo_detail) name = false /\
         matches_any E (repo_include repo_detail) name = true /\
         new = []).
Proof.
  unfold filter_repo_type. destruct (series_name series) as [name|].
  - step ltac:(apply search_patterns_run).
    destruct (matches_any E (repo_exclude repo_detail) name) eqn:Hex.
    { known ltac:(apply runs_ret). discriminate. }
    step ltac:(apply search_patterns_run).
    destruct (matches_any E (repo_include repo_detail) name) eqn:Hin.
    { known ltac:(apply runs_ret). intros _. now exists name. }
    eapply post_conseq; [apply filter_by_files_never_true|].
    intros o new [-> | [e ->]]; discriminate.
  - apply post_bind. eapply post_conseq; [apply search_patterns_unnamed|].
    intros o new [-> [-> | [e ->]]]; cbn beta iota; [|discriminate].
    apply post_bind. eapply post_conseq; [apply search_patterns_unnamed|].
    intros o new [-> [-> | [e ->]]]; cbn beta iota; [|discriminate].
    eapply post_conseq; [apply filter_by_files_never_true|].
    intros o new [-> | [e ->]]; discriminate.
Qed.

(** X5. [filter_repo_type] answers [True] for one reason only: the series has
    a name that an include pattern matches and no exclude pattern matches.
    It then asks the tracker nothing.  The file check, which
    [patch_get_file_list] leaves without files, never makes a series
    relevant. *)
Theorem filter_repo_type_true_by_include (E : Env) (repo_detail : RepoDetail)
    (series : Series) (src_dir : string) (w : World) (new : list Event) :
  runs (filter_repo_type E repo_detail series src_dir) w (Ok true) new ->
  exists name,
    series_name series = Some name /\
    matches_any E (repo_exclude repo_detail) name = false /\
    matches_any E (repo_include repo_detail) name = true /\
    new = [].
Proof.
  intros Hrun.
  destruct (filter_repo_type_post E repo_detail series src_dir w)
    as (o & new' & Hrun' & Hpost).
  destruct (runs_det _ _ _ _ _ _ Hrun Hrun') as [<- ->].
  now apply Hpost.
Qed.

Lemma filter_repo_type_true_by_include_witness :
  exists name,
    series_name (Fixture.series 1 (Some "[BlueZ] fix a typo") []) = Some name /\
    matches_any Fixture.literal (repo_exclude Fixture.user_profile) name = false /\
    matches_any Fixture.literal (repo_include Fixture.user_profile) name = true /\
    @nil Event = [].
Proof.
  apply (filter_repo_type_true_by_include Fixture.literal Fixture.user_profile
           (Fixture.series 1 (Some "[BlueZ] fix a typo") []) "/src"
           (Fixture.world []) []).
  reflexivity.
Defined.

(** ** A series whose patches all apply *)

Lemma main_apply_patches_all (E : Env) (args : Args) (series_dir : string)
    (patches : list Patch) :
  accepts_checks E ->
  Forall (applies E args series_dir) patches ->
  forall w,
    post (main_apply_patches E args series_dir patches) w
      (fun o new =>
         o = Ok (true, "") /\
         shows new
           (flat_map (fun p => StepCmd (git_am_cmd series_dir p)
                               :: check_steps args (environ w) p 1) patches)).
Proof.
  intros Haccept Hall.
  induction Hall as [|p rest [Hmbox Ham] _ IH]; intros w;
    cbn [flat_map main_apply_patches].
  - known ltac:(apply runs_ret). split; [reflexivity | apply shows_nil].
  - step ltac:(apply requests_url_ok, Hmbox).
    step ltac:(apply runs_emit).
    unfold git_am at 1. fold (patch_path series_dir p).
    fold (git_am_cmd series_dir p).
    step ltac:(apply cmd_run_zero, Ham).
    cbn [Z.eqb negb].
    apply post_bind. eapply post_conseq; [now apply main_submit_check_post|].
    intros o n [-> Hchecks]. cbn beta iota.
    eapply post_conseq; [apply IH|].
    intros o' n' [-> Hrest]. split; [reflexivity|].
    cbn [app environ add_events] in *.
    do 2 (apply shows_quiet; [reflexivity..|]).
    apply shows_step; [reflexivity..|].
    apply shows_app; [exact Hchecks | exact Hrest].
Qed.

Lemma git_push_ok (E : Env) (id : Z) (cwd : string) (w : World) :
  fst (fst (popen E w (push_cmd id) cwd)) = 0 ->
  runs (git_push E "origin" (PyStr.str id) cwd false) w (Ok true)
    [EvCmd (push_cmd id) cwd].
Proof.
  intros Hexit. unfold git_push. fold (push_cmd id).
  rewrite <- (app_nil_r [EvCmd _ _]).
  eapply runs_bind; [now apply cmd_run_zero|]. apply runs_ret.
Qed.

Lemma git_push_ko (E : Env) (id : Z) (cwd : string) (w : World) :
  fst (fst (popen E w (push_cmd id) cwd)) <> 0 ->
  runs (git_push E "origin" (PyStr.str id) cwd false) w (Ok false)
    [EvCmd (push_cmd id) cwd; EvLog "ERROR: failed to push"].
Proof.
  intros Hexit. unfold git_push. fold (push_cmd id).
  change [EvCmd (push_cmd id) cwd; EvLog "ERROR: failed to push"]
    with ([EvCmd (push_cmd id) cwd] ++ [EvLog "ERROR: failed to push"] ++ [])%list.
  eapply runs_bind; [now apply cmd_run_nonzero|]. cbn beta iota.
  apply Z.eqb_neq in Hexit. rewrite Hexit. cbn [negb].
  eapply runs_bind; [apply runs_emit | apply runs_ret].
Qed.

(** X6. Success. A series whose patches all apply, with checks uploaded, a
    push that works and a forge that accepts: every patch is applied and
    gets its pass check at once, in series order; then the branch is
    pushed and one pull request is created, with the series tag and name
    as title, the content of the first patch as body, the base branch of
    the command line as base and the series id as head.  No mail is
    sent. *)
Theorem main_apply_series_success (E : Env) (args : Args) (config : Config)
    (id : Z) (series : Series) (series_dir : string) (first : Patch)
    (others : list Patch) (w : World) :
  series_patches series = first :: others ->
  accepts_checks E ->
  Forall (applies E args series_dir) (series_patches series) ->
  uploads args (environ w) = true ->
  succeeds E (push_cmd id) (args_src_dir args) ->
  patch_served E (patch_id first) ->
  forge_willing E ->
  exists new body,
    runs (main_apply_series E args config id series series_dir) w (Ok tt) new /\
    steps new =
      (pass_steps series_dir (series_patches series)
       ++ [StepCmd (push_cmd id)])%list /\
    forge_changes new =
      [EvCreatePull (created_title series) body (args_branch args)
         (PyStr.str id)] /\
    (exists w', body = patch_content
                         (payload (tracker_patch E w' (patch_url (patch_id first))))) /\
    mails new = [].
Proof.
  intros Hpatches Haccept Happly Huploads Hpush Hserved Hforge.
  assert (Hdry : args_dry_run args = false).
  { unfold uploads in Huploads. now destruct (args_dry_run args). }
  destruct (main_apply_patches_all E args series_dir (series_patches series)
              Haccept Happly w) as (o & n1 & Hrun1 & -> & Hs1 & Hf1 & Hm1).
  unfold check_steps in Hs1. rewrite Huploads in Hs1.
  set (w1 := add_events n1 w).
  set (w2 := add_events [EvCmd (push_cmd id) (args_src_dir args)] w1).
  set (body := patch_content
                 (payload (tracker_patch E w2 (patch_url (patch_id first))))).
  set (pull := EvCreatePull (created_title series) body (args_branch args)
                 (PyStr.str id)).
  exists (n1 ++ [EvCmd (push_cmd id) (args_src_dir args)]
             ++ [EvGet (patch_url (patch_id first))] ++ [pull])%list, body.
  split; [|split; [|split; [|split]]].
  - unfold main_apply_series.
    eapply runs_bind; [exact Hrun1|]. cbn beta iota.
    unfold main_publish. cbn [negb]. rewrite Hdry.
    eapply runs_bind; [apply git_push_ok, Hpush|]. cbn [negb].
    unfold create_pr. rewrite Hpatches.
    eapply runs_bind; [apply pw_get_patch_ok, Hserved|].
    apply forge_call_ok, Hforge.
  - rewrite steps_app, Hs1. reflexivity.
  - rewrite forge_changes_app, Hf1. reflexivity.
  - now exists w2.
  - rewrite mails_app, Hm1. reflexivity.
Qed.

Lemma applies_commands (broken : list string -> bool) (args : Args)
    (series_dir : string) (patch : Patch) :
  broken (git_am_cmd series_dir patch) = false ->
  applies (Scenario.commands broken) args series_dir patch.
Proof.
  intros Hok. split; intros w; [reflexivity|].
  cbn [Scenario.commands Fixture.build popen]. now rewrite Hok.
Defined.

Lemma main_apply_series_success_witness :
  exists new body,
    runs (main_apply_series (Scenario.commands (fun _ => false))
            (Fixture.args false) Fixture.config 1 Fixture.two_patches
            "/tmp/root/1")
      (Fixture.world Fixture.tokens) (Ok tt) new /\
    steps new =
      [StepCmd ["git"; "am"; "/tmp/root/1/11.patch"]; StepCheck (check_url 11) 1;
       StepCmd ["git"; "am"; "/tmp/root/1/12.patch"]; StepCheck (check_url 12) 1;
       StepCmd ["git"; "push"; "origin"; "1"]] /\
    forge_changes new =
      [EvCreatePull "[PW_SID:1] a series of two" body "workflow" "1"] /\
    (exists w', body = patch_content
                         (payload (tracker_patch (Scenario.commands (fun _ => false))
                                     w' (patch_url 11)))) /\
    mails new = [].
Proof.
  apply (main_apply_series_success (Scenario.commands (fun _ => false))
           (Fixture.args false) Fixture.config 1 Fixture.two_patches
           "/tmp/root/1" (Fixture.patch 11 "" [1]) [Fixture.patch 12 "" [1]]
           (Fixture.world Fixture.tokens)).
  - reflexivity.
  - intros w url headers content. reflexivity.
  - repeat constructor.
  - reflexivity.
  - intros w. reflexivity.
  - intros w. reflexivity.
  - intros w ev. reflexivity.
Defined.

(** ** A push that fails *)

(** X7. When the patches all apply but [git push] fails, the pass checks are
    already posted; the turn creates no pull request, sends no mail and
    ends normally, so the loop goes on with the next series. *)
Theorem main_apply_series_push_fails (E : Env) (args : Args) (config : Config)
    (id : Z) (series : Series) (series_dir : string) (w : World) :
  accepts_checks E ->
  Forall (applies E args series_dir) (series_patches series) ->
  uploads args (environ w) = true ->
  fails E (push_cmd id) (args_src_dir args) ->
  exists new,
    runs (main_apply_series E args config id series series_dir) w (Ok tt) new /\
    steps new =
      (pass_steps series_dir (series_patches series)
       ++ [StepCmd (push_cmd id)])%list /\
    forge_changes new = [] /\
    mails new = [].
Proof.
  intros Haccept Happly Huploads Hpush.
  assert (Hdry : args_dry_run args = false).
  { unfold uploads in Huploads. now destruct (args_dry_run args). }
  destruct (main_apply_patches_all E args series_dir (series_patches series)
              Haccept Happly w) as (o & n1 & Hrun1 & -> & Hs1 & Hf1 & Hm1).
  unfold check_steps in Hs1. rewrite Huploads in Hs1.
  exists (n1 ++ [EvCmd (push_cmd id) (args_src_dir args);
                 EvLog "ERROR: failed to push"]
             ++ [EvLog "ERROR: Failed to push the source to github"]
             ++ [EvLog "ERROR: Skip creating Pull Request"])%list.
  split; [|split; [|split]].
  - unfold main_apply_series.
    eapply runs_bind; [exact Hrun1|]. cbn beta iota.
    unfold main_publish. cbn [negb]. rewrite Hdry.
    eapply runs_bind; [apply git_push_ko, Hpush|]. cbn [negb].
    eapply runs_bind; [apply runs_emit | apply runs_emit].
  - rewrite steps_app, Hs1. reflexivity.
  - rewrite forge_changes_app, Hf1. reflexivity.
  - rewrite mails_app, Hm1. reflexivity.
Qed.

Lemma main_apply_series_push_fails_witness :
  exists new,
    runs (main_apply_series
            (Scenario.commands (Scenario.is_cmd (push_cmd 1)))
            (Fixture.args false) Fixture.config 1 Fixture.two_patches
            "/tmp/root/1")
      (Fixture.world Fixture.tokens) (Ok tt) new /\
    steps new =
      [StepCmd ["git"; "am"; "/tmp/root/1/11.patch"]; StepCheck (check_url 11) 1;
       StepCmd ["git"; "am"; "/tmp/root/1/12.patch"]; StepCheck (check_url 12) 1;
       StepCmd ["git"; "push"; "origin"; "1"]] /\
    forge_changes new = [] /\
    mails new = [].
Proof.
  apply (main_apply_series_push_fails
           (Scenario.commands (Scenario.is_cmd (push_cmd 1)))
           (Fixture.args false) Fixture.config 1 Fixture.two_patches
           "/tmp/root/1" (Fixture.world Fixture.tokens)).
  - intros w url headers content. reflexivity.
  - repeat constructor.
  - reflexivity.
  - intros w. vm_compute. discriminate.
Defined.

(** ** A checkout that fails *)

Lemma create_series_dir_post (E : Env) (id : Z) (root_dir : string) (w : World) :
  post (create_series_dir E id root_dir) w
    (fun o new =>
       o = Ok (os_path_join root_dir (PyStr.str id)) /\
       steps new = [] /\ gets new = [] /\ forge_changes new = [] /\
       mails new = []).
Proof.
  unfold create_series_dir.
  step ltac:(apply runs_observe).
  destruct (path_exists E _ _); cbn [negb].
  - step ltac:(apply runs_ret). known ltac:(apply runs_ret). now repeat split.
  - step ltac:(apply runs_emit). known ltac:(apply runs_ret). now repeat split.
Qed.

Lemma git_checkout_ok (E : Env) (branch cwd : string)
    (create_branch : bool) (w : World) :
  let cmd := if create_branch then ["git"; "checkout"; "-b"; branch]
             else ["git"; "checkout"; branch] in
  fst (fst (popen E w cmd cwd)) = 0 ->
  runs (git_checkout E branch cwd create_branch) w (Ok true) [EvCmd cmd cwd].
Proof.
  intros cmd Hexit. unfold git_checkout.
  replace (if create_branch then (["git"; "checkout"] ++ ["-b"; branch])%list
           else (["git"; "checkout"] ++ [branch])%list) with cmd
    by (now destruct create_branch).
  rewrite <- (app_nil_r [EvCmd _ _]).
  eapply runs_bind; [now apply cmd_run_zero|]. apply runs_ret.
Qed.

Lemma git_checkout_ko (E : Env) (branch cwd : string) (create_branch : bool)
    (w : World) :
  let cmd := if create_branch then ["git"; "checkout"; "-b"; branch]
             else ["git"; "checkout"; branch] in
  fst (fst (popen E w cmd cwd)) <> 0 ->
  runs (git_checkout E branch cwd create_branch) w (Ok false)
    [EvCmd cmd cwd; EvLog "ERROR: failed to checkout"].
Proof.
  intros cmd Hexit. unfold git_checkout.
  replace (if create_branch then (["git"; "checkout"] ++ ["-b"; branch])%list
           else (["git"; "checkout"] ++ [branch])%list) with cmd
    by (now destruct create_branch).
  change [EvCmd cmd cwd; EvLog "ERROR: failed to checkout"]
    with ([EvCmd cmd cwd] ++ [EvLog "ERROR: failed to checkout"] ++ [])%list.
  eapply runs_bind; [now apply cmd_run_nonzero|]. cbn beta iota.
  apply Z.eqb_neq in Hexit. rewrite Hexit. cbn [negb].
  eapply runs_bind; [apply runs_emit | apply runs_ret].
Qed.

(** X8. When the checkout of the base branch fails, or the creation of the
    branch of the series does (the branch may exist already), the turn
    stops there: it has run the failed checkouts only, has fetched no
    mailbox, applied no patch, posted no check, and touches neither forge
    nor mail; it ends normally. *)
Theorem main_build_series_checkout_fails (E : Env) (args : Args)
    (config : Config) (temp_root_dir : string) (id : Z) (series : Series)
    (w : World) :
  let base := ["git"; "checkout"; args_branch args] in
  let create := ["git"; "checkout"; "-b"; PyStr.str id] in
  (fails E base (args_src_dir args) ->
   exists new,
     runs (main_build_series E args config temp_root_dir id series) w (Ok tt) new /\
     steps new = [StepCmd base] /\
     gets new = [] /\ forge_changes new = [] /\ mails new = []) /\
  (succeeds E base (args_src_dir args) ->
   fails E create (args_src_dir args) ->
   exists new,
     runs (main_build_series E args config temp_root_dir id series) w (Ok tt) new /\
     steps new = [StepCmd base; StepCmd create] /\
     gets new = [] /\ forge_changes new = [] /\ mails new = []).
Proof.
  intros base create.
  destruct (create_series_dir_post E id temp_root_dir w)
    as (o & n0 & Hrun0 & -> & Hs0 & Hg0 & Hf0 & Hm0).
  split.
  - intros Hbase.
    exists (n0 ++ [EvCmd base (args_src_dir args);
                   EvLog "ERROR: failed to checkout"]
               ++ [EvLog ("ERROR: Failed: git checkout " ++ args_branch args)])%list.
    split.
    + unfold main_build_series.
      eapply runs_bind; [exact Hrun0|].
      eapply runs_bind.
      * apply (git_checkout_ko E (args_branch args) (args_src_dir args) false).
        apply Hbase.
      * cbn [negb]. apply runs_emit.
    + unfold gets, forge_changes, mails in *.
      rewrite steps_app, !filter_app, Hs0, Hg0, Hf0, Hm0. now repeat split.
  - intros Hbase Hcreate.
    exists (n0 ++ [EvCmd base (args_src_dir args)]
               ++ [EvCmd create (args_src_dir args);
                   EvLog "ERROR: failed to checkout"]
               ++ [EvLog ("ERROR: Failed: git checkout -b " ++ PyStr.str id)])%list.
    split.
    + unfold main_build_series.
      eapply runs_bind; [exact Hrun0|].
      eapply runs_bind.
      * apply (git_checkout_ok E (args_branch args) (args_src_dir args) false).
        apply Hbase.
      * cbn [negb].
        eapply runs_bind.
        -- apply (git_checkout_ko E (PyStr.str id) (args_src_dir args) true).
           apply Hcreate.
        -- cbn [negb]. apply runs_emit.
    + unfold gets, forge_changes, mails in *.
      rewrite steps_app, !filter_app, Hs0, Hg0, Hf0, Hm0. now repeat split.
Qed.

Lemma main_build_series_checkout_fails_witness :
  (exists new,
     runs (main_build_series
             (Scenario.commands (Scenario.is_cmd ["git"; "checkout"; "workflow"]))
             (Fixture.args false) Fixture.config "/tmp/root" 1 Fixture.two_patches)
       (Fixture.world Fixture.tokens) (Ok tt) new /\
     steps new = [StepCmd ["git"; "checkout"; "workflow"]] /\
     gets new = [] /\ forge_changes new = [] /\ mails new = []) /\
  (exists new,
     runs (main_build_series
             (Scenario.commands (Scenario.is_cmd ["git"; "checkout"; "-b"; "1"]))
             (Fixture.args false) Fixture.config "/tmp/root" 1 Fixture.two_patches)
       (Fixture.world Fixture.tokens) (Ok tt) new /\
     steps new = [StepCmd ["git"; "checkout"; "workflow"];
                  StepCmd ["git"; "checkout"; "-b"; "1"]] /\
     gets new = [] /\ forge_changes new = [] /\ mails new = []).
Proof.
  split.
  - apply (proj1 (main_build_series_checkout_fails
             (Scenario.commands (Scenario.is_cmd ["git"; "checkout"; "workflow"]))
             (Fixture.args false) Fixture.config "/tmp/root" 1
             Fixture.two_patches (Fixture.world Fixture.tokens))).
    intros w. vm_compute. discriminate.
  - apply (proj2 (main_build_series_checkout_fails
             (Scenario.commands (Scenario.is_cmd ["git"; "checkout"; "-b"; "1"]))
             (Fixture.args false) Fixture.config "/tmp/root" 1
             Fixture.two_patches (Fixture.world Fixture.tokens))).
    + intros w. reflexivity.
    + intros w. vm_compute. discriminate.
Defined.

(** ** What the flags and the tokens gate *)

Lemma keeps_ret {A} env Q (a : A) : keeps env Q (ret a).
Proof. intros w _. exists (Ok a), []. split; [apply runs_ret | constructor]. Qed.

Lemma keeps_raise {A} env Q (e : Exn) : keeps env Q (@raise A e).
Proof. intros w _. exists (Raise e), []. split; [apply runs_raise | constructor]. Qed.

Lemma keeps_emit env (Q : Event -> Prop) (ev : Event) :
  Q ev -> keeps env Q (emit ev).
Proof.
  intros H w _. exists (Ok tt), [ev]. split; [apply runs_emit | now repeat constructor].
Qed.

Lemma keeps_bind {A B} env Q (m : M A) (k : A -> M B) :
  keeps env Q m -> (forall a, keeps env Q (k a)) -> keeps env Q (bind m k).
Proof.
  intros Hm Hk w Henv. destruct (Hm w Henv) as (o & n1 & Hrun & Hall).
  destruct o as [a | e |].
  - destruct (Hk a (add_events n1 w) Henv) as (o' & n2 & Hrun' & Hall').
    exists o', (n1 ++ n2)%list. split; [eapply runs_bind; eassumption|].
    apply Forall_app; now split.
  - exists (Raise e), n1. split; [now apply runs_bind_raise | assumption].
  - exists Diverge, n1. split; [now apply runs_bind_diverge | assumption].
Qed.

(** Reading [os.environ] gives the environment the run started in. *)
Lemma keeps_environ {B} env Q (k : list (string * string) -> M B) :
  keeps env Q (k env) -> keeps env Q (bind (observe environ) k).
Proof.
  intros Hk w Henv. destruct (Hk w Henv) as (o & new & Hrun & Hall).
  exists o, new. split; [|exact Hall].
  change new with ([] ++ new)%list.
  eapply runs_bind; [apply runs_observe|]. rewrite add_events_nil, Henv.
  exact Hrun.
Qed.

Lemma keeps_observe {A} env Q (q : World -> A) : keeps env Q (observe q).
Proof.
  intros w _. exists (Ok (q w)), []. split; [apply runs_observe | constructor].
Qed.

Lemma keeps_emits {A} env (P Q : Event -> Prop) (m : M A) :
  (forall ev, P ev -> Q ev) -> emits P m -> keeps env Q m.
Proof.
  intros HPQ Hm w _. destruct (Hm w) as (o & new & Hrun & Hall).
  exists o, new. split; [exact Hrun|]. eapply Forall_impl; eassumption.
Qed.

Section Gates.

Variable E : Env.
Variable args : Args.
Variable config : Config.
Variable env : list (string * string).

Let Q := permitted args config env.

Lemma reads_permitted (ev : Event) : is_read_or_log ev -> Q ev.
Proof. destruct ev; cbn; try contradiction; trivial. Qed.

Lemma keeps_reads {A} (m : M A) : emits is_read_or_log m -> keeps env Q m.
Proof. apply keeps_emits, reads_permitted. Qed.

Lemma keeps_cmd_run (cmd : list string) (cwd : string) :
  (is_push (StepCmd cmd) = true -> args_dry_run args = false) ->
  keeps env Q (cmd_run E cmd cwd).
Proof.
  intros Hcmd w _. unfold cmd_run, runs.
  destruct (popen E w cmd cwd) as [[rc out] err].
  destruct (negb (rc =? 0)); eexists _, [EvCmd cmd cwd];
    (split; [reflexivity | repeat constructor; exact Hcmd]).
Qed.

Lemma keeps_git_checkout (branch cwd : string) (create_branch : bool) :
  keeps env Q (git_checkout E branch cwd create_branch).
Proof.
  unfold git_checkout. apply keeps_bind.
  - apply keeps_cmd_run. destruct create_branch; discriminate.
  - intros [[rc out] err]. destruct (negb (rc =? 0)); [|apply keeps_ret].
    apply keeps_bind; [now apply keeps_emit | intros _; apply keeps_ret].
Qed.

Lemma keeps_main_submit_check (patch_id state : Z) (description : string) :
  state = 1 \/ state = 3 ->
  keeps env Q (main_submit_check E args patch_id state description).
Proof.
  intros Hstate. unfold main_submit_check.
  destruct (args_dry_run args) eqn:Hdry; [apply keeps_ret|].
  destruct (args_no_update_check args) eqn:Hnoup; [apply keeps_ret|].
  apply keeps_bind; [|intros _; apply keeps_ret].
  unfold pw_submit_check. apply keeps_environ.
  destruct (dict_get String.eqb env "PATCHWORK_TOKEN") as [token|] eqn:Htoken.
  - apply keeps_bind; [|intros req; apply keeps_ret].
    unfold requests_post. apply keeps_bind.
    + intros w _. eexists _, [_]. split; [reflexivity|].
      constructor; [|constructor]. cbn.
      repeat split; try assumption.
      unfold dict_mem. now rewrite Htoken.
    + intros resp. destruct (negb (status_code resp =? 201));
        [apply keeps_raise | apply keeps_ret].
  - apply keeps_bind; [now apply keeps_emit | intros _; apply keeps_ret].
Qed.

Lemma keeps_main_apply_patches (series_dir : string) (patches : list Patch) :
  keeps env Q (main_apply_patches E args series_dir patches).
Proof.
  induction patches as [|patch rest IH]; cbn [main_apply_patches].
  - apply keeps_ret.
  - apply keeps_bind; [apply keeps_reads, emits_requests_url|]. intros resp.
    apply keeps_bind; [now apply keeps_emit|]. intros _.
    apply keeps_bind; [apply keeps_cmd_run; discriminate|].
    intros [[rc out] err]. destruct (negb (rc =? 0)).
    + apply keeps_bind; [apply keeps_main_submit_check; now right|]. intros _.
      apply keeps_bind; [apply keeps_cmd_run; discriminate|]. intros _.
      apply keeps_ret.
    + apply keeps_bind; [apply keeps_main_submit_check; now left|]. intros _.
      exact IH.
Qed.

Lemma keeps_email_compose (series : Series) (content : string) :
  args_dry_run args = false ->
  keeps env Q (email_compose E (config_email config) series content).
Proof.
  intros Hdry. unfold email_compose.
  destruct (email_enable (config_email config)) eqn:Henable;
    [|apply keeps_ret]. cbn [negb].
  destruct (series_name series); [|apply keeps_raise].
  destruct (series_patches series); [apply keeps_raise|].
  unfold email_sendmail. apply keeps_environ.
  destruct (dict_mem String.eqb env "EMAIL_TOKEN") eqn:Htoken; cbn [negb];
    [|now apply keeps_emit].
  apply keeps_bind; [apply keeps_observe|].
  intros [| e | e].
  - apply keeps_emit. cbn. now repeat split.
  - now apply keeps_emit.
  - apply keeps_bind; [now apply keeps_emit | intros _; apply keeps_raise].
Qed.

Lemma keeps_forge_call (ev : Event) : Q ev -> keeps env Q (forge_call E ev).
Proof.
  intros Hev w _. unfold forge_call, runs.
  destruct (forge_accepts E w ev).
  - exists (Ok tt), [ev]. split; [reflexivity | now repeat constructor].
  - exists (Raise GithubException), []. split; [|constructor].
    now rewrite add_events_nil.
Qed.

Lemma keeps_main_publish (id : Z) (series : Series) (verdict : bool)
    (content : string) :
  keeps env Q (main_publish E args config id series verdict content).
Proof.
  unfold main_publish. destruct verdict; cbn [negb];
    (destruct (args_dry_run args) eqn:Hdry; [apply keeps_ret|]).
  - apply keeps_bind.
    + unfold git_push. apply keeps_bind; [now apply keeps_cmd_run|].
      intros [[rc out] err]. destruct (negb (rc =? 0)); [|apply keeps_ret].
      apply keeps_bind; [now apply keeps_emit | intros _; apply keeps_ret].
    + intros pushed. destruct (negb pushed).
      * apply keeps_bind; [now apply keeps_emit | intros _; now apply keeps_emit].
      * unfold create_pr. destruct (series_patches series); [apply keeps_raise|].
        apply keeps_bind; [apply keeps_reads, emits_pw_get_patch|].
        intros patch_1. now apply keeps_forge_call.
  - now apply keeps_email_compose.
Qed.

Lemma keeps_main_series (github_pulls : list PullRequest)
    (temp_root_dir : string) (id : Z) (series : Series) :
  keeps env Q (main_series E args config github_pulls temp_root_dir id series).
Proof.
  unfold main_series. apply keeps_bind.
  { destruct (negb (args_ignore_check args));
      [apply keeps_reads, emits_series_checked | apply keeps_ret]. }
  intros checked. destruct checked; [apply keeps_ret|].
  unfold main_series_unchecked. apply keeps_bind.
  { destruct (series_name series); [apply keeps_ret|].
    destruct (series_patches series); [apply keeps_raise | apply keeps_ret]. }
  intros series'.
  destruct (dict_get String.eqb (config_repo_details config) (args_key_str args));
    [|apply keeps_raise].
  apply keeps_bind; [apply keeps_reads, emits_filter_repo_type|].
  intros relevant. destruct (negb relevant); [apply keeps_ret|].
  destruct (github_pr_exist github_pulls id); [apply keeps_ret|].
  unfold main_build_series. apply keeps_bind.
  { unfold create_series_dir. apply keeps_bind; [apply keeps_observe|].
    intros present. apply keeps_bind; [|intros _; apply keeps_ret].
    destruct (negb present); [now apply keeps_emit | apply keeps_ret]. }
  intros series_dir.
  apply keeps_bind; [apply keeps_git_checkout|].
  intros ok. destruct (negb ok); [now apply keeps_emit|].
  apply keeps_bind; [apply keeps_git_checkout|].
  intros ok'. destruct (negb ok'); [now apply keeps_emit|].
  unfold main_apply_series.
  apply keeps_bind; [apply keeps_main_apply_patches|].
  intros [verdict content]. apply keeps_main_publish.
Qed.

Lemma keeps_main_series_loop (github_pulls : list PullRequest)
    (temp_root_dir : string) (new_series : list (Z * Series)) :
  keeps env Q (main_series_loop E args config github_pulls temp_root_dir new_series).
Proof.
  induction new_series as [|[id series] rest IH]; cbn [main_series_loop].
  - apply keeps_ret.
  - apply keeps_bind; [apply keeps_main_series | intros _; exact IH].
Qed.

Lemma keeps_main_cleanup (new_series : list (Z * Series))
    (github_pulls : list PullRequest) :
  keeps env Q (main_cleanup E args new_series github_pulls).
Proof.
  induction github_pulls as [|pr rest IH]; cbn [main_cleanup].
  - apply keeps_ret.
  - apply keeps_bind; [|intros _; exact IH].
    unfold main_cleanup_pr. apply keeps_bind.
    { unfold get_pw_sid. destruct (search_pw_sid (pull_title pr));
        [apply keeps_ret|].
      apply keeps_bind; [now apply keeps_emit | intros _; apply keeps_ret]. }
    intros pw_sid. destruct (dict_mem Z.eqb new_series pw_sid); [apply keeps_ret|].
    destruct (args_dry_run args) eqn:Hdry; [apply keeps_ret|].
    unfold github_close_pr. apply keeps_bind; [apply keeps_observe|].
    intros [found|]; [|apply keeps_raise].
    apply keeps_bind; [now apply keeps_forge_call|]. intros _.
    apply keeps_bind; [apply keeps_observe|].
    intros present. destruct present; [now apply keeps_forge_call | apply keeps_raise].
Qed.

Lemma emits_pw_get_patches_by_state_loop (fuel : nat) :
  forall url patches,
    emits is_read_or_log (pw_get_patches_by_state_loop E fuel url patches).
Proof.
  induction fuel as [|fuel IH]; intros url patches;
    cbn [pw_get_patches_by_state_loop].
  - apply emits_diverge.
  - apply emits_bind; [apply emits_requests_url|]. intros resp.
    destruct (links_next resp); [apply IH | apply emits_ret].
Qed.

Lemma emits_get_new_series (fuel : nat) (states : list string) :
  emits is_read_or_log (get_new_series E fuel states).
Proof.
  assert (Hseries : forall id, emits is_read_or_log (pw_get_series E id)).
  { intros id. unfold pw_get_series.
    apply emits_bind; [apply emits_requests_url | intros resp; apply emits_ret]. }
  assert (Hinner : forall refs d,
            emits is_read_or_log (get_new_series_of_patch E refs d)).
  { induction refs as [|id rest IH]; intros d; cbn [get_new_series_of_patch].
    - apply emits_ret.
    - destruct (negb (dict_mem Z.eqb d id)); [|apply IH].
      apply emits_bind; [apply Hseries | intros detail; apply IH]. }
  assert (Houter : forall patches d,
            emits is_read_or_log (get_new_series_loop E patches d)).
  { induction patches as [|patch rest IH]; intros d; cbn [get_new_series_loop].
    - apply emits_ret.
    - destruct (patch_series patch); [|apply IH].
      apply emits_bind; [apply Hinner | intros d'; apply IH]. }
  unfold get_new_series, pw_get_patches_by_state.
  apply emits_bind; [apply emits_pw_get_patches_by_state_loop|].
  intros patches. destruct (List.length patches =? 0)%nat;
    [apply emits_ret | apply Houter].
Qed.

End Gates.

(** X9. Gates. Whatever the tracker, git and the forge answer, every event of a
    run of [main] is permitted by the flags, the configuration and the
    environment it started with: a check is posted only without
    [--dry-run] and [--no-update-check] and with [PATCHWORK_TOKEN], and is
    a pass or a fail of [pre-ci_am]; [git push], the creation and the
    closing of a pull request and the deletion of a branch happen only
    without [--dry-run]; a mail is sent only without [--dry-run], with mail
    enabled and with [EMAIL_TOKEN]; and nothing but error reports happens
    without [GITHUB_TOKEN]. *)
Theorem main_respects_gates (E : Env) (fuel : nat) (args : Args)
    (config : Config) (temp_root_dir : string) (w : World) :
  exists o new,
    runs (main E fuel args (Some config) temp_root_dir) w o new /\
    Forall (allowed args config (environ w)) new.
Proof.
  set (env := environ w).
  assert (Hmain : keeps env (allowed args config env)
                    (main E fuel args (Some config) temp_root_dir)).
  { unfold main.
    destruct (negb (args_key_str args =? "kernel")%string &&
              negb (args_key_str args =? "user")%string)%bool.
    { apply keeps_bind; [now apply keeps_emit | intros _; apply keeps_raise]. }
    destruct (dict_get String.eqb env "GITHUB_TOKEN") as [token|] eqn:Htoken.
    2:{ intros w' Hw'. exists (Raise (KeyError "GITHUB_TOKEN")), [].
        split; [|constructor].
        apply runs_bind_raise. unfold init_github.
        change (@nil Event) with (@nil Event ++ [])%list.
        eapply runs_bind; [apply runs_observe|].
        rewrite add_events_nil, Hw', Htoken. apply runs_raise. }
    assert (Hgate : forall ev, permitted args config env ev ->
                               allowed args config env ev).
    { intros ev Hev. unfold allowed, dict_mem. rewrite Htoken.
      destruct ev; try exact I; now split. }
    assert (Hlift : forall A (m : M A),
              keeps env (permitted args config env) m ->
              keeps env (allowed args config env) m).
    { intros A m Hm w' Hw'. destruct (Hm w' Hw') as (o & new & Hrun & Hall).
      exists o, new. split; [exact Hrun|]. eapply Forall_impl; eassumption. }
    apply Hlift.
    apply keeps_bind.
    { unfold init_github. apply keeps_environ. rewrite Htoken.
      apply keeps_observe. }
    intros github_pulls.
    apply keeps_bind; [apply keeps_reads, emits_get_new_series|].
    intros new_series. destruct (List.length new_series =? 0)%nat;
      [apply keeps_ret|].
    apply keeps_bind; [apply keeps_main_series_loop|]. intros _.
    apply keeps_main_cleanup. }
  exact (Hmain w eq_refl).
Qed.

(** ** Pages that fail, pages that never end *)

(** Reading a chain of linked pages takes one unit of fuel for each page;
    with less, the loop is still reading when the fuel is gone. *)
Lemma pw_get_patches_by_state_loop_links (E : Env)
    (chain : list (string * list Patch)) (onward : string) :
  links_to E chain onward ->
  forall (fuel : nat) (acc : list Patch) (w : World),
    ((fuel < List.length chain)%nat ->
     exists new,
       runs (pw_get_patches_by_state_loop E fuel (first_url chain onward) acc) w
         Diverge new /\
       List.length new = fuel) /\
    ((List.length chain <= fuel)%nat ->
     pw_get_patches_by_state_loop E fuel (first_url chain onward) acc w =
     pw_get_patches_by_state_loop E (fuel - List.length chain) onward
       (acc ++ all_pages chain)%list (add_events (page_gets chain) w)).
Proof.
  induction chain as [|[url page] rest IH]; intros Hlinks fuel acc w.
  - split; [cbn; lia|]. intros _. cbn [List.length first_url page_gets map].
    unfold all_pages. cbn [map List.concat].
    now rewrite Nat.sub_0_r, app_nil_r, add_events_nil.
  - destruct Hlinks as [Hpage Hrest]. cbn [first_url List.length].
    destruct fuel as [|fuel].
    { split; [|lia]. intros _. exists []. split; [|reflexivity].
      unfold runs. cbn [pw_get_patches_by_state_loop]. unfold diverge.
      now rewrite add_events_nil. }
    assert (Hstep : forall k,
              pw_get_patches_by_state_loop E (S k) url acc w =
              pw_get_patches_by_state_loop E k (first_url rest onward)
                (acc ++ page)%list (add_events [EvGet url] w)).
    { intros k. cbn [pw_get_patches_by_state_loop].
      unfold bind at 1.
      rewrite (requests_url_ok (tracker_patches E) url w)
        by (now rewrite Hpage).
      now rewrite Hpage. }
    destruct (IH Hrest fuel (acc ++ page)%list (add_events [EvGet url] w))
      as [Hshort Hlong].
    split.
    + intros Hlt. destruct Hshort as (new & Hrun & Hlen); [lia|].
      exists (EvGet url :: new). split; [|cbn; lia].
      unfold runs. rewrite Hstep. unfold runs in Hrun. rewrite Hrun.
      now rewrite add_events_app.
    + intros Hle. rewrite Hstep, Hlong by lia.
      cbn [Nat.sub page_gets map fst]. unfold all_pages. cbn [map List.concat snd].
      fold (all_pages rest). fold (page_gets rest).
      now rewrite add_events_app, <- List.app_assoc.
Qed.

(** X10. A page that the tracker refuses. When the pages of [chain] are served
    and link on to a page that is answered with a status other than 200,
    [pw_get_patches_by_state] raises the [HTTPError] of that status after
    having requested every page once: the patches of the pages already read
    are not returned. *)
Theorem pw_get_patches_by_state_refused (E : Env) (states : list string)
    (chain : list (string * list Patch)) (refused : string) (status : Z)
    (fuel : nat) (w : World) :
  links_to E chain refused ->
  first_url chain refused = patches_url states ->
  (forall w', status_code (tracker_patches E w' refused) = status) ->
  status <> 200 ->
  (List.length chain < fuel)%nat ->
  runs (pw_get_patches_by_state E fuel states) w
    (Raise (HTTPError ("GET " ++ PyStr.str status)))
    (page_gets chain ++ [EvGet refused]).
Proof.
  intros Hlinks Hfirst Hstatus Hne Hfuel.
  unfold pw_get_patches_by_state, runs. rewrite <- Hfirst.
  destruct (pw_get_patches_by_state_loop_links E chain refused Hlinks fuel [] w)
    as [_ Hlong].
  rewrite Hlong by lia.
  destruct (fuel - List.length chain)%nat as [|k] eqn:Hk; [lia|].
  cbn [pw_get_patches_by_state_loop]. unfold bind.
  rewrite (requests_url_fail (tracker_patches E) refused)
    by (now rewrite Hstatus).
  now rewrite Hstatus, add_events_app.
Qed.

Lemma pw_get_patches_by_state_refused_witness :
  runs (pw_get_patches_by_state Scenario.second_page_refused 5 ["1"; "2"])
    (Fixture.world []) (Raise (HTTPError "GET 503"))
    [EvGet (patches_url ["1"; "2"]); EvGet "https://tracker/page/2"].
Proof.
  apply (pw_get_patches_by_state_refused Scenario.second_page_refused
           ["1"; "2"] [(patches_url ["1"; "2"], Fixture.page_1)]
           "https://tracker/page/2" 503 5 (Fixture.world [])).
  - split; [intros w; reflexivity | exact I].
  - reflexivity.
  - intros w. reflexivity.
  - discriminate.
  - simpl; lia.
Defined.

(** X11. Pages in a circle. When the last page of a chain links back to the
    first, the loop of [pw_get_patches_by_state] has no end: whatever the
    fuel, the model is still requesting pages when it runs out, one
    request for each unit of fuel. *)
Theorem pw_get_patches_by_state_circle (E : Env) (states : list string)
    (chain : list (string * list Patch)) (w : World) :
  chain <> [] ->
  links_to E chain (patches_url states) ->
  first_url chain (patches_url states) = patches_url states ->
  forall fuel,
    exists new,
      runs (pw_get_patches_by_state E fuel states) w Diverge new /\
      List.length new = fuel.
Proof.
  intros Hne Hlinks Hfirst fuel. unfold pw_get_patches_by_state.
  generalize (@nil Patch) as acc. revert w.
  induction fuel as [fuel IH] using (well_founded_induction lt_wf).
  intros w acc.
  destruct (pw_get_patches_by_state_loop_links E chain (patches_url states)
              Hlinks fuel acc w) as [Hshort Hlong].
  rewrite Hfirst in Hshort, Hlong.
  destruct (Nat.lt_ge_cases fuel (List.length chain)) as [Hlt | Hge].
  - now apply Hshort.
  - assert (Hpos : (0 < List.length chain)%nat).
    { destruct chain; [congruence | cbn; lia]. }
    destruct (IH (fuel - List.length chain)%nat ltac:(lia)
                (add_events (page_gets chain) w) (acc ++ all_pages chain)%list)
      as (new & Hrun & Hlen).
    exists (page_gets chain ++ new)%list. split.
    + unfold runs in *. rewrite Hlong by exact Hge. rewrite Hrun.
      now rewrite add_events_app.
    + rewrite length_app, Hlen. unfold page_gets. rewrite length_map. lia.
Qed.

Lemma pw_get_patches_by_state_circle_witness :
  exists new,
    runs (pw_get_patches_by_state Scenario.looping 7 ["1"; "2"])
      (Fixture.world []) Diverge new /\
    List.length new = 7%nat.
Proof.
  apply (pw_get_patches_by_state_circle Scenario.looping ["1"; "2"]
           [(patches_url ["1"; "2"], Fixture.page_1)] (Fixture.world [])).
  - discriminate.
  - split; [intros w; reflexivity | exact I].
  - reflexivity.
Defined.

(** ** Failures that end the run *)

(** X12. Closing is two steps. When the head branch of an orphaned pull request
    is not on the forge any more, the clean-up loop closes the pull request
    and then ends with the exception of the forge library: the pull
    requests after it are not looked at in this run. *)
Theorem main_cleanup_stops_at_missing_branch (E : Env) (args : Args)
    (new_series : list (Z * Series)) (pr : PullRequest)
    (rest : list PullRequest) (digits : string) (w : World) :
  series_tag (pull_title pr) digits ->
  dict_mem Z.eqb new_series (PyStr.int_of_digits digits) = false ->
  args_dry_run args = false ->
  (forall w', forge_get_pull E w' (pull_number pr) = Some pr) ->
  (forall w' ev, forge_accepts E w' ev = true) ->
  (forall w', forge_get_git_ref E w' ("heads/" ++ pull_head_ref pr) = false) ->
  runs (main_cleanup E args new_series (pr :: rest)) w (Raise GithubException)
    [EvPullEdit (pull_number pr) "closed"].
Proof.
  intros Htag Hmem Hdry Hpull Haccept Hgone.
  cbn [main_cleanup]. apply runs_bind_raise. unfold main_cleanup_pr.
  change [EvPullEdit (pull_number pr) "closed"]
    with ([] ++ [] ++ [EvPullEdit (pull_number pr) "closed"] ++ [] ++ [])%list.
  eapply runs_bind; [exact (get_pw_sid_tagged _ _ w Htag)|].
  rewrite Hmem, Hdry. unfold github_close_pr.
  eapply runs_bind; [apply runs_observe|]. cbn beta. rewrite Hpull.
  eapply runs_bind; [apply forge_call_ok, Haccept|].
  eapply runs_bind; [apply runs_observe|]. cbn beta. rewrite Hgone.
  apply runs_raise.
Qed.

Lemma main_cleanup_stops_at_missing_branch_witness :
  runs (main_cleanup (Scenario.branches_gone Fixture.three_pulls)
          (Fixture.args false) [] Fixture.three_pulls)
    (Fixture.world Fixture.tokens) (Raise GithubException)
    [EvPullEdit 101 "closed"].
Proof.
  apply (main_cleanup_stops_at_missing_branch
           (Scenario.branches_gone Fixture.three_pulls) (Fixture.args false) []
           (Fixture.open_pull 101 "[PW_SID:1] first")
           [Fixture.open_pull 102 "[PW_SID:2] second";
            Fixture.open_pull 103 "[PW_SID:3] third"] "1"
           (Fixture.world Fixture.tokens)).
  - repeat split; [discriminate | now exists " first"].
  - reflexivity.
  - reflexivity.
  - intros w. reflexivity.
  - intros w ev. reflexivity.
  - intros w. reflexivity.
Defined.

(** X13. A tracker error is not confined to its series. When the request for
    the first patch of a series is answered with a status other than 200,
    the series loop ends with the [HTTPError] of that status: the series
    after it are not processed, and in [main] the clean-up loop does not
    run. *)
Theorem main_series_loop_aborts (E : Env) (args : Args) (config : Config)
    (github_pulls : list PullRequest) (temp_root_dir : string) (id : Z)
    (series : Series) (rest : list (Z * Series)) (first : Patch)
    (later : list Patch) (w : World) :
  args_ignore_check args = false ->
  series_patches series = first :: later ->
  status_code (tracker_patch E w (patch_url (patch_id first))) <> 200 ->
  runs (main_series_loop E args config github_pulls temp_root_dir
          ((id, series) :: rest)) w
    (Raise (HTTPError
       ("GET " ++ PyStr.str
          (status_code (tracker_patch E w (patch_url (patch_id first)))))))
    [EvGet (patch_url (patch_id first))].
Proof.
  intros Hflag Hpatches Hstatus.
  cbn [main_series_loop]. apply runs_bind_raise.
  unfold main_series. rewrite Hflag. cbn [negb]. apply runs_bind_raise.
  unfold series_checked. rewrite Hpatches. apply runs_bind_raise.
  unfold pw_get_patch. apply runs_bind_raise.
  now apply requests_url_fail.
Qed.

Lemma main_series_loop_aborts_witness :
  runs (main_series_loop Scenario.patches_gone (Fixture.args false)
          Fixture.config [] "/tmp/root"
          [(1, Fixture.two_patches); (2, Fixture.four_patches)])
    (Fixture.world Fixture.tokens) (Raise (HTTPError "GET 404"))
    [EvGet (patch_url 11)].
Proof.
  apply (main_series_loop_aborts Scenario.patches_gone (Fixture.args false)
           Fixture.config [] "/tmp/root" 1 Fixture.two_patches
           [(2, Fixture.four_patches)] (Fixture.patch 11 "" [1])
           [Fixture.patch 12 "" [1]] (Fixture.world Fixture.tokens)).
  - reflexivity.
  - reflexivity.
  - vm_compute. discriminate.
Defined.

(** ** Runs that do nothing *)

Lemma valid_key_test (args : Args) :
  valid_key args ->
  (negb (args_key_str args =? "kernel")%string &&
   negb (args_key_str args =? "user")%string)%bool = false.
Proof. intros [-> | ->]; reflexivity. Qed.




(** X15. No patch, no clean-up. When the tracker has no patch in the queried
    states, [main] returns after the one request for the patch list: the
    clean-up loop does not run, and every open pull request is left as it
    is, also those whose series are gone. *)
Theorem main_without_patches_closes_nothing (E : Env) (args : Args)
    (config : Config) (temp_root_dir : string) (fuel : nat) (w : World) :
  valid_key args ->
  dict_mem String.eqb (environ w) "GITHUB_TOKEN" = true ->
  (forall w', tracker_patches E w' (patches_url (args_patch_state args)) =
              {| status_code := 200; payload := []; links_next := None |}) ->
  exists new,
    runs (main E (S fuel) args (Some config) temp_root_dir) w (Ok tt) new /\
    new = [EvGet (patches_url (args_patch_state args))] /\
    forall pr, untouched pr new.
Proof.
  intros Hvalid Htoken Hempty.
  exists [EvGet (patches_url (args_patch_state args))].
  split; [|split; [reflexivity|]].
  - unfold main. rewrite (valid_key_test _ Hvalid).
    change [EvGet (patches_url (args_patch_state args))]
      with ([] ++ [EvGet (patches_url (args_patch_state args))] ++ [])%list.
    eapply runs_bind; [now apply init_github_run|].
    eapply runs_bind.
    + unfold get_new_series.
      rewrite <- (app_nil_r [EvGet _]).
      eapply runs_bind.
      * apply (pw_get_patches_by_state_loop_chain E
                 [(patches_url (args_patch_state args), [])]).
        -- exact Hempty.
        -- cbn; lia.
        -- reflexivity.
      * cbn. apply runs_ret.
    + cbn. apply runs_ret.
  - intros pr. split.
    + intros state [H | []]. discriminate H.
    + intros [H | []]. discriminate H.
Qed.

Lemma main_without_patches_closes_nothing_witness :
  exists new,
    runs (main (Fixture.forge Fixture.three_pulls) 1 (Fixture.args false)
            (Some Fixture.config) "/tmp/root")
      (Fixture.world Fixture.tokens) (Ok tt) new /\
    new = [EvGet (patches_url ["1"; "2"])] /\
    forall pr, untouched pr new.
Proof.
  apply (main_without_patches_closes_nothing (Fixture.forge Fixture.three_pulls)
           (Fixture.args false) Fixture.config "/tmp/root" 0
           (Fixture.world Fixture.tokens)).
  - now right.
  - reflexivity.
  - intros w. reflexivity.
Defined.

(** ** Files and endpoints of different patches *)

Lemma string_app_inv_tail (a b c : string) : a ++ c = b ++ c -> a = b.
Proof.
  revert b. induction a as [|x a IH]; intros b H.
  - destruct b as [|y b]; [reflexivity|]. exfalso.
    assert (Hlen := f_equal String.length H).
    cbn [append String.length] in Hlen. rewrite string_length_app in Hlen. lia.
  - destruct b as [|y b].
    + exfalso. assert (Hlen := f_equal String.length H).
      cbn [append String.length] in Hlen. rewrite string_length_app in Hlen. lia.
    + cbn [append] in H. inversion H as [[Hxy Hrest]]. f_equal. now apply IH.
Qed.

(** The name of a patch file is never an absolute path, so the file is
    placed under the directory of the series. *)
Lemma patch_path_shape (series_dir : string) (patch : Patch) :
  exists sep,
    patch_path series_dir patch =
    series_dir ++ sep ++ PyStr.str (patch_id patch) ++ ".patch" /\
    sep = (if (series_dir =? "")%string then ""
           else if PyStr.endswith "/" series_dir then "" else "/").
Proof.
  unfold patch_path, os_path_join.
  destruct (StrFacts.str_head (patch_id patch)) as (c & rest & Hstr & Hc).
  assert (Hrel : PyStr.startswith "/" (PyStr.str (patch_id patch) ++ ".patch")
                 = false).
  { rewrite Hstr. cbn [append PyStr.startswith].
    destruct Hc as [Hc | ->]; [|reflexivity].
    destruct (Ascii.eqb_spec "/"%char c) as [<- | _]; [discriminate Hc|].
    reflexivity. }
  rewrite Hrel.
  destruct (String.eqb_spec series_dir "") as [-> | _].
  { now exists "". }
  destruct (PyStr.endswith "/" series_dir);
    [exists "" | exists "/"]; split; reflexivity.
Qed.

(** X16. Patches with different ids are saved to different files of the series
    directory and have different check endpoints: no patch of a series
    overwrites the file of another, and no check lands on another patch. *)
Theorem patches_kept_apart (series_dir : string) (p q : Patch) :
  patch_id p <> patch_id q ->
  PyStr.startswith series_dir (patch_path series_dir p) = true /\
  patch_path series_dir p <> patch_path series_dir q /\
  check_url (patch_id p) <> check_url (patch_id q).
Proof.
  intros Hids.
  destruct (patch_path_shape series_dir p) as (sep & Hp & Hsep).
  destruct (patch_path_shape series_dir q) as (sep' & Hq & Hsep').
  rewrite <- Hsep in Hsep'. subst sep'.
  split; [|split].
  - rewrite Hp. apply PyStrFacts.startswith_app.
  - rewrite Hp, Hq. intros H.
    apply string_app_inv_head, string_app_inv_head, string_app_inv_tail in H.
    now apply StrFacts.str_inj in H.
  - unfold check_url. intros H.
    apply string_app_inv_head in H.
    change ("/patches/" ++ PyStr.str (patch_id p) ++ "/checks/")
      with ("/patches/" ++ (PyStr.str (patch_id p) ++ "/checks/")) in H.
    apply (string_app_inv_head "/patches/") in H.
    apply string_app_inv_tail in H.
    now apply StrFacts.str_inj in H.
Qed.

Lemma patches_kept_apart_witness :
  PyStr.startswith "/tmp/root/1"
    (patch_path "/tmp/root/1" (Fixture.patch 11 "" [1])) = true /\
  patch_path "/tmp/root/1" (Fixture.patch 11 "" [1]) <>
  patch_path "/tmp/root/1" (Fixture.patch 12 "" [1]) /\
  check_url 11 <> check_url 12.
Proof.
  apply (patches_kept_apart "/tmp/root/1" (Fixture.patch 11 "" [1])
           (Fixture.patch 12 "" [1])).
  vm_compute. discriminate.
Defined.

(** ** The file list of a series *)

(** X17. [series_get_file_list] asks the tracker for every patch of the series,
    in order, and returns no file at all: [patch_get_file_list] finds none
    in any diff. *)
Theorem series_get_file_list_empty (E : Env) (series : Series) (w : World) :
  Forall (fun patch => patch_served E (patch_id patch)) (series_patches series) ->
  runs (series_get_file_list E series) w (Ok [])
    (map (fun patch => EvGet (patch_url (patch_id patch))) (series_patches series)).
Proof.
  unfold series_get_file_list. generalize (series_patches series) as patches.
  intros patches Hserved. revert w.
  induction Hserved as [|patch rest Hpatch _ IH]; intros w;
    cbn [series_get_file_list_loop map].
  - apply runs_ret.
  - change (EvGet (patch_url (patch_id patch)) :: ?l)
      with ([EvGet (patch_url (patch_id patch))] ++ l)%list.
    eapply runs_bind; [apply pw_get_patch_ok, Hpatch|].
    rewrite patch_get_file_list_nil. cbn [app]. apply IH.
Qed.

Lemma series_get_file_list_empty_witness :
  runs (series_get_file_list Fixture.quiet Fixture.two_patches)
    (Fixture.world []) (Ok [])
    [EvGet (patch_url 11); EvGet (patch_url 12)].
Proof.
  apply (series_get_file_list_empty Fixture.quiet Fixture.two_patches
           (Fixture.world [])).
  repeat constructor.
Defined.

(** ** What a failed patch is reported with *)

Lemma fail_reports_app (a b : list Event) :
  fail_reports (a ++ b) = (fail_reports a ++ fail_reports b)%list.
Proof. apply flat_map_app. Qed.

Lemma mail_bodies_app (a b : list Event) :
  mail_bodies (a ++ b) = (mail_bodies a ++ mail_bodies b)%list.
Proof. apply flat_map_app. Qed.

Lemma main_submit_check_texts (E : Env) (args : Args) (patch_id state : Z)
    (description : string) (w : World) :
  accepts_checks E ->
  post (main_submit_check E args patch_id state description) w
    (fun o new => o = Ok tt /\ mail_bodies new = [] /\
                  fail_reports new =
                  if uploads args (environ w) && (state =? 3)
                  then [description] else []).
Proof.
  intros Haccept. unfold main_submit_check, uploads.
  destruct (args_dry_run args).
  { known ltac:(apply runs_ret). now repeat split. }
  destruct (args_no_update_check args).
  { known ltac:(apply runs_ret). now repeat split. }
  cbn [negb andb]. unfold dict_mem.
  apply post_bind. unfold pw_submit_check.
  step ltac:(apply runs_observe).
  cbn [environ add_events].
  destruct (dict_get String.eqb (environ w) "PATCHWORK_TOKEN") as [token|].
  - apply post_bind. unfold requests_post.
    step ltac:(reflexivity).
    rewrite Haccept. cbn [Z.eqb negb Pos.eqb].
    known ltac:(apply runs_ret).
    known ltac:(apply runs_ret).
    known ltac:(apply runs_ret).
    split; [reflexivity|]. split; [reflexivity|].
    cbn [app fail_reports flat_map check_state check_description].
    destruct (state =? 3); reflexivity.
  - step ltac:(apply runs_emit).
    known ltac:(apply runs_ret).
    known ltac:(apply runs_ret).
    now repeat split.
Qed.

Lemma main_apply_patches_texts (E : Env) (args : Args) (series_dir : string)
    (good : list Patch) (bad : Patch) (rest : list Patch) :
  accepts_checks E ->
  Forall (applies E args series_dir) good ->
  fails_to_apply E args series_dir bad ->
  forall w,
    post (main_apply_patches E args series_dir (good ++ bad :: rest)) w
      (fun o new =>
         exists w',
           let stderr := snd (popen E w' (git_am_cmd series_dir bad)
                                (args_src_dir args)) in
           o = Ok (false, EMAIL_MESSAGE_format stderr) /\
           mail_bodies new = [] /\
           fail_reports new = if uploads args (environ w) then [stderr] else []).
Proof.
  intros Haccept Hgood [Hmbox Ham].
  induction Hgood as [|p good [Hpmbox Hpam] _ IH]; intros w.
  - cbn [app main_apply_patches].
    step ltac:(apply requests_url_ok, Hmbox).
    step ltac:(apply runs_emit).
    unfold git_am. fold (patch_path series_dir bad).
    fold (git_am_cmd series_dir bad).
    step ltac:(apply cmd_run_nonzero, Ham).
    match goal with
    | |- context [fst (fst (popen E ?w' _ _)) =? 0] =>
        let H := fresh "Hexit" in
        assert (H := Ham w'); apply Z.eqb_neq in H; rewrite H
    end.
    cbn [negb].
    apply post_bind. eapply post_conseq; [now apply main_submit_check_texts|].
    intros o n (-> & Hmail & Hfail). cbn beta iota.
    apply post_bind. eapply post_conseq; [apply cmd_run_post|].
    intros o' n' [[r ->] ->].
    known ltac:(apply runs_ret).
    match type of Hfail with
    | context [popen E ?w' _ _] => exists w'
    end.
    cbn zeta. split; [reflexivity|].
    cbn [environ add_events Z.eqb Pos.eqb] in Hfail.
    rewrite Bool.andb_true_r in Hfail.
    rewrite !mail_bodies_app, !fail_reports_app, Hmail, Hfail.
    split; [reflexivity|]. cbn [fail_reports flat_map app].
    now rewrite List.app_nil_r.
  - cbn [app main_apply_patches].
    step ltac:(apply requests_url_ok, Hpmbox).
    step ltac:(apply runs_emit).
    unfold git_am at 1. fold (patch_path series_dir p).
    fold (git_am_cmd series_dir p).
    step ltac:(apply cmd_run_zero, Hpam).
    cbn [Z.eqb negb].
    apply post_bind. eapply post_conseq; [now apply main_submit_check_texts|].
    intros o n (-> & Hmail & Hfail). cbn beta iota.
    eapply post_conseq; [apply IH|].
    intros o' n' (w' & Hverdict & Hmail' & Hfail'). exists w'.
    cbn zeta in *. split; [exact Hverdict|].
    cbn [environ add_events] in *.
    rewrite !mail_bodies_app, !fail_reports_app, Hmail, Hmail', Hfail, Hfail'.
    cbn [Z.eqb Pos.eqb]. rewrite Bool.andb_false_r.
    split; reflexivity.
Qed.

Lemma email_compose_texts (E : Env) (config : EmailConfig) (series : Series)
    (content : string) (w : World) :
  email_enable config = true ->
  series_name series <> None ->
  series_patches series <> [] ->
  dict_mem String.eqb (environ w) "EMAIL_TOKEN" = true ->
  (forall w', smtp E w' config = SmtpSent) ->
  exists new,
    runs (email_compose E config series content) w (Ok tt) new /\
    fail_reports new = [] /\ mail_bodies new = [content].
Proof.
  intros Henable Hname Hpatches Htoken Hsent. unfold email_compose.
  rewrite Henable. cbn [negb].
  destruct (series_name series) as [name|]; [|congruence].
  destruct (series_patches series) as [|patch_1 others]; [congruence|].
  unfold email_sendmail. eexists. split.
  - eapply runs_bind; [apply runs_observe|].
    cbn [environ add_events]. rewrite Htoken. cbn [negb].
    eapply runs_bind; [apply runs_observe|].
    rewrite Hsent. apply runs_emit.
  - split; reflexivity.
Qed.

(** X18. A patch that does not apply is reported twice with one text: the error
    output of the failed [git am] is the description of the fail check on
    the patch, and the same output, set in the mail template, is the body
    of the one mail that is sent.  No other fail check and no other mail
    come out of the series. *)
Theorem main_apply_series_reports_error_output (E : Env) (args : Args)
    (config : Config) (id : Z) (series : Series) (series_dir : string)
    (good : list Patch) (bad : Patch) (rest : list Patch) (w : World) :
  accepts_checks E ->
  series_patches series = (good ++ bad :: rest)%list ->
  Forall (applies E args series_dir) good ->
  fails_to_apply E args series_dir bad ->
  uploads args (environ w) = true ->
  notifies E args config series (environ w) ->
  exists w' new,
    let stderr := snd (popen E w' (git_am_cmd series_dir bad)
                         (args_src_dir args)) in
    runs (main_apply_series E args config id series series_dir) w (Ok tt) new /\
    fail_reports new = [stderr] /\
    mail_bodies new = [EMAIL_MESSAGE_format stderr].
Proof.
  intros Haccept Hpatches Hgood Hbad Hup (Hdry & Henable & Hname & Htoken & Hsent).
  unfold main_apply_series. rewrite Hpatches.
  destruct (main_apply_patches_texts E args series_dir good bad rest
              Haccept Hgood Hbad w)
    as (o & n & Hrun & w' & -> & Hmail & Hfail).
  rewrite Hup in Hfail.
  destruct (email_compose_texts E (config_email config) series
              (EMAIL_MESSAGE_format
                 (snd (popen E w' (git_am_cmd series_dir bad)
                         (args_src_dir args))))
              (add_events n w)) as (n' & Hrun' & Hfail' & Hmail');
    try assumption.
  { rewrite Hpatches. now destruct good. }
  exists w', (n ++ n')%list. cbn zeta. split; [|split].
  - eapply runs_bind; [exact Hrun|]. cbn beta iota.
    unfold main_publish. cbn [negb]. rewrite Hdry. exact Hrun'.
  - now rewrite fail_reports_app, Hfail, Hfail'.
  - now rewrite mail_bodies_app, Hmail, Hmail'.
Qed.

Lemma main_apply_series_reports_error_output_witness :
  exists new,
    runs (main_apply_series (Fixture.am_fails_on "/tmp/root/1/12.patch")
            (Fixture.args false) Fixture.config 1 Fixture.two_patches
            "/tmp/root/1")
      (Fixture.world Fixture.tokens) (Ok tt) new /\
    fail_reports new = ["error: patch failed"] /\
    mail_bodies new = [EMAIL_MESSAGE_format "error: patch failed"].
Proof.
  destruct (main_apply_series_reports_error_output
              (Fixture.am_fails_on "/tmp/root/1/12.patch") (Fixture.args false)
              Fixture.config 1 Fixture.two_patches "/tmp/root/1"
              [Fixture.patch 11 "" [1]] (Fixture.patch 12 "" [1]) []
              (Fixture.world Fixture.tokens))
    as (w' & new & Hrun & Hfail & Hmail).
  - intros w url headers content. reflexivity.
  - reflexivity.
  - constructor; [|constructor]. apply applies_fixture. vm_compute. discriminate.
  - apply (fails_to_apply_fixture (Fixture.patch 12 "" [1])).
  - reflexivity.
  - apply (notifies_fixture "/tmp/root/1/12.patch").
  - exists new. split; [exact Hrun|]. split; [exact Hfail | exact Hmail].
Defined.

(** ** A mail server that cannot be reached *)

(** X19. [email_sendmail] calls [session.quit()] in its [finally] block even when
    opening the session failed, so an unreachable mail server does not end
    in a logged error but in an [UnboundLocalError]: the notification of a
    failed series raises out of [main_publish], after the error line and
    without a mail. *)
Theorem main_publish_without_mail_session (E : Env) (args : Args)
    (config : Config) (id : Z) (series : Series) (content reason : string)
    (w : World) :
  args_dry_run args = false ->
  email_enable (config_email config) = true ->
  series_name series <> None ->
  series_patches series <> [] ->
  dict_mem String.eqb (environ w) "EMAIL_TOKEN" = true ->
  smtp E w (config_email config) = SmtpNoSession reason ->
  runs (main_publish E args config id series false content) w
    (Raise UnboundLocalError) [EvLog ("ERROR: Exception: " ++ reason)].
Proof.
  intros Hdry Henable Hname Hpatches Htoken Hsmtp.
  unfold main_publish. cbn [negb]. rewrite Hdry.
  unfold email_compose. rewrite Henable. cbn [negb].
  destruct (series_name series) as [name|]; [|congruence].
  destruct (series_patches series) as [|patch_1 others]; [congruence|].
  unfold email_sendmail.
  change [EvLog ("ERROR: Exception: " ++ reason)]
    with ([] ++ [] ++ [EvLog ("ERROR: Exception: " ++ reason)])%list.
  eapply runs_bind; [apply runs_observe|].
  cbn [environ add_events]. rewrite Htoken. cbn [negb].
  eapply runs_bind; [apply runs_observe|].
  rewrite !add_events_nil, Hsmtp.
  change [EvLog ("ERROR: Exception: " ++ reason)]
    with ([EvLog ("ERROR: Exception: " ++ reason)] ++ [])%list.
  eapply runs_bind; [apply runs_emit|]. apply runs_raise.
Qed.

Lemma main_publish_without_mail_session_witness :
  runs (main_publish Scenario.no_mail_server (Fixture.args false)
          Fixture.config 1 Fixture.two_patches false "body")
    (Fixture.world Fixture.tokens)
    (Raise UnboundLocalError)
    [EvLog "ERROR: Exception: [Errno 111] Connection refused"].
Proof.
  apply (main_publish_without_mail_session Scenario.no_mail_server
           (Fixture.args false) Fixture.config 1 Fixture.two_patches
           "body" "[Errno 111] Connection refused"
           (Fixture.world Fixture.tokens));
    try reflexivity; discriminate.
Defined.

(** ** Where [save_series_patches] writes *)

Lemma os_path_join_relative (a b : string) :
  PyStr.startswith "/" b = false ->
  os_path_join a b = a ++ separator a ++ b.
Proof.
  intros Hrel. unfold os_path_join, separator. rewrite Hrel.
  destruct (String.eqb_spec a "") as [-> | _]; [reflexivity|].
  destruct (PyStr.endswith "/" a); reflexivity.
Qed.

Lemma str_relative (n : Z) (suffix : string) :
  PyStr.startswith "/" (PyStr.str n ++ suffix) = false.
Proof.
  destruct (StrFacts.str_head n) as (c & rest & -> & Hc).
  cbn [append PyStr.startswith].
  destruct Hc as [Hc | ->]; [|reflexivity].
  destruct (Ascii.eqb_spec "/"%char c) as [<- | _]; [discriminate Hc|].
  reflexivity.
Qed.

Lemma uint_no_slash (d : Decimal.uint) (suffix : string) :
  PyStr.contains "/" (NilEmpty.string_of_uint d ++ suffix) =
  PyStr.contains "/" suffix.
Proof.
  induction d; cbn [NilEmpty.string_of_uint append]; [reflexivity|..];
    cbn [PyStr.contains PyStr.startswith]; exact IHd.
Qed.

(** The text of a number has no slash. *)
Lemma str_no_slash (n : Z) (suffix : string) :
  PyStr.contains "/" (PyStr.str n ++ suffix) = PyStr.contains "/" suffix.
Proof.
  destruct n as [|p|p].
  - reflexivity.
  - rewrite StrFacts.str_pos. apply uint_no_slash.
  - rewrite StrFacts.str_neg, StrFacts.str_pos. cbn [append].
    cbn [PyStr.contains PyStr.startswith]. apply uint_no_slash.
Qed.

(** A file that [os.path.join] puts directly into [root_dir] under a name
    without a slash is not below the directory of a series in [root_dir]. *)
Lemma patch_path_not_below (root_dir : string) (id : Z) (patch : Patch) :
  below (os_path_join root_dir (PyStr.str id)) (patch_path root_dir patch) = false.
Proof.
  unfold below, patch_path.
  rewrite (os_path_join_relative root_dir (PyStr.str (patch_id patch) ++ ".patch"))
    by apply str_relative.
  assert (Hid : os_path_join root_dir (PyStr.str id) =
                root_dir ++ separator root_dir ++ PyStr.str id).
  { rewrite <- (os_path_join_relative root_dir (PyStr.str id)).
    - reflexivity.
    - destruct (StrFacts.str_head id) as (c & rest & -> & Hc).
      cbn [PyStr.startswith].
      destruct Hc as [Hc | ->]; [|reflexivity].
      destruct (Ascii.eqb_spec "/"%char c) as [<- | _]; [discriminate Hc|].
      reflexivity. }
  rewrite Hid.
  destruct (PyStr.startswith _ _) eqn:Hstarts; [exfalso | reflexivity].
  apply PyStrFacts.startswith_inv in Hstarts as [r Hr].
  rewrite !PyStrFacts.app_assoc in Hr.
  apply string_app_inv_head, string_app_inv_head in Hr.
  assert (Hslash : PyStr.contains "/" (PyStr.str (patch_id patch) ++ ".patch")
                   = true).
  { rewrite Hr. apply PyStrFacts.contains_app. }
  rewrite str_no_slash in Hslash. discriminate Hslash.
Qed.

Lemma files_written_app (a b : list Event) :
  files_written (a ++ b) = (files_written a ++ files_written b)%list.
Proof. apply flat_map_app. Qed.

Lemma save_series_patches_loop_run (E : Env) (root_dir : string)
    (patches : list Patch) :
  Forall (fun patch =>
            forall w, status_code (tracker_mbox E w (patch_mbox patch)) = 200)
    patches ->
  forall w, exists new,
    runs (save_series_patches_loop E root_dir patches) w (Ok tt) new /\
    files_written new = map (patch_path root_dir) patches.
Proof.
  induction 1 as [|patch rest Hmbox _ IH]; intros w;
    cbn [save_series_patches_loop map].
  - exists []. split; [apply runs_ret | reflexivity].
  - destruct (IH (add_events
                    [EvWriteFile (patch_path root_dir patch)
                       (payload (tracker_mbox E w (patch_mbox patch)))]
                    (add_events [EvGet (patch_mbox patch)] w)))
      as (new & Hrun & Hfiles).
    eexists. split.
    + eapply runs_bind; [apply requests_url_ok, Hmbox|].
      eapply runs_bind; [apply runs_emit | exact Hrun].
    + rewrite !files_written_app, Hfiles. reflexivity.
Qed.

(** X20. [save_series_patches] creates the directory of the series when it is
    missing and returns it, but it saves the patches beside it: every patch
    is written to [<patch id>.patch] in [root_dir], in series order, and no
    file lands below the directory that is returned. *)
Theorem save_series_patches_beside_directory (E : Env) (id : Z)
    (patches : list Patch) (root_dir : string) (w : World) :
  Forall (fun patch =>
            forall w, status_code (tracker_mbox E w (patch_mbox patch)) = 200)
    patches ->
  exists new,
    let series_path := os_path_join root_dir (PyStr.str id) in
    runs (save_series_patches E id (Some patches) root_dir) w (Ok series_path) new /\
    (path_exists E w series_path = false -> In (EvMakedirs series_path) new) /\
    files_written new = map (patch_path root_dir) patches /\
    Forall (fun path => below series_path path = false) (files_written new).
Proof.
  intros Hmbox. cbn zeta. unfold save_series_patches.
  set (series_path := os_path_join root_dir (PyStr.str id)).
  assert (Hdir : exists made,
             runs (if negb (path_exists E w series_path)
                   then emit (EvMakedirs series_path) else ret tt)
               (add_events [] w) (Ok tt) made /\
             files_written made = [] /\
             (path_exists E w series_path = false ->
              In (EvMakedirs series_path) made)).
  { destruct (path_exists E w series_path); cbn [negb].
    - exists []. split; [apply runs_ret|]. split; [reflexivity | discriminate].
    - exists [EvMakedirs series_path].
      split; [apply runs_emit|]. split; [reflexivity|]. intros _. now left. }
  destruct Hdir as (made & Hmade & Hnone & Hin).
  destruct (save_series_patches_loop_run E root_dir patches Hmbox
              (add_events made (add_events [] w))) as (new & Hrun & Hfiles).
  exists ([] ++ made ++ new ++ [])%list.
  assert (Hwritten : files_written ([] ++ made ++ new ++ []) =
                     map (patch_path root_dir) patches).
  { cbn [app]. now rewrite !files_written_app, Hnone, Hfiles, List.app_nil_r. }
  split; [|split; [|split]].
  - eapply runs_bind; [apply runs_observe|].
    eapply runs_bind; [exact Hmade|].
    eapply runs_bind; [exact Hrun | apply runs_ret].
  - intros Hmissing. cbn [app]. apply in_or_app. left. now apply Hin.
  - exact Hwritten.
  - rewrite Hwritten. apply Forall_map, Forall_forall. intros patch _.
    apply patch_path_not_below.
Qed.

Lemma save_series_patches_beside_directory_witness :
  exists new,
    runs (save_series_patches Fixture.quiet 1
            (Some (series_patches Fixture.two_patches)) "/tmp/root")
      (Fixture.world []) (Ok "/tmp/root/1") new /\
    (path_exists Fixture.quiet (Fixture.world []) "/tmp/root/1" = false ->
     In (EvMakedirs "/tmp/root/1") new) /\
    files_written new = ["/tmp/root/11.patch"; "/tmp/root/12.patch"] /\
    Forall (fun path => below "/tmp/root/1" path = false) (files_written new).
Proof.
  apply (save_series_patches_beside_directory Fixture.quiet 1
           (series_patches Fixture.two_patches) "/tmp/root" (Fixture.world [])).
  repeat constructor.
Defined.

(** ** update-check.py *)

Lemma runs_try_except_ok {A} (body : M A) (handler : Exn -> M A) (w : World)
    (a : A) (new : list Event) :
  runs body w (Ok a) new ->
  runs (UpdateCheck.try_except body handler) w (Ok a) new.
Proof. unfold runs, UpdateCheck.try_except. now intros ->. Qed.

Lemma runs_try_except_caught {A} (body : M A) (handler : Exn -> M A)
    (w : World) (e : Exn) (o : Outcome A) (n1 n2 : list Event) :
  (forall code, e <> SystemExit code) ->
  runs body w (Raise e) n1 ->
  runs (handler e) (add_events n1 w) o n2 ->
  runs (UpdateCheck.try_except body handler) w o (n1 ++ n2)%list.
Proof.
  unfold runs, UpdateCheck.try_except. intros Hexc -> Hhandler.
  rewrite <- add_events_app.
  destruct e; try exact Hhandler. now destruct (Hexc code).
Qed.

Lemma checks_posted_app (a b : list Event) :
  checks_posted (a ++ b) = (checks_posted a ++ checks_posted b)%list.
Proof. apply flat_map_app. Qed.

(** X21. update-check.py posts a check only for a command line that passes its
    three tests, and then at most the one check that was asked for, on the
    patch that was asked for: when the tracker does not know the patch, the
    state is not 1, 2 or 3, or the context has a space, the script ends with
    exit status 1 and nothing is posted; otherwise exactly the requested
    check is posted when [PATCHWORK_TOKEN] is set, and none when it is
    not. *)
Theorem update_check_posts_only_valid_checks (E : Env)
    (describe : Exn -> string) (args : UpdateCheck.Args) (w : World) :
  exists o new,
    runs (UpdateCheck.main E describe args) w o new /\
    if UpdateCheck.valid E args w then
      checks_posted new =
      match dict_get String.eqb (environ w) "PATCHWORK_TOKEN" with
      | Some token =>
          [(check_url (UpdateCheck.args_patch_id args),
            [("Authorization", "Token " ++ token)],
            UpdateCheck.requested args)]
      | None => []
      end
    else o = Raise (SystemExit 1) /\ checks_posted new = [].
Proof.
  unfold UpdateCheck.main, UpdateCheck.valid.
  set (id := UpdateCheck.args_patch_id args).
  set (state := UpdateCheck.args_state args).
  set (context := UpdateCheck.args_context args).
  destruct (Z.eqb_spec (status_code (tracker_patch E w (patch_url id))) 200)
    as [Hserved | Hrefused].
  2:{ cbn [andb]. eexists _, _. split.
      - apply runs_bind_raise.
        eapply runs_try_except_caught; cycle 1.
        + apply runs_bind_raise. unfold pw_get_patch.
          apply runs_bind_raise. apply requests_url_fail. exact Hrefused.
        + eapply runs_bind; [apply runs_emit|]. apply runs_raise.
        + intros code. discriminate.
      - split; reflexivity. }
  assert (Hget : runs (UpdateCheck.try_except
                         (bind (pw_get_patch E id) (fun _ => ret tt))
                         (fun e =>
                            bind (print_error
                                    ("ERROR: Unable to get patch: " ++ describe e))
                              (fun _ => raise (SystemExit 1))))
                   w (Ok tt) ([EvGet (patch_url id)] ++ [])).
  { apply runs_try_except_ok.
    eapply runs_bind; [apply pw_get_patch_ok, Hserved | apply runs_ret]. }
  cbn [andb].
  destruct ((state =? 1) || (state =? 2) || (state =? 3)) eqn:Hstate.
  2:{ apply Bool.orb_false_elim in Hstate as [Hstate H3].
      apply Bool.orb_false_elim in Hstate as [H1 H2].
      rewrite H1, H2, H3. cbn [negb andb].
      eexists _, _. split.
      - eapply runs_bind; [exact Hget|].
        eapply runs_bind; [apply runs_emit | apply runs_raise].
      - split; reflexivity. }
  assert (Hvalid : negb (state =? 1) && negb (state =? 2) && negb (state =? 3)
                   = false).
  { destruct (state =? 1), (state =? 2), (state =? 3);
      try reflexivity; discriminate Hstate. }
  rewrite Hvalid. cbn [andb].
  destruct (Z.ltb_spec (PyStr.find " " context) 0) as [Hfree | Hspace].
  2:{ apply Z.leb_le in Hspace. rewrite Hspace.
      eexists _, _. split.
      - eapply runs_bind; [exact Hget|].
        eapply runs_bind; [apply runs_emit | apply runs_raise].
      - split; reflexivity. }
  assert (Hno : (0 <=? PyStr.find " " context) = false) by now apply Z.leb_gt.
  rewrite Hno. unfold pw_submit_check.
  destruct (dict_get String.eqb (environ w) "PATCHWORK_TOKEN") as [token|] eqn:Htoken.
  - assert (Hurl : (if (UpdateCheck.args_target_url args =? "")%string
                    then "" else UpdateCheck.args_target_url args)
                   = UpdateCheck.args_target_url args).
    { now destruct (String.eqb_spec (UpdateCheck.args_target_url args) "")
        as [-> | _]. }
    rewrite Hurl. fold (UpdateCheck.requested args).
    destruct (Z.eqb_spec
                (status_code
                   (tracker_post E
                      (add_events [] (add_events ([EvGet (patch_url id)] ++ []) w))
                      (check_url id) [("Authorization", "Token " ++ token)]
                      (UpdateCheck.requested args))) 201)
      as [Hcreated | Hfailed].
    + eexists _, _. split.
      * eapply runs_bind; [exact Hget|].
        eapply runs_bind.
        { eapply runs_bind; [apply runs_observe|].
          cbn [environ add_events]. rewrite Htoken.
          eapply runs_bind.
          - unfold requests_post. eapply runs_bind; [reflexivity|].
            apply Z.eqb_eq in Hcreated.
            match goal with
            | |- context [negb (?x =? 201)] =>
                replace (x =? 201) with true by (symmetry; exact Hcreated)
            end.
            cbn [negb]. apply runs_ret.
          - apply runs_ret. }
        apply runs_ret.
      * reflexivity.
    + eexists _, _. split.
      * eapply runs_bind; [exact Hget|].
        apply runs_bind_raise.
        eapply runs_bind; [apply runs_observe|].
        cbn [environ add_events]. rewrite Htoken.
        apply runs_bind_raise.
        unfold requests_post. eapply runs_bind; [reflexivity|].
        apply Z.eqb_neq in Hfailed.
        match goal with
        | |- context [negb (?x =? 201)] =>
            replace (x =? 201) with false by (symmetry; exact Hfailed)
        end.
        cbn [negb]. apply runs_raise.
      * reflexivity.
  - eexists _, _. split.
    + eapply runs_bind; [exact Hget|].
      eapply runs_bind.
      { eapply runs_bind; [apply runs_observe|].
        cbn [environ add_events]. rewrite Htoken.
        eapply runs_bind; [apply runs_emit | apply runs_ret]. }
      apply runs_ret.
    + reflexivity.
Qed.
